(** * Camera data preprocessing: field normalizers and derived scores

    A shallow embedding of [data_preprocess.py].  The script cleans a table of
    camera records (one loosely formatted string per field) into numbers and
    derives three batch-relative scores from percentile ranks.

    Conventions of the embedding.
    - A Python [str] is a list of code points.  The code points are those of
      Latin-1 (0..255, one [ascii] each), which contains every character the
      script names: the digits, comma, dot, slash, the inch mark, plus, minus and the sign
      U+00B1.  On this range [\d] is [0-9], and [\s], [str.strip] and
      [str.lower] are the Unicode ones restricted to it.
    - A Python [float] is the rational number it stands for, or one of the
      three special values; rounding and overflow are not modelled.
    - An exception is a value: every function that can raise returns a
      [result]. *)

From Stdlib Require Import Ascii String.
From Stdlib Require Import List Bool Arith Lia ZArith QArith Lqa Permutation.
Import ListNotations.
Open Scope string_scope.
Open Scope list_scope.

Set Implicit Arguments.

(** ** Exceptions *)

Inductive exn : Type :=
| ValueError
| KeyError
| IndexError
| ZeroDivisionError.

Inductive result (A : Type) : Type :=
| Ok (a : A)
| Raise (e : exn).

Arguments Ok {A} a.
Arguments Raise {A} e.

Definition bind {A B : Type} (m : result A) (k : A -> result B) : result B :=
  match m with
  | Ok a => k a
  | Raise e => Raise e
  end.

Notation "x <- m ;; k" := (bind m (fun x => k))
  (at level 61, m at next level, right associativity).

(** [try: ... except: return d] with a bare [except]. *)
Definition try_except {A : Type} (m : result A) (d : A) : result A :=
  match m with
  | Ok a => Ok a
  | Raise _ => Ok d
  end.

(** [Series.apply f]: the function is applied to the cells in order, and the
    first exception ends the whole call. *)
Fixpoint apply {A B : Type} (f : A -> result B) (col : list A) : result (list B) :=
  match col with
  | [] => Ok []
  | x :: col' =>
      y <- f x ;;
      ys <- apply f col' ;;
      Ok (y :: ys)
  end.

(** ** Floats *)

Inductive pyfloat : Type :=
| Fin (q : Q)
| PInf
| NInf
| NaN.

Definition isnan (x : pyfloat) : bool :=
  match x with
  | NaN => true
  | _ => false
  end.

(** [x < y] and [x == y] on floats; both are false when an operand is NaN. *)
Definition fltb (x y : pyfloat) : bool :=
  match x, y with
  | NaN, _ | _, NaN => false
  | _, NInf => false
  | NInf, _ => true
  | PInf, _ => false
  | _, PInf => true
  | Fin a, Fin b => negb (Qle_bool b a)
  end.

Definition feqb (x y : pyfloat) : bool :=
  match x, y with
  | Fin a, Fin b => Qeq_bool a b
  | PInf, PInf => true
  | NInf, NInf => true
  | _, _ => false
  end.

Definition fadd (x y : pyfloat) : pyfloat :=
  match x, y with
  | NaN, _ | _, NaN => NaN
  | PInf, NInf | NInf, PInf => NaN
  | PInf, _ | _, PInf => PInf
  | NInf, _ | _, NInf => NInf
  | Fin a, Fin b => Fin (a + b)
  end.

Definition Qsgn (a : Q) : comparison := (0 ?= a)%Q.

Definition fmul (x y : pyfloat) : pyfloat :=
  match x, y with
  | NaN, _ | _, NaN => NaN
  | Fin a, Fin b => Fin (a * b)
  | Fin a, PInf | PInf, Fin a =>
      match Qsgn a with Eq => NaN | Lt => PInf | Gt => NInf end
  | Fin a, NInf | NInf, Fin a =>
      match Qsgn a with Eq => NaN | Lt => NInf | Gt => PInf end
  | PInf, PInf | NInf, NInf => PInf
  | PInf, NInf | NInf, PInf => NInf
  end.

(** [1 / x] on a Series (numpy): division by zero gives infinity. *)
Definition finv (x : pyfloat) : pyfloat :=
  match x with
  | NaN => NaN
  | PInf | NInf => Fin 0
  | Fin a => if Qeq_bool a 0 then PInf else Fin (/ a)
  end.

(** [1.0 / x] on Python scalars: division by zero raises. *)
Definition py_div1 (x : pyfloat) : result pyfloat :=
  match x with
  | NaN => Ok NaN
  | PInf | NInf => Ok (Fin 0)
  | Fin a => if Qeq_bool a 0 then Raise ZeroDivisionError else Ok (Fin (/ a))
  end.

(** [Series.clip(lo, hi)]: NaN stays NaN. *)
Definition clip (lo hi : Q) (x : pyfloat) : pyfloat :=
  match x with
  | NaN => NaN
  | PInf => Fin hi
  | NInf => Fin lo
  | Fin a => if Qle_bool a lo then Fin lo
             else if Qle_bool hi a then Fin hi
             else Fin a
  end.

(** ** Strings *)

Definition pystr : Type := list ascii.

Definition py (s : string) : pystr := list_ascii_of_string s.

Definition code (c : ascii) : N := N_of_ascii c.

Definition between (lo hi : N) (c : ascii) : bool :=
  ((lo <=? code c) && (code c <=? hi))%N.

(** [\d] *)
Definition is_digit (c : ascii) : bool := between 48 57 c.

(** [[\d.]] *)
Definition is_digit_or_dot (c : ascii) : bool :=
  is_digit c || Ascii.eqb c ".".

(** [\s], and the characters [str.strip] removes: the white space of
    Unicode below 256. *)
Definition is_space (c : ascii) : bool :=
  between 9 13 c || between 28 32 c || (code c =? 133)%N || (code c =? 160)%N.

(** [[±+-]] *)
Definition is_sign (c : ascii) : bool :=
  (code c =? 177)%N || Ascii.eqb c "+" || Ascii.eqb c "-".

Definition lower_char (c : ascii) : ascii :=
  if between 65 90 c || (between 192 222 c && negb (code c =? 215)%N)
  then ascii_of_N (code c + 32)
  else c.

(** [s.lower()] *)
Definition lower (s : pystr) : pystr := map lower_char s.

Fixpoint lstrip (s : pystr) : pystr :=
  match s with
  | c :: s' => if is_space c then lstrip s' else s
  | [] => []
  end.

(** [s.strip()] *)
Definition strip (s : pystr) : pystr := rev (lstrip (rev (lstrip s))).

(** [s.replace(c, '')] for a single character [c]. *)
Definition remove_char (c : ascii) (s : pystr) : pystr :=
  filter (fun d => negb (Ascii.eqb d c)) s.

Fixpoint strip_prefix (w s : pystr) : option pystr :=
  match w, s with
  | [], _ => Some s
  | a :: w', b :: s' => if Ascii.eqb a b then strip_prefix w' s' else None
  | _ :: _, [] => None
  end.

(** [w in s] *)
Fixpoint contains (w s : pystr) : bool :=
  match strip_prefix w s with
  | Some _ => true
  | None =>
      match s with
      | [] => false
      | _ :: s' => contains w s'
      end
  end.

(** [s.replace(w, '')] for a non-empty [w]: occurrences are found from the
    left and do not overlap; [skip] counts the characters of the current
    occurrence still to drop. *)
Fixpoint remove_sub_from (w s : pystr) (skip : nat) : pystr :=
  match s with
  | [] => []
  | c :: s' =>
      match skip with
      | S k => remove_sub_from w s' k
      | O =>
          match strip_prefix w s with
          | Some _ => remove_sub_from w s' (length w - 1)
          | None => c :: remove_sub_from w s' 0
          end
      end
  end.

Definition remove_sub (w s : pystr) : pystr := remove_sub_from w s 0.

(** [s.split(sep)] for a single character [sep]; never empty. *)
Fixpoint split (sep : ascii) (s : pystr) : list pystr :=
  match s with
  | [] => [[]]
  | c :: s' =>
      if Ascii.eqb c sep then [] :: split sep s'
      else match split sep s' with
           | p :: ps => (c :: p) :: ps
           | [] => [[c]]
           end
  end.

(** [parts[-1]] of a list of strings. *)
Definition last_part (parts : list pystr) : pystr := last parts [].

(** ** Regular expressions

    The fragment of [re] the script uses: character classes, literals,
    sequence, ordered alternation, greedy repetition of a class and one
    capturing group.  [re] is a backtracking matcher; [matches r s] lists
    the ways [r] matches a prefix of [s] in the order the matcher tries
    them, each as the captured group (if set) and the text left over. *)

Inductive regex : Type :=
| Cls (p : ascii -> bool)
| Lit (w : pystr)
| Seq (r1 r2 : regex)
| Alt (r1 r2 : regex)
| Star (p : ascii -> bool)
| Plus (p : ascii -> bool)
| Group (r : regex).

Definition mstate : Type := (option pystr * pystr)%type.

(** The texts left after a greedy [[p]*]: longest repetition first. *)
Fixpoint star_rests (p : ascii -> bool) (s : pystr) : list pystr :=
  match s with
  | c :: s' => if p c then star_rests p s' ++ [s] else [s]
  | [] => [[]]
  end.

Definition orelse {A : Type} (a b : option A) : option A :=
  match a with
  | Some _ => a
  | None => b
  end.

(** The text consumed between [s] and its suffix [rest]. *)
Definition consumed (s rest : pystr) : pystr :=
  firstn (length s - length rest) s.

Fixpoint matches (r : regex) (s : pystr) : list mstate :=
  match r with
  | Cls p =>
      match s with
      | c :: s' => if p c then [(None, s')] else []
      | [] => []
      end
  | Lit w =>
      match strip_prefix w s with
      | Some s' => [(None, s')]
      | None => []
      end
  | Seq r1 r2 =>
      flat_map (fun m1 =>
                  map (fun m2 => (orelse (fst m2) (fst m1), snd m2))
                      (matches r2 (snd m1)))
               (matches r1 s)
  | Alt r1 r2 => matches r1 s ++ matches r2 s
  | Star p => map (fun s' => (None, s')) (star_rests p s)
  | Plus p =>
      match s with
      | c :: s' => if p c then map (fun s' => (None, s')) (star_rests p s') else []
      | [] => []
      end
  | Group r1 => map (fun m => (Some (consumed s (snd m)), snd m)) (matches r1 s)
  end.

(** [re.match(r, s)]: the first way found, if any. *)
Definition match_at (r : regex) (s : pystr) : option mstate :=
  hd_error (matches r s).

(** What [findall] and [group] report for a match at [s]: group 1 when the
    pattern has one, the whole match otherwise. *)
Definition item (s : pystr) (m : mstate) : pystr :=
  match fst m with
  | Some g => g
  | None => consumed s (snd m)
  end.

(** [re.search(r, s)]: the match at the leftmost position that has one. *)
Fixpoint re_search (r : regex) (s : pystr) : option pystr :=
  match match_at r s with
  | Some m => Some (item s m)
  | None =>
      match s with
      | [] => None
      | _ :: s' => re_search r s'
      end
  end.

(** [re.findall(r, s)]: matches from left to right, each search resuming
    where the previous match ended; [skip] counts the characters of the
    last match still to pass. *)
Fixpoint findall_from (r : regex) (s : pystr) (skip : nat) : list pystr :=
  match skip with
  | S k =>
      match s with
      | [] => []
      | _ :: s' => findall_from r s' k
      end
  | O =>
      match match_at r s with
      | Some m =>
          item s m ::
          match s with
          | [] => []
          | _ :: s' => findall_from r s' (length (consumed s (snd m)) - 1)
          end
      | None =>
          match s with
          | [] => []
          | _ :: s' => findall_from r s' 0
          end
      end
  end.

Definition re_findall (r : regex) (s : pystr) : list pystr := findall_from r s 0.

(** ** Parsing numbers *)

Definition digit_val (c : ascii) : Z := Z.of_N (code c) - 48.

(** The value of a run of decimal digits. *)
Definition dec (s : pystr) : Z :=
  fold_left (fun acc c => 10 * acc + digit_val c)%Z s 0%Z.

Fixpoint span (p : ascii -> bool) (s : pystr) : pystr * pystr :=
  match s with
  | c :: s' =>
      if p c then let (a, b) := span p s' in (c :: a, b) else ([], s)
  | [] => ([], [])
  end.

Definition is_nil {A : Type} (l : list A) : bool :=
  match l with
  | [] => true
  | _ :: _ => false
  end.

(** [float(tok)] for a token made of digits and dots, the only ones the
    script passes to it: digits with at most one dot parse, anything else
    (a lone dot, two dots, the empty string) raises [ValueError]. *)
Definition py_float (tok : pystr) : result pyfloat :=
  let (ip, rest) := span is_digit tok in
  match rest with
  | [] => if is_nil ip then Raise ValueError else Ok (Fin (inject_Z (dec ip)))
  | c :: fp =>
      if Ascii.eqb c "." && forallb is_digit fp && negb (is_nil ip && is_nil fp)
      then Ok (Fin (dec (ip ++ fp) # Z.to_pos (10 ^ Z.of_nat (length fp))))
      else Raise ValueError
  end.

(** [min(numbers)] for a non-empty list, the running minimum starting at
    [x]: a later item replaces it only when strictly smaller. *)
Definition py_min (x : pyfloat) (xs : list pyfloat) : pyfloat :=
  fold_left (fun m y => if fltb y m then y else m) xs x.

(** ** Raw cells *)

(** A raw field: null (None or NaN, what [pd.isna] accepts) or a string.  A
    number read from JSON reaches the normalizers through [str]. *)
Inductive raw : Type :=
| Null
| Str (s : pystr).

(** ** Field normalizers *)

(** [r'([\d.]+)'] *)
Definition re_number : regex := Group (Plus is_digit_or_dot).

(** [r'(\d+)'] *)
Definition re_int : regex := Group (Plus is_digit).

(** [r'[\d.]+'] *)
Definition re_number_nogroup : regex := Plus is_digit_or_dot.

(** [r'[±+-]\s*([\d.]+)\s*EV'] *)
Definition re_exposure : regex :=
  Seq (Cls is_sign)
      (Seq (Star is_space)
           (Seq (Group (Plus is_digit_or_dot))
                (Seq (Star is_space) (Lit (py "EV"))))).

(** [r'([\d.]+)m'] *)
Definition re_metres : regex := Seq (Group (Plus is_digit_or_dot)) (Lit (py "m")).

(** [r'\d+\.\d+|\d+'] *)
Definition re_dim : regex :=
  Alt (Seq (Plus is_digit) (Seq (Lit (py ".")) (Plus is_digit))) (Plus is_digit).

Definition clean_weight (weight_str : raw) : result pyfloat :=
  match weight_str with
  | Null => Ok NaN
  | Str s =>
      let weight_str := strip (remove_char "," (lower s)) in
      match re_search re_number weight_str with
      | Some g => py_float g
      | None => Ok NaN
      end
  end.

Definition clean_max_iso (iso_str : raw) : result pyfloat :=
  match iso_str with
  | Null => Ok NaN
  | Str s =>
      let numbers := re_findall re_int (strip (remove_char "," s)) in
      if is_nil numbers then Ok NaN else py_float (last numbers [])
  end.

Definition clean_aperture_f (aperture_str : raw) : result pyfloat :=
  match aperture_str with
  | Null => Ok NaN
  | Str s =>
      numbers <- apply py_float
                   (filter (fun n => negb (is_nil n)) (re_findall re_number_nogroup s)) ;;
      match numbers with
      | x :: xs => Ok (py_min x xs)
      | [] => Ok NaN
      end
  end.

Definition clean_shutter_speed (shutter_str : raw) : result pyfloat :=
  match shutter_str with
  | Null => Ok NaN
  | Str s =>
      let shutter_str := strip (lower s) in
      if contains (py "/") shutter_str && contains (py "sec") shutter_str then
        let parts := split "/" shutter_str in
        try_except
          (match re_findall re_int (last_part parts) with
           | d :: _ => x <- py_float d ;; py_div1 x
           | [] => Raise IndexError
           end)
          NaN
      else
        match re_search re_number shutter_str with
        | Some g => py_float g
        | None => Ok NaN
        end
  end.

Definition clean_exposure_range (exp_str : raw) : result pyfloat :=
  match exp_str with
  | Null => Ok NaN
  | Str s =>
      match re_search re_exposure s with
      | Some g => py_float g
      | None => Ok NaN
      end
  end.

Definition clean_screen_res (res_str : raw) : result pyfloat :=
  match res_str with
  | Null => Ok NaN
  | Str s =>
      match re_findall re_int (lower (remove_char "," s)) with
      | d :: _ => py_float d
      | [] => Ok NaN
      end
  end.

Definition clean_focus_range (focus_str : raw) : result pyfloat :=
  match focus_str with
  | Null => Ok NaN
  | Str s =>
      let focus_str := strip (remove_sub (py "cm") (lower s)) in
      match re_search re_metres focus_str with
      | Some g => x <- py_float g ;; Ok (fmul x (Fin 100))
      | None =>
          match re_search re_number focus_str with
          | Some g => py_float g
          | None => Ok NaN
          end
      end
  end.

Definition triple : Type := (pyfloat * pyfloat * pyfloat)%type.

Definition clean_dimensions (dim_str : raw) : result triple :=
  match dim_str with
  | Null => Ok (NaN, NaN, NaN)
  | Str s =>
      numbers <- apply py_float (re_findall re_dim s) ;;
      match numbers with
      | l :: w :: h :: _ => Ok (l, w, h)
      | _ => Ok (NaN, NaN, NaN)
      end
  end.

(** [r'3840|4096|4K'] under [re.IGNORECASE].  Among the characters of
    Latin-1 the pattern letter [K] matches [k] and [K]; the one other
    character it matches, the Kelvin sign U+212A, lies outside the range of
    the embedding. *)
Definition is_k (c : ascii) : bool := Ascii.eqb c "k" || Ascii.eqb c "K".

Definition re_4k : regex :=
  Alt (Lit (py "3840")) (Alt (Lit (py "4096")) (Seq (Lit (py "4")) (Cls is_k))).

(** [astype(str)]: a null cell becomes the text [None] or [nan]. *)
Definition astype_str (x : raw) : pystr :=
  match x with
  | Null => py "nan"
  | Str s => s
  end.

(** [Series.str.contains(r)] on one cell. *)
Definition str_contains (r : regex) (s : pystr) : bool :=
  match re_search r s with
  | Some _ => true
  | None => false
  end.

(** ** Percentile ranks

    [Series.rank(method='average', pct=True)] with [na_option] top or
    bottom.  Cells are ranked from 1 in the chosen direction, equal cells
    share the mean of their places, the missing cells form one tie group
    placed before all others (top: the lowest ranks) or after them (bottom:
    the highest ranks), and every rank is divided by the number of cells. *)

Inductive na_option : Type :=
| na_top
| na_bottom.

Definition count (p : pyfloat -> bool) (col : list pyfloat) : nat :=
  length (filter p col).

Definition Qnat (n : nat) : Q := inject_Z (Z.of_nat n).

(** Cells placed before [x] in the ranking direction. *)
Definition precedes (ascending : bool) (x y : pyfloat) : bool :=
  if ascending then fltb y x else fltb x y.

Definition avg_rank (ascending : bool) (na : na_option)
    (col : list pyfloat) (x : pyfloat) : Q :=
  let k := count isnan col in
  let m := (length col - k)%nat in
  if isnan x then
    match na with
    | na_top => (Qnat k + 1) / 2
    | na_bottom => Qnat m + (Qnat k + 1) / 2
    end
  else
    (match na with na_top => Qnat k | na_bottom => 0 end)
    + Qnat (count (precedes ascending x) col)
    + (Qnat (count (feqb x) col) + 1) / 2.

Definition rank (ascending : bool) (na : na_option) (col : list pyfloat)
    : list pyfloat :=
  map (fun x => Fin (avg_rank ascending na col x / Qnat (length col))) col.

(** ** Series arithmetic *)

Definition smul (col : list pyfloat) (k : Q) : list pyfloat :=
  map (fun x => fmul x (Fin k)) col.

Fixpoint sadd (a b : list pyfloat) : list pyfloat :=
  match a, b with
  | x :: a', y :: b' => fadd x y :: sadd a' b'
  | _, _ => []
  end.

Fixpoint smul2 (a b : list pyfloat) : list pyfloat :=
  match a, b with
  | x :: a', y :: b' => fmul x y :: smul2 a' b'
  | _, _ => []
  end.

Definition sinv (col : list pyfloat) : list pyfloat := map finv col.

Definition sclip (lo hi : Q) (col : list pyfloat) : list pyfloat :=
  map (clip lo hi) col.

(** [astype(int)] of a boolean column. *)
Definition astype_int (col : list bool) : list pyfloat :=
  map (fun b : bool => if b then Fin 1 else Fin 0) col.

(** ** Column labels *)

Definition label : Type := string.

Definition has (name : label) (cols : list label) : bool :=
  existsb (String.eqb name) cols.

(** [df[name] = ...]: an existing column keeps its place, a new one goes
    last. *)
Definition setitem (cols : list label) (name : label) : list label :=
  if has name cols then cols else cols ++ [name].

(** The [columns=] mapping of [df.rename]. *)
Definition renamed : list (label * label) :=
  [ ("Weight", "Weight_g");
    ("ISO", "Max_ISO");
    ("Min. shutter speed", "Min_Shutter_Speed_Sec");
    ("Max. shutter speed", "Max_Shutter_Speed_Sec");
    ("Exposure Compensation", "Max_Exposure_Comp");
    ("Screen resolution", "Screen_Res_Dots");
    ("Screen size", "Screen_Size_in");
    ("Normal focus range", "Normal_Focus_cm");
    ("Macro focus range", "Macro_Focus_cm") ].

Fixpoint lookup (m : list (label * label)) (name : label) : option label :=
  match m with
  | [] => None
  | (k, v) :: m' => if String.eqb k name then Some v else lookup m' name
  end.

Definition rename (m : list (label * label)) (cols : list label) : list label :=
  map (fun c => match lookup m c with Some v => v | None => c end) cols.

(** [cols.index(name)] *)
Fixpoint index (name : label) (cols : list label) : result nat :=
  match cols with
  | [] => Raise ValueError
  | c :: cols' =>
      if String.eqb c name then Ok O
      else i <- index name cols' ;; Ok (S i)
  end.

(** [cols.remove(name)]: the first occurrence goes. *)
Fixpoint list_remove (name : label) (cols : list label) : list label :=
  match cols with
  | [] => []
  | c :: cols' => if String.eqb c name then cols' else c :: list_remove name cols'
  end.

(** [cols.insert(i, name)]: past the end it appends. *)
Fixpoint list_insert (i : nat) (name : label) (cols : list label) : list label :=
  match i, cols with
  | O, _ => name :: cols
  | S _, [] => [name]
  | S i', c :: cols' => c :: list_insert i' name cols'
  end.

(** The list [cols] of the last step once the column is moved: the labels
    of the frame, with [Min_Aperture_F] taken out and put in behind the
    place [Max aperture] had before. *)
Definition reorder (cols : list label) : result (list label) :=
  aperture_idx <- index "Max aperture" cols ;;
  if has "Min_Aperture_F" cols
  then Ok (list_insert (aperture_idx + 1) "Min_Aperture_F"
             (list_remove "Min_Aperture_F" cols))
  else Ok cols.

(** [df[cols]] on the labels: every label of [cols] selects all the columns
    of the frame that carry it, so a label that two columns share brings
    both, each time it is named. *)
Definition getitem_columns (header cols : list label) : list label :=
  flat_map (fun c => filter (String.eqb c) header) cols.

(** The labels of the frame after the last step: the selection [df[cols]]
    is made in the branch that moves the column. *)
Definition reordered (header : list label) : result (list label) :=
  cols <- reorder header ;;
  if has "Min_Aperture_F" header
  then Ok (getitem_columns header cols)
  else Ok header.

(** [df[['Dim_L', 'Dim_W', 'Dim_H']] = s.apply(lambda x: pd.Series(...))]:
    on a column without a row [apply] returns an empty column, not a frame
    of three, and the assignment raises. *)
Definition setitem_frame {A : Type} (value : list A) : result unit :=
  match value with
  | [] => Raise ValueError
  | _ :: _ => Ok tt
  end.

(** [df[name].rank(...)] as a term of a score.  When two columns carry the
    label (the input had a column of the new name before the renaming),
    [df[name]] is a frame of both, and its sum with a column raises. *)
Definition score_term (cols : list label) (name : label) : result unit :=
  match filter (String.eqb name) cols with
  | [] => Raise KeyError
  | [_] => Ok tt
  | _ :: _ :: _ => Raise ValueError
  end.

(** ** Frames *)

(** One input record: the raw cell of every column the transform reads. *)
Record camera : Type := {
  Weight : raw;
  ISO : raw;
  Min_shutter_speed : raw;
  Max_shutter_speed : raw;
  Exposure_Compensation : raw;
  Screen_resolution : raw;
  Screen_size : raw;
  Normal_focus_range : raw;
  Macro_focus_range : raw;
  Max_aperture : raw;
  Dimensions : raw;
  Max_video_resolution : raw;
  Total_megapixels : raw;
  Effective_megapixels : raw;
  Megapixels : raw;
  Crop_factor : raw
}.

(** The input table: its column labels in order (distinct, as read from
    JSON objects) and its records. *)
Record DataFrame : Type := {
  columns : list label;
  rows : list camera
}.

(** The output table, column by column. *)
Record CleanFrame : Type := {
  out_columns : list label;
  Weight_g : list pyfloat;
  Max_ISO : list pyfloat;
  Min_Shutter_Speed_Sec : list pyfloat;
  Max_Shutter_Speed_Sec : list pyfloat;
  Max_Exposure_Comp : list pyfloat;
  Screen_Res_Dots : list pyfloat;
  Screen_Size_in : list pyfloat;
  Normal_Focus_cm : list pyfloat;
  Macro_Focus_cm : list pyfloat;
  Min_Aperture_F : list pyfloat;
  Dim_L : list pyfloat;
  Dim_W : list pyfloat;
  Dim_H : list pyfloat;
  Supports_4K : list bool;
  Total_megapixels_n : list pyfloat;
  Effective_megapixels_n : list pyfloat;
  Megapixels_n : list pyfloat;
  Crop_factor_n : list pyfloat;
  Portability_Score : list pyfloat;
  Aperture_Value : list pyfloat;
  LowLight_Score : list pyfloat;
  Video_Score : list pyfloat
}.

(** [df[name]]: the column when the label exists, [KeyError] otherwise. *)
Definition getitem {A : Type} (cols : list label) (name : label)
    (col : list A) : result (list A) :=
  if has name cols then Ok col else Raise KeyError.

(** ** Score formulas *)

Definition portability (weight_g dim_l dim_w dim_h : list pyfloat) : list pyfloat :=
  sclip 20 100
    (smul (sadd (smul (rank false na_bottom weight_g) 0.6)
                (smul (rank true na_bottom (sinv (smul2 (smul2 dim_l dim_w) dim_h))) 0.4))
          100).

Definition lowlight (max_iso aperture_value crop_factor : list pyfloat) : list pyfloat :=
  sclip 20 100
    (smul (sadd (sadd (smul (rank true na_top max_iso) 0.5)
                      (smul (rank true na_top aperture_value) 0.3))
                (smul (rank false na_top crop_factor) 0.2))
          100).

Definition video (supports_4k : list bool) (screen_size_in max_shutter : list pyfloat)
    : list pyfloat :=
  sclip 20 100
    (smul (sadd (sadd (smul (astype_int supports_4k) 0.4)
                      (smul (rank true na_top screen_size_in) 0.3))
                (smul (rank true na_top max_shutter) 0.3))
          100).

Section Transform.

(** [pd.to_numeric(text, errors='coerce')] on one string: some float, NaN
    when the text is not a number.  Its parser is pandas' own; the transform
    is modelled for any such function. *)
Variable to_numeric : pystr -> pyfloat.

Definition to_numeric_cell (x : raw) : pyfloat :=
  match x with
  | Null => NaN
  | Str s => to_numeric s
  end.

Definition clean_screen_size (size_str : raw) : result pyfloat :=
  match size_str with
  | Null => Ok NaN
  | Str s => Ok (to_numeric (strip (remove_char "034" s)))
  end.

Definition clean_and_derive_features (df : DataFrame) : result CleanFrame :=
  let rs := rows df in
  let cols := columns df in
  weight <- (c <- getitem cols "Weight" (map Weight rs) ;; apply clean_weight c) ;;
  iso <- (c <- getitem cols "ISO" (map ISO rs) ;; apply clean_max_iso c) ;;
  min_shutter <- (c <- getitem cols "Min. shutter speed" (map Min_shutter_speed rs) ;;
                  apply clean_shutter_speed c) ;;
  max_shutter <- (c <- getitem cols "Max. shutter speed" (map Max_shutter_speed rs) ;;
                  apply clean_shutter_speed c) ;;
  exposure <- (c <- getitem cols "Exposure Compensation" (map Exposure_Compensation rs) ;;
               apply clean_exposure_range c) ;;
  screen_res <- (c <- getitem cols "Screen resolution" (map Screen_resolution rs) ;;
                 apply clean_screen_res c) ;;
  screen_size <- (c <- getitem cols "Screen size" (map Screen_size rs) ;;
                  apply clean_screen_size c) ;;
  normal_focus <- (c <- getitem cols "Normal focus range" (map Normal_focus_range rs) ;;
                   apply clean_focus_range c) ;;
  macro_focus <- (c <- getitem cols "Macro focus range" (map Macro_focus_range rs) ;;
                  apply clean_focus_range c) ;;
  min_aperture_f <- (c <- getitem cols "Max aperture" (map Max_aperture rs) ;;
                     apply clean_aperture_f c) ;;
  let cols := setitem cols "Min_Aperture_F" in
  let cols := rename renamed cols in
  dims <- (c <- getitem cols "Dimensions" (map Dimensions rs) ;; apply clean_dimensions c) ;;
  three <- setitem_frame dims ;;
  let dim_l := map (fun t : triple => fst (fst t)) dims in
  let dim_w := map (fun t : triple => snd (fst t)) dims in
  let dim_h := map (fun t : triple => snd t) dims in
  let cols := setitem (setitem (setitem cols "Dim_L") "Dim_W") "Dim_H" in
  supports_4k <- (c <- getitem cols "Max. video resolution" (map Max_video_resolution rs) ;;
                  Ok (map (fun x => str_contains re_4k (astype_str x)) c)) ;;
  let cols := setitem cols "Supports_4K" in
  total_mp <- (c <- getitem cols "Total megapixels" (map Total_megapixels rs) ;;
               Ok (map to_numeric_cell c)) ;;
  effective_mp <- (c <- getitem cols "Effective megapixels" (map Effective_megapixels rs) ;;
                   Ok (map to_numeric_cell c)) ;;
  mp <- (c <- getitem cols "Megapixels" (map Megapixels rs) ;; Ok (map to_numeric_cell c)) ;;
  crop <- (c <- getitem cols "Crop factor" (map Crop_factor rs) ;; Ok (map to_numeric_cell c)) ;;
  weight_term <- score_term cols "Weight_g" ;;
  let portability_score := portability weight dim_l dim_w dim_h in
  let cols := setitem cols "Portability_Score" in
  let aperture_value := sinv min_aperture_f in
  let cols := setitem cols "Aperture_Value" in
  iso_term <- score_term cols "Max_ISO" ;;
  let lowlight_score := lowlight iso aperture_value crop in
  let cols := setitem cols "LowLight_Score" in
  size_term <- score_term cols "Screen_Size_in" ;;
  shutter_term <- score_term cols "Max_Shutter_Speed_Sec" ;;
  let video_score := video supports_4k screen_size max_shutter in
  let cols := setitem cols "Video_Score" in
  cols <- reordered cols ;;
  Ok {| out_columns := cols;
        Weight_g := weight;
        Max_ISO := iso;
        Min_Shutter_Speed_Sec := min_shutter;
        Max_Shutter_Speed_Sec := max_shutter;
        Max_Exposure_Comp := exposure;
        Screen_Res_Dots := screen_res;
        Screen_Size_in := screen_size;
        Normal_Focus_cm := normal_focus;
        Macro_Focus_cm := macro_focus;
        Min_Aperture_F := min_aperture_f;
        Dim_L := dim_l;
        Dim_W := dim_w;
        Dim_H := dim_h;
        Supports_4K := supports_4k;
        Total_megapixels_n := total_mp;
        Effective_megapixels_n := effective_mp;
        Megapixels_n := mp;
        Crop_factor_n := crop;
        Portability_Score := portability_score;
        Aperture_Value := aperture_value;
        LowLight_Score := lowlight_score;
        Video_Score := video_score |}.

End Transform.

(** ** The script's entry point *)

(** [main], on what it finds under the input file name: [None] when there
    is no such file, [Some (Raise e)] when [pd.read_json] fails on it, and
    [Some (Ok df)] when it loads as the table [df].  The result is the
    table written to the output file, if any; an exception that leaves
    [main] is a [Raise].  Console messages are not modelled. *)
Definition main (to_numeric : pystr -> pyfloat)
    (input_file : option (result DataFrame)) : result (option CleanFrame) :=
  match input_file with
  | None => Ok None
  | Some (Raise _) => Ok None
  | Some (Ok df) =>
      df_clean <- clean_and_derive_features to_numeric df ;;
      Ok (Some df_clean)
  end.

(** The columns the transform reads from its input. *)
Definition source_columns : list label :=
  [ "Weight"; "ISO"; "Min. shutter speed"; "Max. shutter speed";
    "Exposure Compensation"; "Screen resolution"; "Screen size";
    "Normal focus range"; "Macro focus range"; "Max aperture"; "Dimensions";
    "Max. video resolution"; "Total megapixels"; "Effective megapixels";
    "Megapixels"; "Crop factor" ].

(** The columns the transform adds. *)
Definition derived_columns : list label :=
  [ "Min_Aperture_F"; "Dim_L"; "Dim_W"; "Dim_H"; "Supports_4K";
    "Portability_Score"; "Aperture_Value"; "LowLight_Score"; "Video_Score" ].

(** The column labels of the frame when the last step starts. *)
Definition header_before_reorder (cols : list label) : list label :=
  setitem
    (setitem
       (setitem
          (setitem
             (setitem
                (setitem
                   (setitem
                      (setitem (rename renamed (setitem cols "Min_Aperture_F")) "Dim_L")
                      "Dim_W")
                   "Dim_H")
                "Supports_4K")
             "Portability_Score")
          "Aperture_Value")
       "LowLight_Score")
    "Video_Score".

(** ** A sample batch *)

(** A coercion that reads plain decimals only, standing for
    [pd.to_numeric] in the examples. *)
Definition to_numeric_decimal (s : pystr) : pyfloat :=
  match py_float (strip s) with
  | Ok x => x
  | Raise _ => NaN
  end.

Definition schema : list label :=
  [ "Name"; "Weight"; "ISO"; "Min. shutter speed"; "Max. shutter speed";
    "Exposure Compensation"; "Screen resolution"; "Screen size";
    "Normal focus range"; "Macro focus range"; "Max aperture"; "Dimensions";
    "Max. video resolution"; "Total megapixels"; "Effective megapixels";
    "Megapixels"; "Crop factor" ].

Definition plus_minus : ascii := "177".

Definition camera_a : camera :=
  {| Weight := Str (py "1,250 g");
     ISO := Str (py "100-12,800");
     Min_shutter_speed := Str (py "30 sec");
     Max_shutter_speed := Str (py "1/4000 sec");
     Exposure_Compensation := Str (plus_minus :: py "5 EV");
     Screen_resolution := Str (py "1,040,000 dots");
     Screen_size := Str (py "3.2" ++ ["034"%char]);
     Normal_focus_range := Str (py "1.5m");
     Macro_focus_range := Str (py "15cm");
     Max_aperture := Str (py "F2.8-4.0");
     Dimensions := Str (py "120 x 80 x 45 mm");
     Max_video_resolution := Str (py "3840x2160");
     Total_megapixels := Str (py "24.5");
     Effective_megapixels := Str (py "24.2");
     Megapixels := Str (py "24");
     Crop_factor := Str (py "1.5") |}.

Definition camera_b : camera :=
  {| Weight := Str (py "300 g");
     ISO := Null;
     Min_shutter_speed := Str (py "15 sec");
     Max_shutter_speed := Str (py "1/2000 sec");
     Exposure_Compensation := Str (py "-3 EV");
     Screen_resolution := Str (py "460,000");
     Screen_size := Str (py "3");
     Normal_focus_range := Str (py "50cm");
     Macro_focus_range := Null;
     Max_aperture := Null;
     Dimensions := Str (py "95 x 60");
     Max_video_resolution := Str (py "1920x1080");
     Total_megapixels := Null;
     Effective_megapixels := Str (py "16");
     Megapixels := Str (py "16");
     Crop_factor := Str (py "5.6") |}.

Definition sample : DataFrame :=
  {| columns := schema; rows := [camera_a; camera_b] |}.

(** A record with a weight the weight normalizer raises on. *)
Definition camera_c : camera :=
  {| Weight := Str (py "approx. 123 g");
     ISO := Str (py "200-6400");
     Min_shutter_speed := Str (py "30 sec");
     Max_shutter_speed := Str (py "1/8000 sec");
     Exposure_Compensation := Str (py "+/-3 EV");
     Screen_resolution := Str (py "921,600");
     Screen_size := Str (py "3");
     Normal_focus_range := Str (py "45cm");
     Macro_focus_range := Str (py "10cm");
     Max_aperture := Str (py "F1.8");
     Dimensions := Str (py "110 x 65 x 40 mm");
     Max_video_resolution := Str (py "4K UHD");
     Total_megapixels := Str (py "21");
     Effective_megapixels := Str (py "20");
     Megapixels := Str (py "20");
     Crop_factor := Str (py "2.7") |}.

(** The sample batch with a column named like the derived one, placed
    before its source column. *)
Definition reprocessed : DataFrame :=
  {| columns := "Min_Aperture_F" :: schema; rows := [camera_a; camera_b] |}.

(** A score that is a number between 20 and 100. *)
Definition in_range (x : pyfloat) : Prop :=
  exists q, x = Fin q /\ 20 <= q <= 100.

(** A float that is a number. *)
Definition finite (x : pyfloat) : Prop := exists q, x = Fin q.

(** The value of a call that did not raise. *)
Definition value_or {A : Type} (d : A) (r : result A) : A :=
  match r with
  | Ok a => a
  | Raise _ => d
  end.

(** Two columns, one per ordering of the same records, that give every
    record the same cell. *)
Definition agree {A B : Type} (rs rs' : list A) (c c' : list B) : Prop :=
  forall i j r,
    nth_error rs i = Some r -> nth_error rs' j = Some r ->
    nth_error c i = nth_error c' j.

(** ** Direct scanners

    What the patterns of the normalizers find, written as scanners that
    read the text once, without backtracking.  The theorems below show that
    the matcher finds exactly these tokens. *)

(** A token at the head of a text, with the text after it. *)
Definition tokenizer : Type := pystr -> option (pystr * pystr).

(** A maximal non-empty run of characters of a class. *)
Definition run_token (p : ascii -> bool) : tokenizer :=
  fun s =>
    let (t, rest) := span p s in
    if is_nil t then None else Some (t, rest).

(** A run of digits, with a dot and a second run of digits when they
    follow. *)
Definition dim_token : tokenizer :=
  fun s =>
    let (ip, r) := span is_digit s in
    if is_nil ip then None
    else match r with
         | c :: r' =>
             let (fp, r'') := span is_digit r' in
             if Ascii.eqb c "." && negb (is_nil fp)
             then Some (ip ++ c :: fp, r'')
             else Some (ip, r)
         | [] => Some (ip, r)
         end.

(** A sign, white space, a run of digits and dots, white space, [EV]: the
    token is the run. *)
Definition exposure_token : tokenizer :=
  fun s =>
    match s with
    | c :: s1 =>
        if is_sign c then
          let (t, s2) := span is_digit_or_dot (snd (span is_space s1)) in
          if is_nil t then None
          else match strip_prefix (py "EV") (snd (span is_space s2)) with
               | Some rest => Some (t, rest)
               | None => None
               end
        else None
    | [] => None
    end.

(** A run of digits and dots followed by [m]: the token is the run. *)
Definition metres_token : tokenizer :=
  fun s =>
    let (t, rest) := span is_digit_or_dot s in
    if is_nil t then None
    else match rest with
         | c :: rest' => if Ascii.eqb c "m" then Some (t, rest') else None
         | [] => None
         end.

(** The first token of a text, reading from the left. *)
Fixpoint first_token (tok : tokenizer) (s : pystr) : option pystr :=
  match tok s with
  | Some (t, _) => Some t
  | None =>
      match s with
      | [] => None
      | _ :: s' => first_token tok s'
      end
  end.

(** All tokens of a text, each search starting where the last token
    ended. *)
Fixpoint lex (fuel : nat) (tok : tokenizer) (s : pystr) : list pystr :=
  match fuel with
  | O => []
  | S fuel' =>
      match tok s with
      | Some (t, rest) => t :: lex fuel' tok rest
      | None =>
          match s with
          | [] => []
          | _ :: s' => lex fuel' tok s'
          end
      end
  end.

Definition tokens (tok : tokenizer) (s : pystr) : list pystr :=
  lex (length s) tok s.

(** The number a decimal token stands for: its integer part plus its
    fraction. *)
Definition token_value (t : pystr) : Q :=
  let (ip, r) := span is_digit t in
  inject_Z (dec ip)
  + match r with
    | [] => 0
    | _ :: fp => dec fp # Z.to_pos (10 ^ Z.of_nat (length fp))
    end.

(** [s.startswith(w)] *)
Definition startswith (w s : pystr) : bool :=
  match strip_prefix w s with
  | Some _ => true
  | None => false
  end.

(** A pattern that cannot start with a character of class [p]. *)
Definition rejects (p : ascii -> bool) (r : regex) : Prop :=
  forall c s, p c = true -> matches r (c :: s) = [].

(** A pattern and a scanner that find the same thing at the head of every
    text. *)
Definition scans (r : regex) (tok : tokenizer) : Prop :=
  forall s,
    match tok s with
    | Some (t, rest) =>
        exists m, match_at r s = Some m /\ item s m = t /\ snd m = rest
    | None => match_at r s = None
    end.

(** A scanner whose token is the whole text it passes over, and is never
    empty. *)
Definition whole (tok : tokenizer) : Prop :=
  forall s t rest, tok s = Some (t, rest) -> s = t ++ rest /\ t <> [].

(** ** Two records of a batch *)





(** * Properties *)

(** ** Lists and spans *)

Lemma span_app (p : ascii -> bool) (s : pystr) :
  s = fst (span p s) ++ snd (span p s).
Proof.
  induction s as [|c s IH]; simpl; [reflexivity|].
  destruct (p c); [|reflexivity].
  destruct (span p s) as [a b]; simpl in *. now rewrite <- IH.
Qed.

Lemma span_fst_all (p : ascii -> bool) (s : pystr) :
  forallb p (fst (span p s)) = true.
Proof.
  induction s as [|c s IH]; simpl; [reflexivity|].
  destruct (p c) eqn:E; [|reflexivity].
  destruct (span p s) as [a b]; simpl in *. now rewrite E, IH.
Qed.

Lemma span_snd_head (p : ascii -> bool) (s : pystr) (c : ascii) (r : pystr) :
  snd (span p s) = c :: r -> p c = false.
Proof.
  induction s as [|d s IH]; simpl; [discriminate|].
  destruct (p d) eqn:E.
  - destruct (span p s) as [a b]; simpl in *. exact IH.
  - simpl. intros H; injection H as -> _. exact E.
Qed.

Lemma span_all (p : ascii -> bool) (a b : pystr) :
  forallb p a = true ->
  match b with [] => True | c :: _ => p c = false end ->
  span p (a ++ b) = (a, b).
Proof.
  intros Ha Hb. induction a as [|x a IH]; simpl in *.
  - destruct b as [|c b]; simpl; [reflexivity|]. now rewrite Hb.
  - apply andb_true_iff in Ha as [Hx Ha]. rewrite Hx, (IH Ha). reflexivity.
Qed.

Lemma span_length (p : ascii -> bool) (s : pystr) :
  (length (snd (span p s)) <= length s)%nat.
Proof.
  rewrite (span_app p s) at 2. rewrite length_app. lia.
Qed.

Lemma consumed_app (a b : pystr) : consumed (a ++ b) b = a.
Proof.
  unfold consumed. rewrite length_app.
  replace (length a + length b - length b)%nat with (length a) by lia.
  rewrite firstn_app, firstn_all, Nat.sub_diag. simpl. apply app_nil_r.
Qed.

Lemma consumed_span (p : ascii -> bool) (s : pystr) :
  consumed s (snd (span p s)) = fst (span p s).
Proof.
  rewrite (span_app p s) at 1. apply consumed_app.
Qed.

(** ** The matcher on greedy repetitions *)

Lemma hd_error_map' {A B : Type} (f : A -> B) (l : list A) :
  hd_error (map f l) = option_map f (hd_error l).
Proof. destruct l; reflexivity. Qed.

Lemma flat_map_map' {A B C : Type} (g : A -> B) (f : B -> list C) (l : list A) :
  flat_map f (map g l) = flat_map (fun x => f (g x)) l.
Proof.
  induction l as [|x l IH]; simpl; [reflexivity|]. now rewrite IH.
Qed.

Lemma span_true (p : ascii -> bool) (c : ascii) (s : pystr) :
  p c = true -> span p (c :: s) = (c :: fst (span p s), snd (span p s)).
Proof.
  intros H. simpl. rewrite H. now destruct (span p s).
Qed.

Lemma span_false (p : ascii -> bool) (c : ascii) (s : pystr) :
  p c = false -> span p (c :: s) = ([], c :: s).
Proof.
  intros H. simpl. now rewrite H.
Qed.

(** Of all the ways a greedy repetition can stop, only the longest one
    matters when what follows cannot start with the repeated class. *)
Lemma flat_map_star_rests {B : Type} (F : pystr -> list B) (p : ascii -> bool) :
  (forall c s, p c = true -> F (c :: s) = []) ->
  forall s, flat_map F (star_rests p s) = F (snd (span p s)).
Proof.
  intros HF s. induction s as [|c s IH]; simpl.
  - apply app_nil_r.
  - destruct (p c) eqn:E.
    + rewrite flat_map_app, IH. simpl. rewrite (HF c s E), !app_nil_r.
      now destruct (span p s).
    + simpl. apply app_nil_r.
Qed.

Lemma star_rests_hd (p : ascii -> bool) (s : pystr) :
  hd_error (star_rests p s) = Some (snd (span p s)).
Proof.
  induction s as [|c s IH]; simpl; [reflexivity|].
  destruct (p c) eqn:E.
  - destruct (star_rests p s) as [|r l]; [discriminate|].
    simpl in *. now destruct (span p s).
  - reflexivity.
Qed.

Lemma matches_plus (p : ascii -> bool) (s : pystr) :
  hd_error (matches (Plus p) s) =
  if is_nil (fst (span p s)) then None else Some (None, snd (span p s)).
Proof.
  destruct s as [|c s]; simpl; [reflexivity|].
  destruct (p c) eqn:E.
  - rewrite hd_error_map', star_rests_hd.
    now destruct (span p s).
  - reflexivity.
Qed.

Lemma seq_star (p : ascii -> bool) (r2 : regex) :
  rejects p r2 ->
  forall s, matches (Seq (Star p) r2) s =
            map (fun m2 => (orelse (fst m2) None, snd m2))
                (matches r2 (snd (span p s))).
Proof.
  intros Hr s. simpl. rewrite flat_map_map'. simpl.
  apply (flat_map_star_rests
           (fun r => map (fun m2 => (orelse (fst m2) None, snd m2)) (matches r2 r))).
  intros c t Hc. now rewrite (Hr c t Hc).
Qed.

Lemma seq_plus (p : ascii -> bool) (r2 : regex) :
  rejects p r2 ->
  forall s, matches (Seq (Plus p) r2) s =
            if is_nil (fst (span p s)) then []
            else map (fun m2 => (orelse (fst m2) None, snd m2))
                     (matches r2 (snd (span p s))).
Proof.
  intros Hr s. destruct s as [|c s]; [reflexivity|].
  simpl. destruct (p c) eqn:E; [|reflexivity].
  rewrite flat_map_map'. simpl.
  rewrite (flat_map_star_rests
             (fun r => map (fun m2 => (orelse (fst m2) None, snd m2)) (matches r2 r))).
  - now destruct (span p s).
  - intros d t Hd. now rewrite (Hr d t Hd).
Qed.

Lemma seq_group_plus (p : ascii -> bool) (r2 : regex) :
  rejects p r2 ->
  forall s, matches (Seq (Group (Plus p)) r2) s =
            if is_nil (fst (span p s)) then []
            else map (fun m2 => (orelse (fst m2) (Some (fst (span p s))), snd m2))
                     (matches r2 (snd (span p s))).
Proof.
  intros Hr s. destruct s as [|c s]; [reflexivity|].
  assert (Hc := consumed_span p (c :: s)).
  simpl matches. simpl in Hc |- *. destruct (p c) eqn:E; [|reflexivity].
  rewrite map_map, flat_map_map'. simpl.
  rewrite (flat_map_star_rests
             (fun r => map (fun m2 => (orelse (fst m2) (Some (consumed (c :: s) r)), snd m2))
                           (matches r2 r))).
  - destruct (span p s) as [a b]. simpl in *. now rewrite Hc.
  - intros d t Hd. now rewrite (Hr d t Hd).
Qed.

Lemma group_plus_hd (p : ascii -> bool) (s : pystr) :
  match_at (Group (Plus p)) s =
  if is_nil (fst (span p s)) then None
  else Some (Some (fst (span p s)), snd (span p s)).
Proof.
  unfold match_at. simpl matches. fold (matches (Plus p) s).
  rewrite hd_error_map', matches_plus.
  destruct (is_nil (fst (span p s))); [reflexivity|].
  simpl. now rewrite consumed_span.
Qed.

(** ** Character classes *)

Ltac by_chars c :=
  destruct c as [[] [] [] [] [] [] [] []]; try discriminate; try reflexivity.

Lemma digit_not_dot (c : ascii) : is_digit c = true -> Ascii.eqb "." c = false.
Proof. by_chars c. Qed.

Lemma space_not_number (c : ascii) : is_space c = true -> is_digit_or_dot c = false.
Proof. by_chars c. Qed.

Lemma number_not_space (c : ascii) : is_digit_or_dot c = true -> is_space c = false.
Proof. by_chars c. Qed.

Lemma number_not_E (c : ascii) : is_digit_or_dot c = true -> Ascii.eqb "E" c = false.
Proof. by_chars c. Qed.

Lemma space_not_E (c : ascii) : is_space c = true -> Ascii.eqb "E" c = false.
Proof. by_chars c. Qed.

Lemma number_not_m (c : ascii) : is_digit_or_dot c = true -> Ascii.eqb "m" c = false.
Proof. by_chars c. Qed.

Lemma digit_is_number (c : ascii) : is_digit c = true -> is_digit_or_dot c = true.
Proof. unfold is_digit_or_dot. now intros ->. Qed.

(** ** Patterns and their scanners *)

Lemma is_nil_spec {A : Type} (l : list A) : is_nil l = true <-> l = [].
Proof. destruct l; simpl; split; congruence. Qed.

Lemma run_token_whole (p : ascii -> bool) : whole (run_token p).
Proof.
  intros s t rest. unfold run_token.
  pose proof (span_app p s) as Hs.
  destruct (span p s) as [a b]. simpl in Hs.
  destruct a as [|x a]; simpl; [discriminate|].
  intros H; injection H as <- <-. split; [exact Hs | discriminate].
Qed.

Lemma scans_group_plus (p : ascii -> bool) : scans (Group (Plus p)) (run_token p).
Proof.
  intros s. unfold run_token. rewrite group_plus_hd.
  destruct (span p s) as [a b]. simpl.
  destruct (is_nil a); [reflexivity|].
  eexists. split; [reflexivity|]. split; reflexivity.
Qed.

Lemma scans_plus (p : ascii -> bool) : scans (Plus p) (run_token p).
Proof.
  intros s. unfold run_token, match_at. rewrite matches_plus.
  pose proof (consumed_span p s) as Hc.
  destruct (span p s) as [a b]. simpl in *.
  destruct (is_nil a); [reflexivity|].
  eexists. split; [reflexivity|]. split; [|reflexivity].
  unfold item. simpl. exact Hc.
Qed.

Lemma seq_cls (p : ascii -> bool) (r : regex) (s : pystr) :
  matches (Seq (Cls p) r) s =
  match s with
  | c :: s' =>
      if p c then map (fun m2 => (orelse (fst m2) None, snd m2)) (matches r s') else []
  | [] => []
  end.
Proof.
  destruct s as [|c s]; [reflexivity|]. simpl.
  destruct (p c); [|reflexivity]. simpl. apply app_nil_r.
Qed.

Lemma matches_lit (w s : pystr) :
  matches (Lit w) s =
  match strip_prefix w s with
  | Some s' => [(None, s')]
  | None => []
  end.
Proof. reflexivity. Qed.

Lemma rejects_lit (p : ascii -> bool) (a : ascii) (w : pystr) :
  (forall c, p c = true -> Ascii.eqb a c = false) -> rejects p (Lit (a :: w)).
Proof.
  intros H c s Hc. rewrite matches_lit. simpl. now rewrite (H c Hc).
Qed.

Lemma rejects_group_plus (p q : ascii -> bool) (r : regex) :
  (forall c, p c = true -> q c = false) -> rejects p (Seq (Group (Plus q)) r).
Proof.
  intros H c s Hc. simpl. now rewrite (H c Hc).
Qed.

Lemma rejects_star_lit (p q : ascii -> bool) (a : ascii) (w : pystr) :
  (forall c, p c = true -> q c = false) ->
  (forall c, p c = true -> Ascii.eqb a c = false) ->
  rejects p (Seq (Star q) (Lit (a :: w))).
Proof.
  intros Hq Ha c s Hc. simpl. rewrite (Hq c Hc). simpl. now rewrite (Ha c Hc).
Qed.

(** The exposure pattern has at most one way to match at a position. *)
Lemma matches_exposure (s : pystr) :
  matches re_exposure s =
  match exposure_token s with
  | Some (t, rest) => [(Some t, rest)]
  | None => []
  end.
Proof.
  unfold re_exposure, exposure_token. rewrite seq_cls.
  destruct s as [|c s1]; [reflexivity|].
  destruct (is_sign c); [|reflexivity].
  rewrite seq_star
    by (apply rejects_group_plus; exact space_not_number).
  rewrite seq_group_plus
    by (apply rejects_star_lit; [exact number_not_space | exact number_not_E]).
  destruct (span is_digit_or_dot (snd (span is_space s1))) as [t s2]. simpl fst. simpl snd.
  destruct (is_nil t); [reflexivity|].
  rewrite seq_star by (apply rejects_lit; exact space_not_E).
  rewrite matches_lit.
  destruct (strip_prefix (py "EV") (snd (span is_space s2))); reflexivity.
Qed.

Lemma scans_exposure : scans re_exposure exposure_token.
Proof.
  intros s. unfold match_at. rewrite matches_exposure.
  destruct (exposure_token s) as [[t rest]|]; [|reflexivity].
  eexists. split; [reflexivity|]. split; reflexivity.
Qed.

Lemma matches_metres (s : pystr) :
  matches re_metres s =
  match metres_token s with
  | Some (t, rest) => [(Some t, rest)]
  | None => []
  end.
Proof.
  unfold re_metres, metres_token.
  rewrite seq_group_plus by (apply rejects_lit; exact number_not_m).
  destruct (span is_digit_or_dot s) as [t rest]. simpl fst. simpl snd.
  destruct (is_nil t); [reflexivity|].
  rewrite matches_lit. destruct rest as [|c rest]; [reflexivity|].
  change (strip_prefix (py "m") (c :: rest))
    with (if Ascii.eqb "m" c then Some rest else None).
  rewrite Ascii.eqb_sym. destruct (Ascii.eqb c "m"); reflexivity.
Qed.

Lemma scans_metres : scans re_metres metres_token.
Proof.
  intros s. unfold match_at. rewrite matches_metres.
  destruct (metres_token s) as [[t rest]|]; [|reflexivity].
  eexists. split; [reflexivity|]. split; reflexivity.
Qed.

Lemma seq_lit1 (a : ascii) (r : regex) (s : pystr) :
  matches (Seq (Lit [a]) r) s =
  match s with
  | c :: s' =>
      if Ascii.eqb a c
      then map (fun m2 => (orelse (fst m2) None, snd m2)) (matches r s')
      else []
  | [] => []
  end.
Proof.
  destruct s as [|c s]; [reflexivity|].
  cbn -[Ascii.eqb]. destruct (Ascii.eqb a c); cbn; [apply app_nil_r | reflexivity].
Qed.

Lemma matches_plus_nil (p : ascii -> bool) (s : pystr) :
  is_nil (fst (span p s)) = true -> matches (Plus p) s = [].
Proof.
  destruct s as [|c s]; [reflexivity|]. simpl.
  destruct (p c); [|reflexivity]. now destruct (span p s).
Qed.

Lemma matches_plus_cons (p : ascii -> bool) (s : pystr) :
  is_nil (fst (span p s)) = false ->
  exists l, matches (Plus p) s = (None, snd (span p s)) :: l.
Proof.
  intros H. pose proof (matches_plus p s) as Hm. rewrite H in Hm.
  destruct (matches (Plus p) s) as [|m l]; [discriminate|].
  injection Hm as ->. now exists l.
Qed.

Lemma rejects_dot_digits : rejects is_digit (Seq (Lit (py ".")) (Plus is_digit)).
Proof.
  intros c s Hc. change (py ".") with ["."%char].
  rewrite seq_lit1. now rewrite (digit_not_dot c Hc).
Qed.

Lemma dim_token_whole : whole dim_token.
Proof.
  intros s t rest. unfold dim_token.
  pose proof (span_app is_digit s) as Hs.
  destruct (span is_digit s) as [ip r]. simpl in Hs.
  destruct ip as [|x ip]; [discriminate|]. simpl is_nil. cbv iota.
  destruct r as [|c r'].
  - intros H; injection H as <- <-. split; [exact Hs | discriminate].
  - pose proof (span_app is_digit r') as Hr.
    destruct (span is_digit r') as [fp r'']. simpl in Hr.
    destruct (Ascii.eqb c "." && negb (is_nil fp)).
    + intros H; injection H as <- <-. split; [|discriminate].
      rewrite Hs, Hr. simpl. now rewrite <- app_assoc.
    + intros H; injection H as <- <-. split; [exact Hs | discriminate].
Qed.

Lemma scans_dim : scans re_dim dim_token.
Proof.
  intros s.
  pose proof (dim_token_whole s) as Hw.
  unfold match_at, re_dim.
  change (matches (Alt (Seq (Plus is_digit) (Seq (Lit (py ".")) (Plus is_digit)))
                       (Plus is_digit)) s)
    with (matches (Seq (Plus is_digit) (Seq (Lit (py ".")) (Plus is_digit))) s
          ++ matches (Plus is_digit) s).
  rewrite seq_plus by exact rejects_dot_digits.
  unfold dim_token in *.
  destruct (span is_digit s) as [ip r] eqn:Es. simpl fst. simpl snd.
  destruct (is_nil ip) eqn:Eip.
  - rewrite matches_plus_nil; [reflexivity|]. now rewrite Es.
  - assert (HB : exists l, matches (Plus is_digit) s = (None, r) :: l).
    { destruct (matches_plus_cons is_digit s) as [l Hl]; [now rewrite Es|].
      rewrite Es in Hl. now exists l. }
    destruct HB as [lB HB]. rewrite HB.
    change (py ".") with ["."%char]. rewrite seq_lit1.
    destruct r as [|c r'].
    + simpl. eexists. split; [reflexivity|]. split; [|reflexivity].
      destruct (Hw ip [] eq_refl) as [-> _]. unfold item. simpl fst. simpl snd.
      apply consumed_app.
    + destruct (span is_digit r') as [fp r''] eqn:Er.
      rewrite (Ascii.eqb_sym "." c).
      destruct (Ascii.eqb c ".") eqn:Ec; simpl andb.
      * destruct (is_nil fp) eqn:Efp; simpl negb.
        -- rewrite matches_plus_nil by (now rewrite Er). simpl.
           eexists. split; [reflexivity|]. split; [|reflexivity].
           destruct (Hw ip (c :: r') eq_refl) as [-> _].
           unfold item. simpl fst. simpl snd. apply consumed_app.
        -- destruct (matches_plus_cons is_digit r') as [l Hl]; [now rewrite Er|].
           rewrite Hl, Er. simpl.
           eexists. split; [reflexivity|]. split; [|reflexivity].
           destruct (Hw (ip ++ c :: fp) r'' eq_refl) as [-> _].
           unfold item. simpl fst. simpl snd. apply consumed_app.
      * simpl. eexists. split; [reflexivity|]. split; [|reflexivity].
        destruct (Hw ip (c :: r') eq_refl) as [-> _].
        unfold item. simpl fst. simpl snd. apply consumed_app.
Qed.

(** ** search and findall through a scanner *)

Lemma search_first_token (r : regex) (tok : tokenizer) :
  scans r tok -> forall s, re_search r s = first_token tok s.
Proof.
  intros H s. induction s as [|c s IH]; simpl.
  - specialize (H []). destruct (tok []) as [[t rest]|].
    + destruct H as (m & -> & <- & _). reflexivity.
    + now rewrite H.
  - specialize (H (c :: s)). destruct (tok (c :: s)) as [[t rest]|].
    + destruct H as (m & -> & <- & _). reflexivity.
    + now rewrite H.
Qed.

Lemma findall_skip (r : regex) (a b : pystr) :
  findall_from r (a ++ b) (length a) = findall_from r b 0.
Proof.
  induction a as [|x a IH]; [reflexivity|]. exact IH.
Qed.

Lemma findall_lex (r : regex) (tok : tokenizer) :
  scans r tok -> whole tok ->
  forall n s, (length s <= n)%nat -> findall_from r s 0 = lex n tok s.
Proof.
  intros Hs Hw n. induction n as [|n IH]; intros s Hn.
  - destruct s as [|c s]; [|simpl in Hn; lia].
    specialize (Hs []). specialize (Hw []).
    destruct (tok []) as [[t rest]|].
    + destruct (Hw t rest eq_refl) as [E Ht].
      symmetry in E. apply app_eq_nil in E as [-> _]. contradiction.
    + simpl. now rewrite Hs.
  - specialize (Hs s). specialize (Hw s).
    cbn [lex]. destruct (tok s) as [[t rest]|].
    + destruct Hs as (m & Hm & Hi & Hr).
      destruct (Hw t rest eq_refl) as [E Ht].
      destruct t as [|x t]; [contradiction|].
      subst s. cbn [app] in Hm, Hi. cbn [findall_from app]. rewrite Hm, Hi, Hr.
      f_equal.
      change (x :: t ++ rest) with ((x :: t) ++ rest).
      rewrite consumed_app.
      replace (length (x :: t) - 1)%nat with (length t) by (simpl; lia).
      rewrite findall_skip. apply IH.
      cbn [app length] in Hn. rewrite length_app in Hn. lia.
    + destruct s as [|c s]; simpl; rewrite Hs; [reflexivity|].
      apply IH. simpl in Hn. lia.
Qed.

Lemma findall_tokens (r : regex) (tok : tokenizer) :
  scans r tok -> whole tok -> forall s, re_findall r s = tokens tok s.
Proof.
  intros Hs Hw s. unfold re_findall, tokens. now apply findall_lex.
Qed.

(** ** float on the tokens of the scanners *)

Lemma py_float_finite (t : pystr) (x : pyfloat) :
  py_float t = Ok x -> exists q, x = Fin q.
Proof.
  unfold py_float. destruct (span is_digit t) as [ip rest].
  destruct rest as [|c fp].
  - destruct (is_nil ip); [discriminate|]. intros H; injection H as <-. eauto.
  - destruct (_ && _); [|discriminate]. intros H; injection H as <-. eauto.
Qed.

Lemma py_float_digits (d : pystr) :
  forallb is_digit d = true -> d <> [] ->
  py_float d = Ok (Fin (inject_Z (dec d))).
Proof.
  intros Hd Hn. unfold py_float.
  replace d with (d ++ []) at 1 by apply app_nil_r.
  rewrite span_all by (auto; exact I).
  destruct d; [contradiction | reflexivity].
Qed.

Lemma py_float_decimal (ip fp : pystr) :
  forallb is_digit ip = true -> forallb is_digit fp = true ->
  ip <> [] \/ fp <> [] ->
  py_float (ip ++ "."%char :: fp)
  = Ok (Fin (dec (ip ++ fp) # Z.to_pos (10 ^ Z.of_nat (length fp)))).
Proof.
  intros Hi Hf Hn. unfold py_float.
  rewrite span_all by (auto; reflexivity).
  rewrite Hf. simpl.
  destruct ip; destruct fp; try reflexivity.
  destruct Hn; contradiction.
Qed.

Lemma lex_nil (tok : tokenizer) (n : nat) :
  tok [] = None -> lex n tok [] = [].
Proof. intros H. destruct n; simpl; [reflexivity | now rewrite H]. Qed.

Lemma whole_nil (tok : tokenizer) : whole tok -> tok [] = None.
Proof.
  intros Hw. destruct (tok []) as [[t rest]|] eqn:E; [|reflexivity].
  destruct (Hw [] t rest E) as [H Ht].
  symmetry in H. apply app_eq_nil in H as [-> _]. contradiction.
Qed.

Lemma lex_hd (tok : tokenizer) :
  whole tok ->
  forall n s, (length s <= n)%nat -> hd_error (lex n tok s) = first_token tok s.
Proof.
  intros Hw n. induction n as [|n IH]; intros s Hn.
  - destruct s; [|simpl in Hn; lia]. simpl. now rewrite (whole_nil Hw).
  - destruct s as [|c s]; simpl.
    + now rewrite (whole_nil Hw).
    + destruct (tok (c :: s)) as [[t rest]|]; [reflexivity|].
      apply IH. simpl in Hn. lia.
Qed.

Lemma tokens_hd (tok : tokenizer) (s : pystr) :
  whole tok -> hd_error (tokens tok s) = first_token tok s.
Proof. intros Hw. now apply lex_hd. Qed.

Lemma lex_Forall (tok : tokenizer) (P : pystr -> Prop) :
  (forall s t rest, tok s = Some (t, rest) -> P t) ->
  forall n s, Forall P (lex n tok s).
Proof.
  intros H n. induction n as [|n IH]; intros s; simpl; [constructor|].
  destruct (tok s) as [[t rest]|] eqn:E.
  - constructor; [now apply (H s t rest) | apply IH].
  - destruct s; [constructor | apply IH].
Qed.

Lemma first_token_In (tok : tokenizer) (P : pystr -> Prop) :
  (forall s t rest, tok s = Some (t, rest) -> P t) ->
  forall s t, first_token tok s = Some t -> P t.
Proof.
  intros H s. induction s as [|c s IH]; intros t; simpl.
  - destruct (tok []) as [[u rest]|] eqn:E; [|discriminate].
    intros Ht; injection Ht as <-. now apply (H [] u rest).
  - destruct (tok (c :: s)) as [[u rest]|] eqn:E.
    + intros Ht; injection Ht as <-. now apply (H (c :: s) u rest).
    + apply IH.
Qed.

Lemma run_token_run (p : ascii -> bool) (s t rest : pystr) :
  run_token p s = Some (t, rest) -> forallb p t = true /\ t <> [].
Proof.
  unfold run_token. pose proof (span_fst_all p s) as Hp.
  destruct (span p s) as [a b]. simpl in Hp.
  destruct a; simpl; [discriminate|].
  intros H; injection H as <- <-. split; [exact Hp | discriminate].
Qed.

Lemma run_token_all (p : ascii -> bool) (d : pystr) :
  forallb p d = true -> d <> [] -> run_token p d = Some (d, []).
Proof.
  intros Hd Hn. unfold run_token.
  replace d with (d ++ []) at 1 by apply app_nil_r.
  rewrite span_all by (auto; exact I).
  destruct d; [contradiction | reflexivity].
Qed.

Lemma tokens_single (p : ascii -> bool) (d : pystr) :
  forallb p d = true -> d <> [] -> tokens (run_token p) d = [d].
Proof.
  intros Hd Hn. unfold tokens.
  destruct d as [|c d]; [contradiction|].
  cbn [length lex]. rewrite (run_token_all p Hd Hn).
  now rewrite lex_nil.
Qed.

(** ** Python string operations *)

Lemma lstrip_id (s : pystr) :
  match s with c :: _ => is_space c = false | [] => True end -> lstrip s = s.
Proof.
  destruct s as [|c s]; [reflexivity|]. simpl. now intros ->.
Qed.

Lemma strip_no_space (s : pystr) :
  forallb (fun c => negb (is_space c)) s = true -> strip s = s.
Proof.
  intros H. unfold strip.
  assert (H1 : lstrip s = s).
  { apply lstrip_id. destruct s as [|c s]; [exact I|].
    simpl in H. apply andb_true_iff in H as [H _]. now apply negb_true_iff. }
  rewrite H1.
  assert (H2 : lstrip (rev s) = rev s).
  { apply lstrip_id. destruct (rev s) as [|c r] eqn:E; [exact I|].
    rewrite forallb_forall in H.
    apply negb_true_iff, H, in_rev. rewrite E. now left. }
  rewrite H2. apply rev_involutive.
Qed.

Lemma strip_prefix_app (w s : pystr) : strip_prefix w (w ++ s) = Some s.
Proof.
  induction w as [|a w IH]; [reflexivity|]. simpl. now rewrite Ascii.eqb_refl.
Qed.

Lemma strip_prefix_Some (w s r : pystr) : strip_prefix w s = Some r -> s = w ++ r.
Proof.
  revert s. induction w as [|a w IH]; intros s; simpl.
  - now intros H; injection H as ->.
  - destruct s as [|b s]; [discriminate|].
    destruct (Ascii.eqb a b) eqn:E; [|discriminate].
    apply Ascii.eqb_eq in E as ->. intros H. now rewrite (IH s H).
Qed.

Lemma contains_cons (w : pystr) (c : ascii) (s : pystr) :
  contains w s = true -> contains w (c :: s) = true.
Proof.
  intros H. cbn [contains].
  destruct (strip_prefix w (c :: s)); [reflexivity | exact H].
Qed.

Lemma contains_app (w a s : pystr) :
  contains w s = true -> contains w (a ++ s) = true.
Proof.
  intros H. induction a as [|c a IH]; [exact H|].
  simpl app. now apply contains_cons.
Qed.

Lemma contains_prefix (w s : pystr) : contains w (w ++ s) = true.
Proof.
  destruct (w ++ s) eqn:E; simpl; rewrite <- E, strip_prefix_app; reflexivity.
Qed.

Lemma contains_false_cons (w : pystr) (c : ascii) (s : pystr) :
  contains w (c :: s) = false ->
  strip_prefix w (c :: s) = None /\ contains w s = false.
Proof.
  cbn [contains]. destruct (strip_prefix w (c :: s)); [discriminate|]. auto.
Qed.

Lemma split_no_sep (sep : ascii) (b : pystr) :
  ~ In sep b -> split sep b = [b].
Proof.
  induction b as [|c b IH]; intros H; [reflexivity|]. simpl.
  destruct (Ascii.eqb c sep) eqn:E.
  - apply Ascii.eqb_eq in E. subst. exfalso. apply H. now left.
  - rewrite IH; [reflexivity|]. intros Hin. apply H. now right.
Qed.

Lemma split_last (sep : ascii) (a b : pystr) :
  ~ In sep b -> last_part (split sep (a ++ sep :: b)) = b.
Proof.
  intros Hb. unfold last_part.
  assert (H : exists p ps, split sep (a ++ sep :: b) = p :: ps ++ [b]).
  { induction a as [|c a IH]; simpl.
    - rewrite Ascii.eqb_refl, (@split_no_sep sep b Hb). now exists [], [].
    - destruct IH as (p & ps & ->).
      destruct (Ascii.eqb c sep).
      + now exists [], (p :: ps).
      + now exists (c :: p), ps. }
  destruct H as (p & ps & ->).
  change (p :: ps ++ [b]) with ((p :: ps) ++ [b]). apply last_last.
Qed.

Lemma forallb_impl {A : Type} (p q : A -> bool) (l : list A) :
  (forall x, p x = true -> q x = true) -> forallb p l = true -> forallb q l = true.
Proof.
  intros H. induction l as [|x l IH]; simpl; [reflexivity|].
  intros Hl. apply andb_true_iff in Hl as [Hx Hl].
  now rewrite (H x Hx), (IH Hl).
Qed.

Lemma digit_not_space (c : ascii) : is_digit c = true -> negb (is_space c) = true.
Proof. by_chars c. Qed.

Lemma digit_not_comma (c : ascii) : is_digit c = true -> negb (Ascii.eqb c ",") = true.
Proof. by_chars c. Qed.

Lemma remove_char_app (c : ascii) (a b : pystr) :
  remove_char c (a ++ b) = remove_char c a ++ remove_char c b.
Proof. apply filter_app. Qed.

Lemma remove_char_none (c : ascii) (a : pystr) :
  forallb (fun d => negb (Ascii.eqb d c)) a = true -> remove_char c a = a.
Proof.
  induction a as [|x a IH]; simpl; [reflexivity|].
  intros H. apply andb_true_iff in H as [Hx Ha]. now rewrite Hx, (IH Ha).
Qed.

Lemma remove_char_idem (c : ascii) (s : pystr) :
  remove_char c (remove_char c s) = remove_char c s.
Proof.
  unfold remove_char. induction s as [|x s IH]; simpl; [reflexivity|].
  destruct (negb (Ascii.eqb x c)) eqn:E; simpl; [now rewrite E, IH | exact IH].
Qed.

Lemma Qeq_bool_inject_0 (z : Z) : Qeq_bool (inject_Z z) 0 = (z =? 0)%Z.
Proof. destruct z; reflexivity. Qed.

(** ** The exposure scanner *)

Lemma exposure_token_signed (c : ascii) (d : pystr) :
  is_sign c = true -> forallb is_digit d = true -> d <> [] ->
  exposure_token (c :: d ++ py " EV") = Some (d, []).
Proof.
  intros Hc Hd Hn. unfold exposure_token. rewrite Hc.
  assert (Hs : span is_space (d ++ py " EV") = ([], d ++ py " EV")).
  { destruct d as [|x d]; [contradiction|]. simpl in Hd.
    apply andb_true_iff in Hd as [Hx _].
    apply span_false. now apply negb_true_iff, digit_not_space. }
  rewrite Hs. simpl snd.
  rewrite span_all;
    [| eapply forallb_impl; [exact digit_is_number | exact Hd] | reflexivity].
  destruct d; [contradiction | reflexivity].
Qed.

Lemma exposure_token_EV (s t rest : pystr) :
  exposure_token s = Some (t, rest) -> contains (py "EV") s = true.
Proof.
  unfold exposure_token. destruct s as [|c s1]; [discriminate|].
  destruct (is_sign c); [|discriminate].
  pose proof (span_app is_space s1) as H1.
  pose proof (span_app is_digit_or_dot (snd (span is_space s1))) as H2.
  destruct (span is_digit_or_dot (snd (span is_space s1))) as [u s2]. simpl in H2.
  destruct (is_nil u); [discriminate|].
  pose proof (span_app is_space s2) as H3.
  destruct (strip_prefix (py "EV") (snd (span is_space s2))) as [r|] eqn:E; [|discriminate].
  intros _. apply strip_prefix_Some in E.
  apply contains_cons. rewrite H1. apply contains_app.
  rewrite H2. apply contains_app. rewrite H3. apply contains_app.
  rewrite E. apply contains_prefix.
Qed.

Lemma first_token_exposure_EV (s : pystr) :
  contains (py "EV") s = false -> first_token exposure_token s = None.
Proof.
  induction s as [|c s IH]; intros H.
  - reflexivity.
  - cbn [first_token].
    destruct (exposure_token (c :: s)) as [[t rest]|] eqn:E.
    + apply exposure_token_EV in E. congruence.
    + apply IH. now apply contains_false_cons in H.
Qed.

Lemma clean_exposure_range_scan (s : pystr) :
  clean_exposure_range (Str s) =
  match first_token exposure_token s with
  | Some t => py_float t
  | None => Ok NaN
  end.
Proof.
  unfold clean_exposure_range. now rewrite (search_first_token scans_exposure).
Qed.

Lemma clean_exposure_range_signed (c : ascii) (d : pystr) :
  is_sign c = true -> forallb is_digit d = true -> d <> [] ->
  clean_exposure_range (Str (c :: d ++ py " EV")) = Ok (Fin (inject_Z (dec d))).
Proof.
  intros Hc Hd Hn. rewrite clean_exposure_range_scan.
  cbn [first_token app]. rewrite exposure_token_signed by assumption.
  now apply py_float_digits.
Qed.

(** ** Exposure compensation *)

(** C7, as the code has it: [clean_exposure_range] maps the text for
    plus-minus 5 EV to 5.0 and [5 stops] to the missing value; for every
    text it returns the number read from the first place, from the left,
    where ONE sign character (the plus-minus sign, a plus or a minus),
    optional white space, a run of digits and dots, optional white space
    and the letters [EV] stand in a row, and the missing value when there
    is no such place.  [EV] is matched with its case: a text without an
    upper-case [EV] gives the missing value.  (What happens when the run of
    digits and dots is not a number is left out.) *)
Theorem clean_exposure_range_sign_number_EV :
  clean_exposure_range (Str (plus_minus :: py "5 EV")) = Ok (Fin 5)
  /\ clean_exposure_range (Str (py "5 stops")) = Ok NaN
  /\ clean_exposure_range (Str (plus_minus :: py "5 ev")) = Ok NaN
  /\ (forall s,
        match first_token exposure_token s with
        | Some t => forall x, py_float t = Ok x -> clean_exposure_range (Str s) = Ok x
        | None => clean_exposure_range (Str s) = Ok NaN
        end)
  /\ (forall s, contains (py "EV") s = false -> clean_exposure_range (Str s) = Ok NaN)
  /\ (forall c d, is_sign c = true -> forallb is_digit d = true -> d <> [] ->
        clean_exposure_range (Str (c :: d ++ py " EV")) = Ok (Fin (inject_Z (dec d)))).
Proof.
  split; [reflexivity|]. split; [reflexivity|]. split; [reflexivity|].
  split; [|split].
  - intros s. rewrite clean_exposure_range_scan.
    destruct (first_token exposure_token s); [intros x Hx; exact Hx | reflexivity].
  - intros s H. rewrite clean_exposure_range_scan.
    now rewrite first_token_exposure_EV.
  - intros c d. apply clean_exposure_range_signed.
Qed.

Lemma clean_exposure_range_sign_number_EV_witness :
  clean_exposure_range (Str (py "+/-2 EV")) = Ok (Fin 2)
  /\ clean_exposure_range (Str (py "+5 ev")) = Ok NaN
  /\ clean_exposure_range (Str (py "+12 EV")) = Ok (Fin 12).
Proof.
  destruct clean_exposure_range_sign_number_EV as (_ & _ & _ & H1 & H2 & H3).
  split; [|split].
  - exact (H1 (py "+/-2 EV") (Fin 2) eq_refl).
  - exact (H2 (py "+5 ev") eq_refl).
  - exact (H3 "+"%char (py "12") eq_refl eq_refl ltac:(discriminate)).
Defined.

(** The claim C7 as the spec words it fails: a text with neither the
    plus-minus sign nor [+/-] can still give a number. *)
Lemma clean_exposure_range_bare_minus :
  ~ (forall s,
       contains [plus_minus] s = false -> contains (py "+/-") s = false ->
       clean_exposure_range (Str s) = Ok NaN).
Proof.
  intros H. specialize (H (py "-3 EV") eq_refl eq_refl). discriminate H.
Qed.

(** C10: [clean_exposure_range] accepts a bare plus or minus as the sign:
    [-3 EV] and the range [0-3 EV], which hold neither the plus-minus sign
    nor [+/-], give 3.0 and not the missing value; and so does every text
    made of a plus or a minus, digits, a blank and [EV]. *)
Theorem clean_exposure_range_accepts_bare_sign :
  clean_exposure_range (Str (py "-3 EV")) = Ok (Fin 3)
  /\ clean_exposure_range (Str (py "0-3 EV")) = Ok (Fin 3)
  /\ contains [plus_minus] (py "-3 EV") = false
  /\ contains (py "+/-") (py "-3 EV") = false
  /\ contains [plus_minus] (py "0-3 EV") = false
  /\ contains (py "+/-") (py "0-3 EV") = false
  /\ (forall c d, c = "+"%char \/ c = "-"%char ->
        forallb is_digit d = true -> d <> [] ->
        clean_exposure_range (Str (c :: d ++ py " EV")) = Ok (Fin (inject_Z (dec d)))).
Proof.
  repeat (split; [reflexivity|]).
  intros c d [-> | ->]; now apply clean_exposure_range_signed.
Qed.

Lemma clean_exposure_range_accepts_bare_sign_witness :
  clean_exposure_range (Str (py "-7 EV")) = Ok (Fin 7).
Proof.
  destruct clean_exposure_range_accepts_bare_sign as (_ & _ & _ & _ & _ & _ & H).
  exact (H "-"%char (py "7") (or_intror eq_refl) eq_refl ltac:(discriminate)).
Defined.

(** ** Values of tokens *)

Lemma dec_acc (s : pystr) (acc : Z) :
  fold_left (fun a c => 10 * a + digit_val c)%Z s acc
  = (acc * 10 ^ Z.of_nat (length s) + dec s)%Z.
Proof.
  unfold dec. revert acc. induction s as [|c s IH]; intros acc.
  - simpl. lia.
  - cbn [fold_left length]. rewrite IH, (IH (10 * 0 + digit_val c)%Z).
    rewrite Nat2Z.inj_succ, Z.pow_succ_r by lia. ring.
Qed.

Lemma dec_app (a b : pystr) :
  dec (a ++ b) = (dec a * 10 ^ Z.of_nat (length b) + dec b)%Z.
Proof.
  unfold dec at 1. rewrite fold_left_app. apply dec_acc.
Qed.

Lemma pow10_pos (n : nat) : (0 < 10 ^ Z.of_nat n)%Z.
Proof. apply Z.pow_pos_nonneg; lia. Qed.

Lemma decimal_value (ip fp : pystr) :
  dec (ip ++ fp) # Z.to_pos (10 ^ Z.of_nat (length fp))
  == inject_Z (dec ip) + (dec fp # Z.to_pos (10 ^ Z.of_nat (length fp))).
Proof.
  rewrite dec_app. unfold Qeq, Qplus, inject_Z. cbn [Qnum Qden].
  rewrite Pos2Z.inj_mul, Z2Pos.id by apply pow10_pos. ring.
Qed.

Lemma dim_token_value (s t rest : pystr) :
  dim_token s = Some (t, rest) ->
  exists q, py_float t = Ok (Fin q) /\ q == token_value t.
Proof.
  unfold dim_token.
  pose proof (span_fst_all is_digit s) as Hip.
  pose proof (span_snd_head is_digit s) as Hr.
  destruct (span is_digit s) as [ip r]. simpl in Hip, Hr.
  destruct (is_nil ip) eqn:Eip; [discriminate|].
  assert (Hn : ip <> []) by (intros ->; discriminate).
  assert (Hint : exists q, py_float ip = Ok (Fin q) /\ q == token_value ip).
  { exists (inject_Z (dec ip)). split; [now apply py_float_digits|].
    unfold token_value. replace ip with (ip ++ []) at 2 by apply app_nil_r.
    rewrite span_all by (auto; exact I). ring. }
  destruct r as [|c r'].
  - intros H; injection H as <- <-. exact Hint.
  - pose proof (span_fst_all is_digit r') as Hfp.
    destruct (span is_digit r') as [fp r'']. simpl in Hfp.
    destruct (Ascii.eqb c ".") eqn:Ec; simpl andb.
    + apply Ascii.eqb_eq in Ec. subst c.
      destruct (is_nil fp) eqn:Efp; simpl negb.
      * intros H; injection H as <- <-. exact Hint.
      * intros H; injection H as <- <-.
        eexists. split; [apply py_float_decimal; auto|].
        unfold token_value. rewrite span_all by (auto; reflexivity).
        apply decimal_value.
    + intros H; injection H as <- <-. exact Hint.
Qed.

Lemma apply_Forall {A B : Type} (f : A -> result B) (R : A -> B -> Prop) (l : list A) :
  Forall (fun t => exists y, f t = Ok y /\ R t y) l ->
  exists ys, apply f l = Ok ys /\ Forall2 R l ys.
Proof.
  induction 1 as [|t l (y & Hy & HR) _ (ys & Hys & HF)].
  - exists []. split; [reflexivity | constructor].
  - exists (y :: ys). simpl. rewrite Hy. simpl. rewrite Hys. simpl.
    split; [reflexivity | now constructor].
Qed.

(** ** Dimensions *)

Lemma clean_dimensions_scan (s : pystr) :
  match tokens dim_token s with
  | t1 :: t2 :: t3 :: _ =>
      exists q1 q2 q3,
        clean_dimensions (Str s) = Ok (Fin q1, Fin q2, Fin q3)
        /\ q1 == token_value t1 /\ q2 == token_value t2 /\ q3 == token_value t3
  | _ => clean_dimensions (Str s) = Ok (NaN, NaN, NaN)
  end.
Proof.
  unfold clean_dimensions.
  rewrite (findall_tokens scans_dim dim_token_whole).
  assert (HF : Forall (fun t => exists y, py_float t = Ok y
                                  /\ exists q, y = Fin q /\ q == token_value t)
                      (tokens dim_token s)).
  { apply lex_Forall. intros u t rest E.
    destruct (dim_token_value _ E) as (q & Hq & Hv). eauto. }
  apply apply_Forall in HF as (ys & -> & HF). cbn [bind].
  destruct HF as [|t1 y1 l1 ys1 (q1 & -> & H1) HF]; [reflexivity|].
  destruct HF as [|t2 y2 l2 ys2 (q2 & -> & H2) HF]; [reflexivity|].
  destruct HF as [|t3 y3 l3 ys3 (q3 & -> & H3) HF]; [reflexivity|].
  exists q1, q2, q3. auto.
Qed.

(** C8: [clean_dimensions] maps [120 x 80 x 45 mm] to (120.0, 80.0, 45.0);
    for every text with at least three decimal-or-integer tokens it returns
    the values of the first three, as length, width and height, and for
    every text with fewer (such as [120 x 80]) the all-missing triple. *)
Theorem clean_dimensions_first_three_tokens :
  clean_dimensions (Str (py "120 x 80 x 45 mm")) = Ok (Fin 120, Fin 80, Fin 45)
  /\ clean_dimensions (Str (py "120 x 80")) = Ok (NaN, NaN, NaN)
  /\ forall s,
       match tokens dim_token s with
       | t1 :: t2 :: t3 :: _ =>
           exists q1 q2 q3,
             clean_dimensions (Str s) = Ok (Fin q1, Fin q2, Fin q3)
             /\ q1 == token_value t1 /\ q2 == token_value t2 /\ q3 == token_value t3
       | _ => clean_dimensions (Str s) = Ok (NaN, NaN, NaN)
       end.
Proof.
  split; [reflexivity|]. split; [reflexivity|]. exact clean_dimensions_scan.
Qed.

(** ** Maximum ISO *)

Lemma last_In {A : Type} (l : list A) (d : A) : l <> [] -> In (last l d) l.
Proof.
  induction l as [|x l IH]; [contradiction|]. intros _.
  destruct l as [|y l]; [now left|]. right. apply IH. discriminate.
Qed.

Lemma clean_max_iso_scan (s : pystr) :
  clean_max_iso (Str s) =
  let numbers := tokens (run_token is_digit) (strip (remove_char "," s)) in
  if is_nil numbers then Ok NaN else Ok (Fin (inject_Z (dec (last numbers [])))).
Proof.
  unfold clean_max_iso, re_int.
  rewrite (findall_tokens (scans_group_plus is_digit) (run_token_whole is_digit)).
  cbv zeta. destruct (tokens _ _) as [|d l] eqn:E; [reflexivity|]. cbn [is_nil].
  assert (HF : Forall (fun t => forallb is_digit t = true /\ t <> []) (d :: l)).
  { rewrite <- E. apply lex_Forall. intros u t rest. apply run_token_run. }
  rewrite Forall_forall in HF.
  destruct (HF (last (d :: l) [])) as [Hd Hn]; [apply last_In; discriminate|].
  now apply py_float_digits.
Qed.

(** C9: [clean_max_iso] drops the commas before it looks for runs of
    digits, so [100-12,800] gives 12800.0, the whole last number, and not
    800.0; commas never change the result, and a number written with one
    separator is read as one number. *)
Theorem clean_max_iso_ignores_commas :
  clean_max_iso (Str (py "100-12,800")) = Ok (Fin 12800)
  /\ clean_max_iso (Str (py "100-12,800")) <> Ok (Fin 800)
  /\ (forall s, clean_max_iso (Str s) = clean_max_iso (Str (remove_char "," s)))
  /\ (forall a b, forallb is_digit a = true -> forallb is_digit b = true -> a <> [] ->
        clean_max_iso (Str (a ++ ","%char :: b)) = Ok (Fin (inject_Z (dec (a ++ b))))).
Proof.
  split; [reflexivity|]. split; [discriminate|]. split.
  - intros s. unfold clean_max_iso. now rewrite remove_char_idem.
  - intros a b Ha Hb Hn. rewrite clean_max_iso_scan.
    assert (Hab : forallb is_digit (a ++ b) = true).
    { rewrite forallb_app. now rewrite Ha, Hb. }
    assert (Hr : remove_char "," (a ++ ","%char :: b) = a ++ b).
    { rewrite remove_char_app. cbn [remove_char filter]. cbn -[remove_char].
      change (filter (fun d => negb (Ascii.eqb d ",")) b) with (remove_char "," b).
      rewrite !remove_char_none; [reflexivity | |];
        eapply forallb_impl; try eassumption; exact digit_not_comma. }
    rewrite Hr.
    rewrite strip_no_space
      by (eapply forallb_impl; [exact digit_not_space | exact Hab]).
    rewrite tokens_single; [reflexivity | exact Hab |].
    destruct a; [contradiction | discriminate].
Qed.

Lemma clean_max_iso_ignores_commas_witness :
  clean_max_iso (Str (py "12,800")) = Ok (Fin 12800).
Proof.
  destruct clean_max_iso_ignores_commas as (_ & _ & _ & H).
  exact (H (py "12") (py "800") eq_refl eq_refl ltac:(discriminate)).
Defined.

(** ** Shutter speed *)

Lemma clean_shutter_speed_fraction (s a b : pystr) :
  strip (lower s) = a ++ "/"%char :: b -> ~ In "/"%char b ->
  contains (py "sec") (strip (lower s)) = true ->
  clean_shutter_speed (Str s) =
  match first_token (run_token is_digit) b with
  | Some d => if (dec d =? 0)%Z then Ok NaN else Ok (Fin (/ inject_Z (dec d)))
  | None => Ok NaN
  end.
Proof.
  intros Hs Hb Hsec. unfold clean_shutter_speed. rewrite Hsec, Hs.
  assert (Hc : contains (py "/") (a ++ "/"%char :: b) = true).
  { apply contains_app. apply (contains_prefix (py "/") b). }
  rewrite Hc. cbn [andb]. rewrite split_last by exact Hb.
  unfold re_int.
  rewrite (findall_tokens (scans_group_plus is_digit) (run_token_whole is_digit)).
  rewrite <- (tokens_hd b (run_token_whole is_digit)).
  assert (HF : Forall (fun t => forallb is_digit t = true /\ t <> [])
                      (tokens (run_token is_digit) b)).
  { apply lex_Forall. intros u t rest. apply run_token_run. }
  destruct (tokens (run_token is_digit) b) as [|d l]; [reflexivity|].
  apply Forall_inv in HF as [Hd Hn]. cbn [hd_error].
  rewrite py_float_digits by assumption. cbn [bind py_div1].
  rewrite Qeq_bool_inject_0. destruct (dec d =? 0)%Z; reflexivity.
Qed.

Lemma clean_shutter_speed_seconds (s : pystr) :
  contains (py "/") (strip (lower s)) && contains (py "sec") (strip (lower s)) = false ->
  clean_shutter_speed (Str s) =
  match first_token (run_token is_digit_or_dot) (strip (lower s)) with
  | Some t => py_float t
  | None => Ok NaN
  end.
Proof.
  intros H. unfold clean_shutter_speed. rewrite H. unfold re_number.
  now rewrite (search_first_token (scans_group_plus is_digit_or_dot)).
Qed.

(** C5, as the code has it: [clean_shutter_speed] maps [1/4000 sec] to
    0.00025, [30 sec] to 30.0 and [1/sec] to the missing value.  The text is
    lower-cased and trimmed first.  When it then contains both a slash and
    [sec], the result is the reciprocal of the first run of digits after
    the LAST slash, and the missing value when there is no such run or the
    run is zero.  Otherwise the result is the value of the first run of
    digits and dots when that run is a number, and the missing value when
    the text has no digit and no dot.  (A first run that is not a number is
    left out.) *)
Theorem clean_shutter_speed_lowercased :
  clean_shutter_speed (Str (py "1/4000 sec")) = Ok (Fin (1 # 4000))
  /\ 1 # 4000 == 0.00025
  /\ clean_shutter_speed (Str (py "30 sec")) = Ok (Fin 30)
  /\ clean_shutter_speed (Str (py "1/sec")) = Ok NaN
  /\ (forall s a b,
        strip (lower s) = a ++ "/"%char :: b -> ~ In "/"%char b ->
        contains (py "sec") (strip (lower s)) = true ->
        clean_shutter_speed (Str s) =
        match first_token (run_token is_digit) b with
        | Some d => if (dec d =? 0)%Z then Ok NaN else Ok (Fin (/ inject_Z (dec d)))
        | None => Ok NaN
        end)
  /\ (forall s,
        contains (py "/") (strip (lower s)) && contains (py "sec") (strip (lower s)) = false ->
        match first_token (run_token is_digit_or_dot) (strip (lower s)) with
        | Some t => forall x, py_float t = Ok x -> clean_shutter_speed (Str s) = Ok x
        | None => clean_shutter_speed (Str s) = Ok NaN
        end).
Proof.
  split; [reflexivity|]. split; [reflexivity|].
  split; [reflexivity|]. split; [reflexivity|]. split.
  - exact clean_shutter_speed_fraction.
  - intros s H. rewrite (clean_shutter_speed_seconds s H).
    destruct (first_token _ _); [intros x Hx; exact Hx | reflexivity].
Qed.

Lemma clean_shutter_speed_lowercased_witness :
  clean_shutter_speed (Str (py " 1/250 Sec ")) = Ok (Fin (/ 250))
  /\ clean_shutter_speed (Str (py "15 s")) = Ok (Fin 15).
Proof.
  destruct clean_shutter_speed_lowercased as (_ & _ & _ & _ & H1 & H2).
  split.
  - refine (H1 (py " 1/250 Sec ") (py "1") (py "250 sec") eq_refl _ eq_refl).
    simpl. intros H. repeat (destruct H as [H | H]; [discriminate H|]). exact H.
  - exact (H2 (py "15 s") eq_refl (Fin 15) eq_refl).
Defined.

(** The claim C5 as the spec words it fails: a text without a lower-case
    [sec] is still read as a fraction, not as whole seconds. *)
Lemma clean_shutter_speed_upper_case_SEC :
  ~ (forall s,
       contains (py "/") s && contains (py "sec") s = false ->
       clean_shutter_speed (Str s) =
       match first_token (run_token is_digit_or_dot) s with
       | Some t => py_float t
       | None => Ok NaN
       end).
Proof.
  intros H. specialize (H (py "1/4000 SEC") eq_refl). discriminate H.
Qed.

(** ** Totality *)

Lemma clean_max_iso_total (x : raw) : exists v, clean_max_iso x = Ok v.
Proof.
  destruct x as [|s]; [now exists NaN|]. rewrite clean_max_iso_scan.
  cbv zeta. destruct (is_nil _); eauto.
Qed.

Lemma clean_screen_res_total (x : raw) : exists v, clean_screen_res x = Ok v.
Proof.
  destruct x as [|s]; [now exists NaN|]. unfold clean_screen_res, re_int.
  rewrite (findall_tokens (scans_group_plus is_digit) (run_token_whole is_digit)).
  assert (HF : Forall (fun t => forallb is_digit t = true /\ t <> [])
                      (tokens (run_token is_digit) (lower (remove_char "," s)))).
  { apply lex_Forall. intros u t rest. apply run_token_run. }
  destruct (tokens _ _) as [|d l]; [now exists NaN|].
  apply Forall_inv in HF as [Hd Hn]. rewrite py_float_digits by assumption. eauto.
Qed.

Lemma clean_dimensions_total (x : raw) : exists v, clean_dimensions x = Ok v.
Proof.
  destruct x as [|s]; [now exists (NaN, NaN, NaN)|].
  pose proof (clean_dimensions_scan s) as H.
  destruct (tokens dim_token s) as [|t1 [|t2 [|t3 l]]]; eauto.
  destruct H as (q1 & q2 & q3 & -> & _). eauto.
Qed.

Lemma clean_screen_size_total (to_numeric : pystr -> pyfloat) (x : raw) :
  exists v, clean_screen_size to_numeric x = Ok v.
Proof. destruct x; simpl; eauto. Qed.

(** C2 fails on the code: five of the nine normalizers pass a run of
    digits and dots to [float] outside any [try], and a run that is not a
    number (a lone dot, two dots) raises [ValueError]. *)
Theorem normalizers_raise_on_stray_dot :
  clean_weight (Str (py "approx. 123 g")) = Raise ValueError
  /\ clean_aperture_f (Str (py "approx. F2.8")) = Raise ValueError
  /\ clean_shutter_speed (Str (py "approx. 30 s")) = Raise ValueError
  /\ clean_exposure_range (Str (plus_minus :: py "1..5 EV")) = Raise ValueError
  /\ clean_focus_range (Str (py "approx. 50cm")) = Raise ValueError.
Proof. repeat split. Qed.

(** ** Column order *)

Lemma index_app (name : label) (pre l : list label) :
  ~ In name pre ->
  index name (pre ++ l) = (i <- index name l ;; Ok (length pre + i)%nat).
Proof.
  induction pre as [|c pre IH]; intros H; simpl.
  - now destruct (index name l).
  - destruct (String.eqb c name) eqn:E.
    + apply String.eqb_eq in E. exfalso. apply H. now left.
    + rewrite IH by (intros Hin; apply H; now right).
      now destruct (index name l).
Qed.

Lemma index_head (name : label) (l : list label) : index name (name :: l) = Ok O.
Proof. simpl. now rewrite String.eqb_refl. Qed.

Lemma list_remove_app (name : label) (pre l : list label) :
  ~ In name pre -> list_remove name (pre ++ l) = pre ++ list_remove name l.
Proof.
  induction pre as [|c pre IH]; intros H; simpl; [reflexivity|].
  destruct (String.eqb c name) eqn:E.
  - apply String.eqb_eq in E. exfalso. apply H. now left.
  - now rewrite IH by (intros Hin; apply H; now right).
Qed.

Lemma list_remove_head (name : label) (l : list label) :
  list_remove name (name :: l) = l.
Proof. simpl. now rewrite String.eqb_refl. Qed.

Lemma list_insert_app (i : nat) (name : label) (pre l : list label) :
  list_insert (length pre + i) name (pre ++ l) = pre ++ list_insert i name l.
Proof.
  induction pre as [|c pre IH]; simpl; [reflexivity|]. now rewrite IH.
Qed.

Lemma has_app (name : label) (a b : list label) :
  has name (a ++ b) = has name a || has name b.
Proof. apply existsb_app. Qed.

Lemma has_In (name : label) (l : list label) : has name l = true <-> In name l.
Proof.
  unfold has. rewrite existsb_exists. split.
  - intros (x & Hx & E). apply String.eqb_eq in E. now subst.
  - intros H. exists name. split; [exact H | apply String.eqb_refl].
Qed.

(** When the derived column stands after its source, the last step moves
    it right behind the source. *)
Lemma reorder_after (pre mid post : list label) :
  ~ In "Max aperture" pre -> ~ In "Min_Aperture_F" pre -> ~ In "Min_Aperture_F" mid ->
  reorder (pre ++ "Max aperture" :: mid ++ "Min_Aperture_F" :: post)
  = Ok (pre ++ "Max aperture" :: "Min_Aperture_F" :: mid ++ post).
Proof.
  intros H1 H2 H3. unfold reorder.
  rewrite index_app, index_head by exact H1. cbn [bind].
  assert (Hh : has "Min_Aperture_F"
                 (pre ++ "Max aperture" :: mid ++ "Min_Aperture_F" :: post) = true).
  { apply has_In. apply in_or_app. right. right. apply in_or_app. right. now left. }
  rewrite Hh.
  rewrite list_remove_app by exact H2.
  change (list_remove "Min_Aperture_F" ("Max aperture" :: mid ++ "Min_Aperture_F" :: post))
    with ("Max aperture" :: list_remove "Min_Aperture_F" (mid ++ "Min_Aperture_F" :: post)).
  rewrite list_remove_app, list_remove_head by exact H3.
  rewrite <- Nat.add_assoc, list_insert_app. reflexivity.
Qed.

(** When it stands before its source, the index taken before the removal
    is one too far: the column lands two places behind the source. *)
Lemma reorder_before (pre mid post : list label) (c : label) :
  ~ In "Max aperture" pre -> ~ In "Min_Aperture_F" pre -> ~ In "Max aperture" mid ->
  reorder (pre ++ "Min_Aperture_F" :: mid ++ "Max aperture" :: c :: post)
  = Ok (pre ++ mid ++ "Max aperture" :: c :: "Min_Aperture_F" :: post).
Proof.
  intros H1 H2 H3. unfold reorder.
  rewrite index_app by exact H1.
  change (index "Max aperture" ("Min_Aperture_F" :: mid ++ "Max aperture" :: c :: post))
    with (i <- index "Max aperture" (mid ++ "Max aperture" :: c :: post) ;; Ok (S i)).
  rewrite index_app, index_head by exact H3. cbn [bind].
  assert (Hh : has "Min_Aperture_F"
                 (pre ++ "Min_Aperture_F" :: mid ++ "Max aperture" :: c :: post) = true).
  { apply has_In. apply in_or_app. right. now left. }
  rewrite Hh.
  rewrite list_remove_app, list_remove_head by exact H2.
  rewrite <- Nat.add_assoc, list_insert_app. f_equal. f_equal.
  replace (S (length mid + 0) + 1)%nat with (length mid + 2)%nat by lia.
  rewrite list_insert_app. reflexivity.
Qed.

(** C6 fails on the code when the input already has a column named
    [Min_Aperture_F] before [Max aperture]: the rows are kept, but the
    column ends two places behind its source, with [Dimensions] between. *)
Theorem reorder_misplaces_existing_column (to_numeric : pystr -> pyfloat) :
  match clean_and_derive_features to_numeric reprocessed with
  | Ok out =>
      length (Video_Score out) = length (rows reprocessed)
      /\ out_columns out =
         [ "Name"; "Weight_g"; "Max_ISO"; "Min_Shutter_Speed_Sec";
           "Max_Shutter_Speed_Sec"; "Max_Exposure_Comp"; "Screen_Res_Dots";
           "Screen_Size_in"; "Normal_Focus_cm"; "Macro_Focus_cm"; "Max aperture";
           "Dimensions"; "Min_Aperture_F"; "Max. video resolution";
           "Total megapixels"; "Effective megapixels"; "Megapixels"; "Crop factor";
           "Dim_L"; "Dim_W"; "Dim_H"; "Supports_4K"; "Portability_Score";
           "Aperture_Value"; "LowLight_Score"; "Video_Score" ]
  | Raise _ => False
  end.
Proof. vm_compute. split; reflexivity. Qed.

(** ** Counting *)

Lemma Qnat_le (a b : nat) : (a <= b)%nat -> Qnat a <= Qnat b.
Proof. intros H. unfold Qnat. rewrite <- Zle_Qle. lia. Qed.

Lemma Qnat_lt (a b : nat) : (a < b)%nat -> Qnat a < Qnat b.
Proof. intros H. unfold Qnat. rewrite <- Zlt_Qlt. lia. Qed.

Lemma Qnat_plus (a b : nat) : Qnat (a + b) == Qnat a + Qnat b.
Proof. unfold Qnat. now rewrite Nat2Z.inj_add, inject_Z_plus. Qed.

Lemma count_le (p : pyfloat -> bool) (col : list pyfloat) :
  (count p col <= length col)%nat.
Proof. apply filter_length_le. Qed.

Lemma count_In (p : pyfloat -> bool) (col : list pyfloat) (x : pyfloat) :
  In x col -> p x = true -> (1 <= count p col)%nat.
Proof.
  intros Hin Hp. unfold count.
  assert (H : In x (filter p col)) by (apply filter_In; auto).
  destruct (filter p col); [contradiction | simpl; lia].
Qed.

Lemma count3 (p q r : pyfloat -> bool) (col : list pyfloat) :
  (forall z, p z = true -> q z = false) ->
  (forall z, p z = true -> r z = false) ->
  (forall z, q z = true -> r z = false) ->
  (count p col + count q col + count r col <= length col)%nat.
Proof.
  intros Hpq Hpr Hqr. unfold count.
  induction col as [|z col IH]; simpl; [lia|].
  destruct (p z) eqn:Ep.
  - rewrite (Hpq z Ep), (Hpr z Ep). simpl. lia.
  - destruct (q z) eqn:Eq.
    + rewrite (Hqr z Eq). simpl. lia.
    + destruct (r z); simpl; lia.
Qed.

Lemma count_perm (p : pyfloat -> bool) (a b : list pyfloat) :
  Permutation a b -> count p a = count p b.
Proof.
  intros H. unfold count. induction H; simpl.
  - reflexivity.
  - destruct (p x); simpl; now rewrite IHPermutation.
  - destruct (p x), (p y); reflexivity.
  - congruence.
Qed.

(** ** Order on floats *)

Lemma feqb_refl (x : pyfloat) : isnan x = false -> feqb x x = true.
Proof.
  destruct x; simpl; try reflexivity; try discriminate.
  intros _. apply Qeq_bool_iff. reflexivity.
Qed.

Lemma fltb_not_eq (x y : pyfloat) : fltb x y = true -> feqb x y = false /\ feqb y x = false.
Proof.
  destruct x as [a| | |], y as [b| | |]; simpl; try discriminate; auto.
  intros H. apply negb_true_iff in H.
  split; apply not_true_is_false; intros E; apply Qeq_bool_iff in E;
    apply not_true_iff_false in H; apply H; apply Qle_bool_iff; rewrite E; apply Qle_refl.
Qed.

Lemma precedes_not_eq (asc : bool) (x z : pyfloat) :
  precedes asc x z = true -> feqb x z = false.
Proof.
  unfold precedes. destruct asc; intros H; now apply fltb_not_eq in H.
Qed.

Lemma fltb_not_nan (x y : pyfloat) : fltb x y = true -> isnan x = false /\ isnan y = false.
Proof. destruct x, y; simpl; try discriminate; auto. Qed.

Lemma precedes_not_nan (asc : bool) (x z : pyfloat) :
  precedes asc x z = true -> isnan z = false.
Proof.
  unfold precedes. destruct asc; intros H; now apply fltb_not_nan in H.
Qed.

Lemma feqb_not_nan (x z : pyfloat) : feqb x z = true -> isnan z = false.
Proof. destruct x, z; simpl; try discriminate; auto. Qed.

(** ** Ranks of missing cells *)


Lemma length_minus_missing (col : list pyfloat) :
  Qnat (length col - count isnan col) == Qnat (length col) - Qnat (count isnan col).
Proof.
  pose proof (count_le isnan col) as H.
  replace (length col) with ((length col - count isnan col) + count isnan col)%nat at 2 by lia.
  rewrite Qnat_plus. ring.
Qed.



Lemma nth_error_rank (asc : bool) (na : na_option) (col : list pyfloat) (i : nat) (x : pyfloat) :
  nth_error col i = Some x ->
  nth_error (rank asc na col) i
  = Some (Fin (avg_rank asc na col x / Qnat (length col))).
Proof.
  intros H. unfold rank. rewrite nth_error_map, H. reflexivity.
Qed.

Lemma Qdiv_lt (a b n : Q) : 0 < n -> a < b -> a / n < b / n.
Proof.
  intros Hn Hab. unfold Qdiv. apply Qmult_lt_compat_r; [|exact Hab].
  now apply Qinv_lt_0_compat.
Qed.

Lemma length_pos_In {A : Type} (x : A) (l : list A) : In x l -> 0 < Qnat (length l).
Proof.
  intros H. apply (@Qnat_lt 0). destruct l; [contradiction | simpl; lia].
Qed.

(** ** Series arithmetic keeps numbers *)

Lemma rank_finite (asc : bool) (na : na_option) (col : list pyfloat) :
  Forall finite (rank asc na col).
Proof.
  unfold rank. apply Forall_forall. intros x Hx.
  apply in_map_iff in Hx as (y & <- & _). now eexists.
Qed.

Lemma smul_finite (col : list pyfloat) (k : Q) :
  Forall finite col -> Forall finite (smul col k).
Proof.
  intros H. unfold smul. induction H as [|x l (q & ->) _ IH]; simpl; constructor.
  - now eexists.
  - exact IH.
Qed.

Lemma sadd_finite (a b : list pyfloat) :
  Forall finite a -> Forall finite b -> Forall finite (sadd a b).
Proof.
  intros Ha. revert b. induction Ha as [|x a (q & ->) _ IH]; intros b Hb; simpl.
  - constructor.
  - destruct Hb as [|y b (r & ->) Hb]; constructor.
    + now eexists.
    + now apply IH.
Qed.

Lemma astype_int_finite (col : list bool) : Forall finite (astype_int col).
Proof.
  unfold astype_int. induction col as [|b col IH]; simpl; constructor.
  - destruct b; now eexists.
  - exact IH.
Qed.

Lemma clip_in_range (x : pyfloat) : finite x -> in_range (clip 20 100 x).
Proof.
  intros (a & ->). unfold clip, in_range.
  destruct (Qle_bool a 20) eqn:E1.
  - exists 20. split; [reflexivity|]. split; [apply Qle_refl | discriminate].
  - destruct (Qle_bool 100 a) eqn:E2.
    + exists 100. split; [reflexivity|]. split; [discriminate | apply Qle_refl].
    + exists a. split; [reflexivity|].
      apply not_true_iff_false in E1, E2.
      rewrite Qle_bool_iff in E1, E2.
      apply Qnot_le_lt in E1, E2. split; now apply Qlt_le_weak.
Qed.

Lemma sclip_in_range (col : list pyfloat) :
  Forall finite col -> Forall in_range (sclip 20 100 col).
Proof.
  intros H. unfold sclip. induction H; simpl; constructor; auto using clip_in_range.
Qed.

Lemma length_rank (asc : bool) (na : na_option) (col : list pyfloat) :
  length (rank asc na col) = length col.
Proof. apply length_map. Qed.

Lemma length_smul (col : list pyfloat) (k : Q) : length (smul col k) = length col.
Proof. apply length_map. Qed.

Lemma length_sadd (a b : list pyfloat) :
  length a = length b -> length (sadd a b) = length a.
Proof.
  revert b. induction a as [|x a IH]; intros [|y b] H; simpl in *; try lia.
  now rewrite IH by lia.
Qed.

Lemma length_smul2 (a b : list pyfloat) :
  length a = length b -> length (smul2 a b) = length a.
Proof.
  revert b. induction a as [|x a IH]; intros [|y b] H; simpl in *; try lia.
  now rewrite IH by lia.
Qed.

Lemma portability_in_range (w l wd h : list pyfloat) :
  Forall in_range (portability w l wd h).
Proof.
  unfold portability. apply sclip_in_range, smul_finite, sadd_finite;
    apply smul_finite, rank_finite.
Qed.

Lemma lowlight_in_range (iso av crop : list pyfloat) :
  Forall in_range (lowlight iso av crop).
Proof.
  unfold lowlight. apply sclip_in_range, smul_finite, sadd_finite;
    [apply sadd_finite|]; apply smul_finite, rank_finite.
Qed.

Lemma video_in_range (k : list bool) (size shutter : list pyfloat) :
  Forall in_range (video k size shutter).
Proof.
  unfold video. apply sclip_in_range, smul_finite, sadd_finite;
    [apply sadd_finite|]; apply smul_finite;
    [apply astype_int_finite | apply rank_finite | apply rank_finite].
Qed.

Lemma length_portability (w l wd h : list pyfloat) :
  length l = length w -> length wd = length w -> length h = length w ->
  length (portability w l wd h) = length w.
Proof.
  intros H1 H2 H3. unfold portability, sclip, sinv.
  assert (Hv : length (smul2 (smul2 l wd) h) = length w).
  { rewrite length_smul2; rewrite length_smul2; lia. }
  rewrite length_map, length_smul, length_sadd;
    rewrite ?length_smul, ?length_rank, ?length_map; lia.
Qed.

Lemma length_lowlight (iso av crop : list pyfloat) :
  length av = length iso -> length crop = length iso ->
  length (lowlight iso av crop) = length iso.
Proof.
  intros H1 H2. unfold lowlight, sclip.
  assert (Ha : length (sadd (smul (rank true na_top iso) 0.5)
                            (smul (rank true na_top av) 0.3)) = length iso).
  { rewrite length_sadd; rewrite !length_smul, !length_rank; lia. }
  rewrite length_map, length_smul, length_sadd; rewrite Ha;
    rewrite ?length_smul, ?length_rank; lia.
Qed.

Lemma length_video (k : list bool) (size shutter : list pyfloat) :
  length size = length k -> length shutter = length k ->
  length (video k size shutter) = length k.
Proof.
  intros H1 H2. unfold video, sclip.
  assert (Hk : length (astype_int k) = length k) by apply length_map.
  assert (Ha : length (sadd (smul (astype_int k) 0.4)
                            (smul (rank true na_top size) 0.3)) = length k).
  { rewrite length_sadd; rewrite !length_smul, ?length_rank; lia. }
  rewrite length_map, length_smul, length_sadd; rewrite Ha;
    rewrite ?length_smul, ?length_rank; lia.
Qed.

(** ** Unfolding the transform *)

Lemma apply_length {A B : Type} (f : A -> result B) (l : list A) (l' : list B) :
  apply f l = Ok l' -> length l' = length l.
Proof.
  revert l'. induction l as [|x l IH]; intros l'; simpl.
  - now intros H; injection H as <-.
  - destruct (f x); [|discriminate]. simpl.
    destruct (apply f l) as [ys|]; [|discriminate]. simpl.
    intros H; injection H as <-. simpl. now rewrite (IH ys).
Qed.

Lemma getitem_apply {A B : Type} (cols : list label) (name : label)
    (f : A -> result B) (col : list A) (l : list B) :
  (c <- getitem cols name col ;; apply f c) = Ok l ->
  has name cols = true /\ apply f col = Ok l.
Proof.
  unfold getitem. destruct (has name cols); [auto | discriminate].
Qed.

Lemma getitem_map {A B : Type} (cols : list label) (name : label)
    (g : list A -> list B) (col : list A) (l : list B) :
  (c <- getitem cols name col ;; Ok (g c)) = Ok l ->
  has name cols = true /\ l = g col.
Proof.
  unfold getitem. destruct (has name cols); [|discriminate].
  simpl. intros H; injection H as <-. auto.
Qed.

Ltac invert_transform H :=
  unfold clean_and_derive_features in H;
  repeat match type of H with
         | bind ?m _ = Ok _ =>
             let E := fresh "E" in
             destruct m eqn:E; cbn [bind] in H; [|discriminate H]
         end;
  cbv zeta in H;
  repeat match type of H with
         | bind ?m _ = Ok _ =>
             let E := fresh "E" in
             destruct m eqn:E; cbn [bind] in H; [|discriminate H]
         end;
  injection H as H; subst;
  repeat match goal with
         | E : bind (getitem _ _ _) (fun c => apply _ c) = Ok _ |- _ =>
             apply getitem_apply in E; destruct E as [? E]
         | E : bind (getitem _ _ _) (fun c => Ok _) = Ok _ |- _ =>
             apply getitem_map in E; destruct E as [? E]
         end.

(** ** Score range *)

(** C3: for every batch on which the transform returns, non-empty ones
    included, the output has one row of scores per input record, and each
    of the three scores of every row is a number in the closed interval
    from 20 to 100: never below, never above, never missing. *)
Theorem scores_within_20_and_100 (to_numeric : pystr -> pyfloat)
    (df : DataFrame) (out : CleanFrame) :
  clean_and_derive_features to_numeric df = Ok out ->
  length (Portability_Score out) = length (rows df)
  /\ length (LowLight_Score out) = length (rows df)
  /\ length (Video_Score out) = length (rows df)
  /\ Forall in_range (Portability_Score out)
  /\ Forall in_range (LowLight_Score out)
  /\ Forall in_range (Video_Score out).
Proof.
  intros H. invert_transform H. cbn [Portability_Score LowLight_Score Video_Score].
  repeat match goal with
         | E : apply _ _ = Ok _ |- _ => apply apply_length in E; rewrite length_map in E
         end.
  subst.
  split; [|split; [|split; [|split; [|split]]]].
  - rewrite length_portability; rewrite ?length_map; lia.
  - rewrite length_lowlight; unfold sinv; rewrite ?length_map; lia.
  - rewrite length_video; rewrite ?length_map; lia.
  - apply portability_in_range.
  - apply lowlight_in_range.
  - apply video_in_range.
Qed.

Lemma scores_within_20_and_100_witness :
  match clean_and_derive_features to_numeric_decimal sample with
  | Ok out =>
      length (Portability_Score out) = 2%nat
      /\ length (LowLight_Score out) = 2%nat
      /\ length (Video_Score out) = 2%nat
      /\ Forall in_range (Portability_Score out)
      /\ Forall in_range (LowLight_Score out)
      /\ Forall in_range (Video_Score out)
  | Raise _ => False
  end.
Proof.
  destruct (clean_and_derive_features to_numeric_decimal sample) as [out|e] eqn:E.
  - exact (scores_within_20_and_100 to_numeric_decimal sample E).
  - vm_compute in E. discriminate E.
Defined.

(** ** Row order *)

Lemma apply_succeeds {A B : Type} (f : A -> result B) (l : list A) (ys : list B) :
  apply f l = Ok ys -> Forall (fun x => exists y, f x = Ok y) l.
Proof.
  revert ys. induction l as [|x l IH]; intros ys; simpl; [constructor|].
  destruct (f x) as [y|] eqn:E; [|discriminate]. simpl.
  destruct (apply f l) as [zs|]; [|discriminate]. intros _.
  constructor; [now exists y | now apply (IH zs)].
Qed.

Lemma succeeds_apply {A B : Type} (f : A -> result B) (d : B) (l : list A) :
  Forall (fun x => exists y, f x = Ok y) l ->
  apply f l = Ok (map (fun x => value_or d (f x)) l).
Proof.
  induction 1 as [|x l (y & Hy) _ IH]; simpl; [reflexivity|].
  now rewrite Hy, IH.
Qed.

Lemma apply_ok_map {A B : Type} (f : A -> result B) (d : B) (l : list A) (ys : list B) :
  apply f l = Ok ys -> ys = map (fun x => value_or d (f x)) l.
Proof.
  intros H. pose proof (succeeds_apply f d (apply_succeeds f l H)) as H'.
  rewrite H in H'. now injection H'.
Qed.

Lemma apply_perm_ok {A B : Type} (f : A -> result B) (d : B) (l l' : list A) (ys : list B) :
  Permutation l l' -> apply f l = Ok ys ->
  apply f l' = Ok (map (fun x => value_or d (f x)) l').
Proof.
  intros HP H. apply succeeds_apply.
  apply (Permutation_Forall HP). now apply apply_succeeds with (ys := ys).
Qed.

Lemma avg_rank_perm (asc : bool) (na : na_option) (c c' : list pyfloat) (x : pyfloat) :
  Permutation c c' -> avg_rank asc na c x = avg_rank asc na c' x.
Proof.
  intros HP. unfold avg_rank.
  now rewrite (Permutation_length HP), !(count_perm _ HP).
Qed.

Lemma nth_error_sadd (a b : list pyfloat) (i : nat) :
  nth_error (sadd a b) i =
  match nth_error a i, nth_error b i with
  | Some x, Some y => Some (fadd x y)
  | _, _ => None
  end.
Proof.
  revert b i. induction a as [|x a IH]; intros b i.
  - simpl. now destruct i.
  - destruct b as [|y b].
    + simpl. destruct i; simpl; [reflexivity|]. now destruct (nth_error a i).
    + destruct i; simpl; [reflexivity | apply IH].
Qed.


Lemma smul2_map {A : Type} (f g : A -> pyfloat) (rs : list A) :
  smul2 (map f rs) (map g rs) = map (fun r => fmul (f r) (g r)) rs.
Proof.
  induction rs as [|r rs IH]; simpl; [reflexivity|]. now rewrite IH.
Qed.

Section RowOrder.

Variable A : Type.
Variables rs rs' : list A.
Hypothesis HP : Permutation rs rs'.

Lemma agree_map {B : Type} (f : A -> B) : agree rs rs' (map f rs) (map f rs').
Proof.
  intros i j r Hi Hj. now rewrite !nth_error_map, Hi, Hj.
Qed.

Lemma agree_map2 {B C : Type} (g : B -> C) (c c' : list B) :
  agree rs rs' c c' -> agree rs rs' (map g c) (map g c').
Proof.
  intros H i j r Hi Hj. now rewrite !nth_error_map, (H i j r Hi Hj).
Qed.

Lemma agree_sadd (a a' b b' : list pyfloat) :
  agree rs rs' a a' -> agree rs rs' b b' -> agree rs rs' (sadd a b) (sadd a' b').
Proof.
  intros Ha Hb i j r Hi Hj.
  now rewrite !nth_error_sadd, (Ha i j r Hi Hj), (Hb i j r Hi Hj).
Qed.

Lemma agree_rank (asc : bool) (na : na_option) (f : A -> pyfloat) :
  agree rs rs' (rank asc na (map f rs)) (rank asc na (map f rs')).
Proof.
  intros i j r Hi Hj. unfold rank.
  rewrite !nth_error_map, Hi, Hj. cbn [option_map].
  rewrite !length_map, (Permutation_length HP).
  now rewrite (avg_rank_perm asc na (f r) (Permutation_map f HP)).
Qed.

Lemma agree_portability (fw fl fd fh : A -> pyfloat) :
  agree rs rs'
    (portability (map fw rs) (map fl rs) (map fd rs) (map fh rs))
    (portability (map fw rs') (map fl rs') (map fd rs') (map fh rs')).
Proof.
  unfold portability, sclip, smul, sinv.
  rewrite !smul2_map, !map_map.
  repeat first [apply agree_map2 | apply agree_sadd | apply agree_rank].
Qed.

Lemma agree_lowlight (fi fa fc : A -> pyfloat) :
  agree rs rs'
    (lowlight (map fi rs) (sinv (map fa rs)) (map fc rs))
    (lowlight (map fi rs') (sinv (map fa rs')) (map fc rs')).
Proof.
  unfold lowlight, sclip, smul, sinv. rewrite !map_map.
  repeat first [apply agree_map2 | apply agree_sadd | apply agree_rank].
Qed.

Lemma agree_video (fk : A -> bool) (fs fm : A -> pyfloat) :
  agree rs rs'
    (video (map fk rs) (map fs rs) (map fm rs))
    (video (map fk rs') (map fs rs') (map fm rs')).
Proof.
  unfold video, sclip, smul, astype_int.
  repeat first [apply agree_rank | apply agree_sadd | apply agree_map | apply agree_map2].
Qed.

End RowOrder.

Lemma transform_accepts_permutation (to_numeric : pystr -> pyfloat)
    (cols : list label) (rs rs' : list camera) (out : CleanFrame) :
  Permutation rs rs' ->
  clean_and_derive_features to_numeric {| columns := cols; rows := rs |} = Ok out ->
  exists out',
    clean_and_derive_features to_numeric {| columns := cols; rows := rs' |} = Ok out'.
Proof.
  intros HP H. invert_transform H. cbn [columns rows] in *.
  assert (Hne : exists r' rs'', rs' = r' :: rs'').
  { destruct rs' as [|r' rs'']; [|eauto].
    apply Permutation_sym, Permutation_nil in HP. subst rs.
    repeat match goal with
           | E : apply _ (map _ []) = Ok _ |- _ => cbn in E; injection E as <-
           end.
    match goal with
    | E : setitem_frame [] = Ok _ |- _ => discriminate E
    end. }
  unfold clean_and_derive_features. cbn [columns rows]. unfold getitem.
  repeat match goal with
         | Hh : has _ _ = true |- _ => rewrite Hh; clear Hh
         end.
  cbn [bind].
  repeat match goal with
         | E : apply ?f (map ?proj rs) = Ok _ |- _ =>
             first [ rewrite (apply_perm_ok f NaN (Permutation_map proj HP) E)
                   | rewrite (apply_perm_ok f (NaN, NaN, NaN) (Permutation_map proj HP) E) ];
             clear E
         end.
  cbn [bind].
  repeat match goal with
         | E : score_term _ _ = Ok _ |- _ => rewrite E; clear E
         end.
  match goal with
  | E : reordered _ = Ok _ |- _ => rewrite E
  end.
  destruct Hne as (r' & rs'' & ->).
  cbn [bind map setitem_frame]. eexists. reflexivity.
Qed.

(** C4: the three scores are a function of the records of the batch,
    whatever their order.  When a batch is accepted, every reordering of
    its rows is accepted too, and a record gets the same three scores in
    both, at whatever row it stands; running the transform again on the
    same batch (the identical ordering) gives the same scores. *)
Theorem scores_invariant_under_row_order (to_numeric : pystr -> pyfloat)
    (cols : list label) (rs rs' : list camera) (out : CleanFrame) :
  Permutation rs rs' ->
  clean_and_derive_features to_numeric {| columns := cols; rows := rs |} = Ok out ->
  exists out',
    clean_and_derive_features to_numeric {| columns := cols; rows := rs' |} = Ok out'
    /\ forall i j r,
         nth_error rs i = Some r -> nth_error rs' j = Some r ->
         nth_error (Portability_Score out) i = nth_error (Portability_Score out') j
         /\ nth_error (LowLight_Score out) i = nth_error (LowLight_Score out') j
         /\ nth_error (Video_Score out) i = nth_error (Video_Score out') j.
Proof.
  intros HP H.
  destruct (transform_accepts_permutation to_numeric cols HP H) as [out' H'].
  exists out'. split; [exact H'|].
  invert_transform H. invert_transform H'. cbn [columns rows] in *.
  cbn [Portability_Score LowLight_Score Video_Score].
  repeat match goal with
         | E : apply ?f (map ?proj _) = Ok _ |- _ =>
             first [ apply (apply_ok_map f NaN) in E
                   | apply (apply_ok_map f (NaN, NaN, NaN)) in E ];
             rewrite map_map in E
         end.
  subst. rewrite !map_map.
  intros i j r Hi Hj.
  split; [|split].
  - exact (agree_portability HP _ _ _ _ i j Hi Hj).
  - exact (agree_lowlight HP _ _ _ i j Hi Hj).
  - exact (agree_video HP _ _ _ i j Hi Hj).
Qed.

Lemma scores_invariant_under_row_order_witness :
  match clean_and_derive_features to_numeric_decimal
          {| columns := schema; rows := [camera_a; camera_b] |} with
  | Ok out =>
      exists out',
        clean_and_derive_features to_numeric_decimal
          {| columns := schema; rows := [camera_b; camera_a] |} = Ok out'
        /\ nth_error (Portability_Score out) 0 = nth_error (Portability_Score out') 1
        /\ nth_error (LowLight_Score out) 0 = nth_error (LowLight_Score out') 1
        /\ nth_error (Video_Score out) 0 = nth_error (Video_Score out') 1
  | Raise _ => False
  end.
Proof.
  destruct (clean_and_derive_features to_numeric_decimal
              {| columns := schema; rows := [camera_a; camera_b] |}) as [out|e] eqn:E.
  - destruct (scores_invariant_under_row_order to_numeric_decimal schema
                (perm_swap camera_b camera_a []) E) as (out' & H1 & H2).
    exists out'. split; [exact H1|].
    exact (H2 0%nat 1%nat camera_a eq_refl eq_refl).
  - vm_compute in E. discriminate E.
Defined.

(** ** The derived column on a fresh header *)

Lemma lookup_In (m : list (label * label)) (c v : label) :
  lookup m c = Some v -> In v (map snd m).
Proof.
  induction m as [|[k w] m IH]; simpl; [discriminate|].
  destruct (String.eqb k c).
  - intros H; injection H as ->. now left.
  - intros H. right. now apply IH.
Qed.

Lemma rename_keeps (name c : label) :
  ~ In name (map snd renamed) ->
  match lookup renamed c with Some v => v | None => c end = name -> c = name.
Proof.
  intros Hn. destruct (lookup renamed c) as [v|] eqn:E; [|auto].
  intros ->. apply lookup_In in E. contradiction.
Qed.

Lemma rename_not_In (name : label) (l : list label) :
  ~ In name (map snd renamed) -> ~ In name l -> ~ In name (rename renamed l).
Proof.
  intros Hn Hl Hin. unfold rename in Hin.
  apply in_map_iff in Hin as (c & Hc & Hin).
  apply (@rename_keeps name c Hn) in Hc. subst. contradiction.
Qed.

Lemma setitem_app (l : list label) (name : label) : exists e, setitem l name = l ++ e.
Proof.
  unfold setitem. destruct (has name l).
  - exists []. now rewrite app_nil_r.
  - now exists [name].
Qed.

Lemma in_split_first (x : label) (l : list label) :
  In x l -> exists pre post, l = pre ++ x :: post /\ ~ In x pre.
Proof.
  induction l as [|c l IH]; [contradiction|].
  destruct (String.eqb c x) eqn:E.
  - apply String.eqb_eq in E. subst. intros _. exists [], l. auto.
  - intros [->|Hin]; [now rewrite String.eqb_refl in E|].
    destruct (IH Hin) as (pre & post & -> & Hpre).
    exists (c :: pre), post. split; [reflexivity|].
    intros [->|H]; [now rewrite String.eqb_refl in E | contradiction].
Qed.

Lemma not_renamed_max_aperture : ~ In "Max aperture" (map snd renamed).
Proof.
  simpl. intros H. repeat (destruct H as [H|H]; [discriminate H|]). exact H.
Qed.

Lemma not_renamed_min_aperture : ~ In "Min_Aperture_F" (map snd renamed).
Proof.
  simpl. intros H. repeat (destruct H as [H|H]; [discriminate H|]). exact H.
Qed.

Lemma filter_eqb_repeat (x : label) (h : list label) :
  filter (String.eqb x) h = repeat x (length (filter (String.eqb x) h)).
Proof.
  induction h as [|c h IH]; [reflexivity|]. simpl.
  destruct (String.eqb x c) eqn:E; [|exact IH].
  apply String.eqb_eq in E. subst c. simpl. now rewrite <- IH.
Qed.

Lemma filter_eqb_In (x : label) (h : list label) :
  In x h -> exists k, filter (String.eqb x) h = repeat x (S k).
Proof.
  intros Hin. pose proof (filter_eqb_repeat x h) as R.
  assert (H : In x (filter (String.eqb x) h)).
  { apply filter_In. split; [exact Hin | apply String.eqb_refl]. }
  destruct (length (filter (String.eqb x) h)) as [|k].
  - rewrite R in H. contradiction.
  - now exists k.
Qed.

(** Two labels of the frame that stand side by side in the selection stand
    side by side in the selected frame, also when columns share a label. *)
Lemma getitem_columns_adjacent (h pre post : list label) (a b : label) :
  In a h -> In b h ->
  exists p q, getitem_columns h (pre ++ a :: b :: post) = p ++ a :: b :: q.
Proof.
  intros Ha Hb. unfold getitem_columns.
  rewrite flat_map_app. cbn [flat_map].
  destruct (filter_eqb_In _ _ Ha) as [ka ->].
  destruct (filter_eqb_In _ _ Hb) as [kb ->].
  exists (flat_map (fun c => filter (String.eqb c) h) pre ++ repeat a ka),
         (repeat b kb ++ flat_map (fun c => filter (String.eqb c) h) post).
  cbn [repeat]. rewrite repeat_cons.
  repeat rewrite <- app_assoc. reflexivity.
Qed.

(** X11: On an input that has no column named [Min_Aperture_F], the derived
    column ends immediately after [Max aperture]. *)
Lemma derived_column_follows_source (to_numeric : pystr -> pyfloat)
    (df : DataFrame) (out : CleanFrame) :
  clean_and_derive_features to_numeric df = Ok out ->
  ~ In "Min_Aperture_F" (columns df) ->
  exists pre post,
    out_columns out = pre ++ "Max aperture" :: "Min_Aperture_F" :: post.
Proof.
  intros H Hfresh. invert_transform H. cbn [out_columns].
  match goal with
  | E : reordered ?hdr = Ok ?l |- _ => revert E; generalize l
  end.
  assert (Hs : setitem (columns df) "Min_Aperture_F" = columns df ++ ["Min_Aperture_F"]).
  { unfold setitem. destruct (has "Min_Aperture_F" (columns df)) eqn:Eh; [|reflexivity].
    apply has_In in Eh. contradiction. }
  rewrite Hs.
  match goal with
  | Hh : has "Max aperture" (columns df) = true |- _ =>
      apply has_In, in_split_first in Hh; destruct Hh as (pre & post & Hc & Hpre)
  end.
  rewrite Hc in *. clear Hc.
  match goal with
  | |- context [rename renamed ?l] =>
      assert (Hr : rename renamed l
                   = rename renamed pre ++ "Max aperture" :: rename renamed post
                     ++ ["Min_Aperture_F"])
  end.
  { unfold rename. rewrite !map_app. cbn [map]. rewrite <- app_assoc. reflexivity. }
  rewrite Hr.
  repeat match goal with
         | |- context [setitem ?l ?n] =>
             let e := fresh "e" in
             let He := fresh "He" in
             destruct (setitem_app l n) as [e He]; rewrite He; clear He
         end.
  intros l Hl.
  repeat rewrite <- app_assoc in Hl. cbn [app] in Hl.
  repeat rewrite <- app_assoc in Hl. cbn [app] in Hl.
  unfold reordered in Hl. rewrite reorder_after in Hl.
  - cbn [bind] in Hl.
    match type of Hl with
    | (if has ?n ?h then _ else _) = _ =>
        assert (Hh : has n h = true)
          by (apply has_In, in_or_app; right; right; apply in_or_app; right; now left);
        rewrite Hh in Hl; apply has_In in Hh
    end.
    injection Hl as <-. apply getitem_columns_adjacent; [|exact Hh].
    apply in_or_app. right. now left.
  - apply rename_not_In; [exact not_renamed_max_aperture | exact Hpre].
  - apply rename_not_In; [exact not_renamed_min_aperture|].
    intros Hin. apply Hfresh. apply in_or_app. now left.
  - apply rename_not_In; [exact not_renamed_min_aperture|].
    intros Hin. apply Hfresh. apply in_or_app. right. now right.
Qed.

(** * Further properties of the normalizers *)

(** ** The 4K flag *)

Lemma contains_startswith (w : pystr) (c : ascii) (s : pystr) :
  contains w (c :: s) = startswith w (c :: s) || contains w s.
Proof.
  unfold startswith. cbn [contains].
  now destruct (strip_prefix w (c :: s)).
Qed.

Lemma match_at_4k (s : pystr) :
  match match_at re_4k s with Some _ => true | None => false end
  = startswith (py "3840") s || startswith (py "4096") s
    || startswith (py "4k") s || startswith (py "4K") s.
Proof.
  unfold match_at, re_4k, startswith.
  change (matches (Alt (Lit (py "3840"))
                       (Alt (Lit (py "4096")) (Seq (Lit (py "4")) (Cls is_k)))) s)
    with (matches (Lit (py "3840")) s
          ++ (matches (Lit (py "4096")) s
              ++ matches (Seq (Lit ["4"%char]) (Cls is_k)) s)).
  rewrite !matches_lit, seq_lit1.
  destruct (strip_prefix (py "3840") s); [reflexivity|].
  destruct (strip_prefix (py "4096") s); [reflexivity|].
  cbn [app orb].
  destruct s as [|c [|c2 r]]; [reflexivity | |].
  - cbn -[Ascii.eqb]. now destruct (Ascii.eqb "4" c).
  - cbn -[Ascii.eqb]. unfold is_k.
    rewrite (Ascii.eqb_sym c2 "k"), (Ascii.eqb_sym c2 "K").
    destruct (Ascii.eqb "4" c); [|reflexivity].
    now destruct (Ascii.eqb "k" c2), (Ascii.eqb "K" c2).
Qed.

Lemma str_contains_cons (r : regex) (c : ascii) (s : pystr) :
  str_contains r (c :: s)
  = match match_at r (c :: s) with Some _ => true | None => false end
    || str_contains r s.
Proof.
  unfold str_contains. cbn [re_search].
  now destruct (match_at r (c :: s)).
Qed.

(** X1: On text of Latin-1 characters (code points below 256, the range of
    [pystr]) the 4K flag of a cell is a plain substring test: it is set
    exactly when the text contains [3840], [4096], [4k] or [4K]; a missing
    cell never sets it.  Text with the Kelvin sign U+212A, which
    [re.IGNORECASE] also takes for [K], is outside this statement. *)
Theorem supports_4k_is_substring_test :
  (forall s,
      str_contains re_4k s
      = contains (py "3840") s || contains (py "4096") s
        || contains (py "4k") s || contains (py "4K") s)
  /\ str_contains re_4k (astype_str Null) = false.
Proof.
  split; [|reflexivity].
  induction s as [|c s IH]; [reflexivity|].
  rewrite str_contains_cons, match_at_4k, IH, !contains_startswith.
  destruct (startswith (py "3840") (c :: s)), (startswith (py "4096") (c :: s)),
    (startswith (py "4k") (c :: s)), (startswith (py "4K") (c :: s)),
    (contains (py "3840") s), (contains (py "4096") s),
    (contains (py "4k") s), (contains (py "4K") s); reflexivity.
Qed.

(** ** The smallest F-number *)

Lemma fltb_Fin (a b : Q) : fltb (Fin a) (Fin b) = true <-> a < b.
Proof.
  simpl. rewrite negb_true_iff. split.
  - intros H. apply Qnot_le_lt. intros Hle.
    apply Qle_bool_iff in Hle. congruence.
  - intros H. apply not_true_is_false. intros Hle.
    apply Qle_bool_iff in Hle. now apply Qlt_not_le in H.
Qed.

Lemma fltb_Fin_false (a b : Q) : fltb (Fin a) (Fin b) = false -> b <= a.
Proof.
  intros H. apply Qnot_lt_le. intros Hlt.
  apply fltb_Fin in Hlt. congruence.
Qed.

Lemma py_min_least (x : pyfloat) (xs : list pyfloat) :
  Forall finite (x :: xs) ->
  exists q, py_min x xs = Fin q /\ In (Fin q) (x :: xs)
            /\ forall q', In (Fin q') (x :: xs) -> q <= q'.
Proof.
  unfold py_min. revert x. induction xs as [|y ys IH]; intros x HF.
  - apply Forall_inv in HF as (a & ->). exists a. simpl.
    split; [reflexivity|]. split; [now left|].
    intros q' [H|[]]. injection H as <-. apply Qle_refl.
  - pose proof (Forall_inv HF) as (a & ->).
    pose proof (Forall_inv (Forall_inv_tail HF)) as (b & ->).
    pose proof (Forall_inv_tail (Forall_inv_tail HF)) as HFys.
    cbn [fold_left].
    destruct (fltb (Fin b) (Fin a)) eqn:E.
    + apply fltb_Fin in E.
      destruct (IH (Fin b)) as (q & Hq & Hin & Hle); [now constructor; [eexists|]|].
      exists q. split; [exact Hq|]. split.
      * destruct Hin as [Hin|Hin]; [right; now left | right; now right].
      * intros q' [H|[H|H]].
        -- injection H as <-. apply Qle_trans with b; [apply Hle; now left|].
           now apply Qlt_le_weak.
        -- apply Hle. now left.
        -- apply Hle. now right.
    + apply fltb_Fin_false in E.
      destruct (IH (Fin a)) as (q & Hq & Hin & Hle); [now constructor; [eexists|]|].
      exists q. split; [exact Hq|]. split.
      * destruct Hin as [Hin|Hin]; [now left | right; now right].
      * intros q' [H|[H|H]].
        -- apply Hle. now left.
        -- injection H as <-. apply Qle_trans with a; [apply Hle; now left | exact E].
        -- apply Hle. now right.
Qed.

Lemma filter_nonempty (l : list pystr) :
  Forall (fun t => t <> []) l -> filter (fun n => negb (is_nil n)) l = l.
Proof.
  induction 1 as [|t l Ht _ IH]; simpl; [reflexivity|].
  destruct t; [contradiction|]. simpl. now rewrite IH.
Qed.

Lemma apply_finite (l : list pystr) (xs : list pyfloat) :
  apply py_float l = Ok xs -> Forall finite xs.
Proof.
  revert xs. induction l as [|t l IH]; intros xs; simpl.
  - intros H; injection H as <-. constructor.
  - destruct (py_float t) as [x|] eqn:E; [|discriminate]. simpl.
    destruct (apply py_float l) as [ys|]; [|discriminate]. simpl.
    intros H; injection H as <-.
    constructor; [now apply py_float_finite with (t := t) | now apply IH].
Qed.

(** X2: [clean_aperture_f] reads every run of digits and dots of the text as
    a number and returns the smallest one: it is one of the numbers and no
    number of the text is below it.  Without any digit or dot the result is
    the missing value, and a run that is not a number makes the call
    raise. *)
Theorem clean_aperture_f_is_the_minimum (s : pystr) :
  match apply py_float (tokens (run_token is_digit_or_dot) s) with
  | Ok [] => clean_aperture_f (Str s) = Ok NaN
  | Ok numbers =>
      exists q,
        clean_aperture_f (Str s) = Ok (Fin q)
        /\ In (Fin q) numbers
        /\ Forall (fun x => exists q', x = Fin q' /\ q <= q') numbers
  | Raise e => clean_aperture_f (Str s) = Raise e
  end.
Proof.
  unfold clean_aperture_f, re_number_nogroup.
  rewrite (findall_tokens (scans_plus is_digit_or_dot) (run_token_whole is_digit_or_dot)).
  rewrite filter_nonempty.
  2:{ apply lex_Forall. intros u t rest E. now apply run_token_run in E. }
  destruct (apply py_float (tokens (run_token is_digit_or_dot) s)) as [numbers|e] eqn:E;
    [|reflexivity].
  cbn [bind]. destruct numbers as [|x xs]; [reflexivity|].
  pose proof (apply_finite _ E) as HF.
  destruct (py_min_least HF) as (q & Hq & Hin & Hle).
  exists q. rewrite Hq. split; [reflexivity|]. split; [exact Hin|].
  apply Forall_forall. intros y Hy.
  rewrite Forall_forall in HF. destruct (HF y Hy) as (q' & ->).
  exists q'. split; [reflexivity | now apply Hle].
Qed.

(** ** Text around a number *)

Lemma number_lower (c : ascii) : is_digit_or_dot c = true -> lower_char c = c.
Proof. by_chars c. Qed.

Lemma lower_keeps_class (c : ascii) :
  is_digit_or_dot (lower_char c) = is_digit_or_dot c.
Proof. by_chars c. Qed.

Lemma number_not_comma (c : ascii) :
  is_digit_or_dot c = true -> negb (Ascii.eqb c ",") = true.
Proof. by_chars c. Qed.

Lemma number_not_c (c : ascii) : is_digit_or_dot c = true -> Ascii.eqb "c" c = false.
Proof. by_chars c. Qed.

Lemma lower_number (t : pystr) : forallb is_digit_or_dot t = true -> lower t = t.
Proof.
  induction t as [|c t IH]; simpl; [reflexivity|].
  intros H. apply andb_true_iff in H as [Hc Ht].
  now rewrite (number_lower c Hc), (IH Ht).
Qed.

Lemma lower_app (a b : pystr) : lower (a ++ b) = lower a ++ lower b.
Proof. apply map_app. Qed.

Lemma lower_not_number (u : pystr) :
  forallb (fun c => negb (is_digit_or_dot c)) u = true ->
  forallb (fun c => negb (is_digit_or_dot c)) (lower u) = true.
Proof.
  induction u as [|c u IH]; simpl; [reflexivity|].
  intros H. apply andb_true_iff in H as [Hc Hu].
  now rewrite lower_keeps_class, Hc, (IH Hu).
Qed.

Lemma forallb_filter {A : Type} (p q : A -> bool) (l : list A) :
  forallb p l = true -> forallb p (filter q l) = true.
Proof.
  induction l as [|x l IH]; simpl; [reflexivity|].
  intros H. apply andb_true_iff in H as [Hx Hl].
  destruct (q x); simpl; [now rewrite Hx, (IH Hl) | now apply IH].
Qed.

Lemma lstrip_app_stop (l r : pystr) :
  match r with c :: _ => is_space c = false | [] => False end ->
  exists k l', l = k ++ l' /\ lstrip (l ++ r) = l' ++ r.
Proof.
  intros Hr. induction l as [|a l IH].
  - exists [], []. split; [reflexivity|]. simpl. apply lstrip_id.
    destruct r; [contradiction | exact Hr].
  - simpl. destruct (is_space a) eqn:E.
    + destruct IH as (k & l' & -> & H). exists (a :: k), l'. auto.
    + exists [], (a :: l). simpl. auto.
Qed.

(** [strip] keeps a leading number and drops only from what follows. *)
Lemma strip_keeps_number (t v : pystr) :
  forallb is_digit_or_dot t = true -> t <> [] ->
  exists v' k, v = v' ++ k /\ strip (t ++ v) = t ++ v'.
Proof.
  intros Ht Hn. unfold strip.
  assert (H1 : lstrip (t ++ v) = t ++ v).
  { apply lstrip_id. destruct t as [|c t]; [contradiction|].
    simpl in Ht. apply andb_true_iff in Ht as [Hc _].
    now apply number_not_space. }
  rewrite H1, rev_app_distr.
  destruct (lstrip_app_stop (rev v) (rev t)) as (k & l' & Hk & Hl).
  { destruct (rev t) as [|c r] eqn:E.
    - apply (f_equal (@rev ascii)) in E. rewrite rev_involutive in E. now subst.
    - apply number_not_space. rewrite forallb_forall in Ht.
      apply Ht, in_rev. rewrite E. now left. }
  rewrite Hl, rev_app_distr, rev_involutive.
  exists (rev l'), (rev k). split; [|reflexivity].
  rewrite <- rev_app_distr, <- Hk. symmetry. apply rev_involutive.
Qed.

Lemma first_token_head (tok : tokenizer) (s t rest : pystr) :
  tok s = Some (t, rest) -> first_token tok s = Some t.
Proof.
  intros H. destruct s; simpl; now rewrite H.
Qed.

Lemma run_token_prefix (p : ascii -> bool) (t v : pystr) :
  forallb p t = true -> t <> [] ->
  forallb (fun c => negb (p c)) v = true ->
  run_token p (t ++ v) = Some (t, v).
Proof.
  intros Ht Hn Hv. unfold run_token. rewrite span_all.
  - destruct t; [contradiction | reflexivity].
  - exact Ht.
  - destruct v as [|c v]; [exact I|].
    simpl in Hv. apply andb_true_iff in Hv as [Hc _]. now apply negb_true_iff.
Qed.

(** ** Weight *)

Lemma clean_weight_number_first (s t v : pystr) :
  remove_char "," (lower s) = t ++ v ->
  forallb is_digit_or_dot t = true -> t <> [] ->
  forallb (fun c => negb (is_digit_or_dot c)) v = true ->
  clean_weight (Str s) = py_float t.
Proof.
  intros Hs Ht Hn Hv. unfold clean_weight. rewrite Hs.
  destruct (strip_keeps_number v Ht Hn) as (v' & k & -> & ->).
  rewrite forallb_app in Hv. apply andb_true_iff in Hv as [Hv' _].
  unfold re_number.
  rewrite (search_first_token (scans_group_plus is_digit_or_dot)).
  erewrite first_token_head by (apply run_token_prefix; assumption). reflexivity.
Qed.

(** X3: [clean_weight] does no unit conversion: when the text starts with a
    number (digits and dots) and nothing after it holds a digit or a dot,
    the result is that number, whatever the unit written behind it, so
    kilograms are read as grams; the same holds for a whole number written
    with one thousands separator. *)
Theorem clean_weight_ignores_the_unit :
  (forall t u,
      forallb is_digit_or_dot t = true -> t <> [] ->
      forallb (fun c => negb (is_digit_or_dot c)) u = true ->
      clean_weight (Str (t ++ u)) = py_float t)
  /\ (forall a b u,
         forallb is_digit a = true -> forallb is_digit b = true -> a <> [] ->
         forallb (fun c => negb (is_digit_or_dot c)) u = true ->
         clean_weight (Str (a ++ ","%char :: b ++ u))
         = Ok (Fin (inject_Z (dec (a ++ b))))).
Proof.
  split.
  - intros t u Ht Hn Hu.
    apply clean_weight_number_first with (v := remove_char "," (lower u)); auto.
    + rewrite lower_app, (lower_number t Ht), remove_char_app.
      rewrite (remove_char_none "," t); [reflexivity|].
      eapply forallb_impl; [exact number_not_comma | exact Ht].
    + now apply forallb_filter, lower_not_number.
  - intros a b u Ha Hb Hn Hu.
    assert (Hab : forallb is_digit_or_dot (a ++ b) = true).
    { rewrite forallb_app.
      rewrite (forallb_impl is_digit is_digit_or_dot a digit_is_number Ha).
      now rewrite (forallb_impl is_digit is_digit_or_dot b digit_is_number Hb). }
    rewrite clean_weight_number_first
      with (t := a ++ b) (v := remove_char "," (lower u)).
    + apply py_float_digits.
      * rewrite forallb_app. now rewrite Ha, Hb.
      * destruct a; [contradiction | discriminate].
    + assert (Ha' : forallb is_digit_or_dot a = true)
        by (eapply forallb_impl; [exact digit_is_number | exact Ha]).
      assert (Hb' : forallb is_digit_or_dot b = true)
        by (eapply forallb_impl; [exact digit_is_number | exact Hb]).
      rewrite lower_app, (lower_number a Ha').
      change (lower (","%char :: b ++ u)) with (","%char :: lower (b ++ u)).
      rewrite lower_app, (lower_number b Hb').
      rewrite remove_char_app.
      change (remove_char "," (","%char :: b ++ lower u))
        with (remove_char "," (b ++ lower u)).
      rewrite remove_char_app.
      rewrite (remove_char_none "," a), (remove_char_none "," b);
        [now rewrite app_assoc | |];
        (eapply forallb_impl; [exact number_not_comma | assumption]).
    + exact Hab.
    + destruct a; [contradiction | discriminate].
    + now apply forallb_filter, lower_not_number.
Qed.

Lemma clean_weight_ignores_the_unit_witness :
  clean_weight (Str (py "1.2 kg")) = Ok (Fin 1.2)
  /\ clean_weight (Str (py "1,250 g")) = Ok (Fin 1250).
Proof.
  destruct clean_weight_ignores_the_unit as [H1 H2]. split.
  - exact (H1 (py "1.2") (py " kg") eq_refl ltac:(discriminate) eq_refl).
  - exact (H2 (py "1") (py "250") (py " g") eq_refl eq_refl ltac:(discriminate) eq_refl).
Defined.

(** ** Focus distance *)

Lemma remove_sub_number (t rest : pystr) :
  forallb is_digit_or_dot t = true ->
  remove_sub_from (py "cm") (t ++ rest) 0 = t ++ remove_sub_from (py "cm") rest 0.
Proof.
  induction t as [|c t IH]; simpl app; [reflexivity|].
  intros H. simpl in H. apply andb_true_iff in H as [Hc Ht].
  specialize (IH Ht). unfold py in *. cbn -[Ascii.eqb] in *.
  rewrite (number_not_c c Hc). now rewrite IH.
Qed.

Lemma strip_ends (x : pystr) :
  match x with c :: _ => is_space c = false | [] => True end ->
  match rev x with c :: _ => is_space c = false | [] => True end ->
  strip x = x.
Proof.
  intros H1 H2. unfold strip.
  now rewrite (lstrip_id x H1), (lstrip_id (rev x) H2), rev_involutive.
Qed.

Lemma strip_number_then (t sfx : pystr) :
  forallb is_digit_or_dot t = true -> t <> [] ->
  match rev sfx with c :: _ => is_space c = false | [] => True end ->
  strip (t ++ sfx) = t ++ sfx.
Proof.
  intros Ht Hn Hs. apply strip_ends.
  - destruct t as [|c t]; [contradiction|]. simpl in Ht.
    apply andb_true_iff in Ht as [Hc _]. now apply number_not_space.
  - rewrite rev_app_distr. destruct (rev sfx) as [|c r]; [|exact Hs].
    simpl. destruct (rev t) as [|c r] eqn:E; [exact I|].
    apply number_not_space. rewrite forallb_forall in Ht.
    apply Ht, in_rev. rewrite E. now left.
Qed.

Lemma metres_token_then (t : pystr) (c : ascii) (rest : pystr) :
  forallb is_digit_or_dot t = true -> is_digit_or_dot c = false ->
  metres_token (t ++ c :: rest)
  = if is_nil t then None else if Ascii.eqb c "m" then Some (t, rest) else None.
Proof.
  intros Ht Hc. unfold metres_token. rewrite span_all by assumption.
  reflexivity.
Qed.

Lemma first_token_metres_none (t sfx : pystr) :
  forallb is_digit_or_dot t = true ->
  match sfx with c :: _ => is_digit_or_dot c = false /\ Ascii.eqb c "m" = false | [] => True end ->
  first_token metres_token sfx = None ->
  first_token metres_token (t ++ sfx) = None.
Proof.
  intros Ht Hs Hnone. induction t as [|c t IH]; [exact Hnone|].
  simpl in Ht. apply andb_true_iff in Ht as [Hc Ht].
  simpl app. cbn [first_token].
  assert (Hm : metres_token (c :: t ++ sfx) = None).
  { destruct sfx as [|d sfx].
    - rewrite app_nil_r. unfold metres_token.
      replace (c :: t) with ((c :: t) ++ []) by apply app_nil_r.
      rewrite span_all; [reflexivity | simpl; now rewrite Hc, Ht | exact I].
    - destruct Hs as [Hd Hd'].
      change (c :: t ++ d :: sfx) with ((c :: t) ++ d :: sfx).
      rewrite metres_token_then; [| simpl; now rewrite Hc, Ht | exact Hd].
      simpl. now rewrite Hd'. }
  rewrite Hm. now apply IH.
Qed.

Lemma clean_focus_range_cleaned (s x : pystr) :
  strip (remove_sub (py "cm") (lower s)) = x ->
  clean_focus_range (Str s) =
  match first_token metres_token x with
  | Some g => v <- py_float g ;; Ok (fmul v (Fin 100))
  | None =>
      match first_token (run_token is_digit_or_dot) x with
      | Some g => py_float g
      | None => Ok NaN
      end
  end.
Proof.
  intros <-. unfold clean_focus_range, re_number.
  now rewrite (search_first_token scans_metres),
    (search_first_token (scans_group_plus is_digit_or_dot)).
Qed.

Lemma lower_number_then (t sfx : pystr) :
  forallb is_digit_or_dot t = true -> lower (t ++ sfx) = t ++ lower sfx.
Proof. intros Ht. now rewrite lower_app, (lower_number t Ht). Qed.

(** X4: [clean_focus_range] turns metres into centimetres only when the [m]
    stands right behind the number: a number followed by [m] is multiplied
    by 100 and one followed by [cm] is kept; but the first [m] of [mm]
    counts as metres too, and a blank before the [m] leaves the number as
    it is (centimetres). *)
Theorem clean_focus_range_units (t : pystr) :
  forallb is_digit_or_dot t = true -> t <> [] ->
  clean_focus_range (Str (t ++ py "m")) = (v <- py_float t ;; Ok (fmul v (Fin 100)))
  /\ clean_focus_range (Str (t ++ py "cm")) = py_float t
  /\ clean_focus_range (Str (t ++ py "mm")) = (v <- py_float t ;; Ok (fmul v (Fin 100)))
  /\ clean_focus_range (Str (t ++ py " m")) = py_float t.
Proof.
  intros Ht Hn.
  assert (Hnil : is_nil t = false) by (destruct t; [contradiction | reflexivity]).
  split; [|split; [|split]].
  - rewrite (@clean_focus_range_cleaned (t ++ py "m") (t ++ py "m")).
    + erewrite first_token_head; [reflexivity|].
      change (py "m") with ["m"%char].
      rewrite metres_token_then by auto. now rewrite Hnil.
    + rewrite lower_number_then by exact Ht. unfold remove_sub.
      rewrite remove_sub_number by exact Ht.
      now apply strip_number_then.
  - rewrite (@clean_focus_range_cleaned (t ++ py "cm") (t)).
    + replace t with (t ++ []) at 1 by apply app_nil_r.
      rewrite first_token_metres_none; [| exact Ht | exact I | reflexivity].
      erewrite first_token_head; [reflexivity|].
      replace t with (t ++ []) at 1 by apply app_nil_r.
      now apply run_token_prefix.
    + rewrite lower_number_then by exact Ht. unfold remove_sub.
      rewrite remove_sub_number by exact Ht.
      change (remove_sub_from (py "cm") (lower (py "cm")) 0) with (@nil ascii).
      rewrite app_nil_r.
      replace t with (t ++ []) by apply app_nil_r.
      now apply strip_number_then.
  - rewrite (@clean_focus_range_cleaned (t ++ py "mm") (t ++ py "mm")).
    + erewrite first_token_head; [reflexivity|].
      change (py "mm") with ["m"%char; "m"%char].
      rewrite metres_token_then by auto. now rewrite Hnil.
    + rewrite lower_number_then by exact Ht. unfold remove_sub.
      rewrite remove_sub_number by exact Ht.
      now apply strip_number_then.
  - rewrite (@clean_focus_range_cleaned (t ++ py " m") (t ++ py " m")).
    + rewrite first_token_metres_none; [| exact Ht | split; reflexivity | reflexivity].
      erewrite first_token_head; [reflexivity|].
      now apply run_token_prefix.
    + rewrite lower_number_then by exact Ht. unfold remove_sub.
      rewrite remove_sub_number by exact Ht.
      now apply strip_number_then.
Qed.

Lemma clean_focus_range_units_witness :
  clean_focus_range (Str (py "1.5m")) = Ok (Fin (1.5 * 100))
  /\ clean_focus_range (Str (py "1.5cm")) = Ok (Fin 1.5)
  /\ clean_focus_range (Str (py "1.5mm")) = Ok (Fin (1.5 * 100))
  /\ clean_focus_range (Str (py "1.5 m")) = Ok (Fin 1.5).
Proof.
  exact (clean_focus_range_units (t := py "1.5") eq_refl ltac:(discriminate)).
Defined.

(** ** What the normalizers raise *)

Lemma py_float_raise (t : pystr) (e : exn) : py_float t = Raise e -> e = ValueError.
Proof.
  unfold py_float. destruct (span is_digit t) as [ip rest].
  destruct rest as [|c fp].
  - destruct (is_nil ip); [|discriminate]. now intros H; injection H as <-.
  - destruct (_ && _); [discriminate|]. now intros H; injection H as <-.
Qed.

Lemma apply_raise {A B : Type} (f : A -> result B) (l : list A) (e : exn) :
  apply f l = Raise e -> exists x, In x l /\ f x = Raise e.
Proof.
  induction l as [|x l IH]; simpl; [discriminate|].
  destruct (f x) as [y|e'] eqn:E; simpl.
  - destruct (apply f l) as [ys|e'']; simpl; [discriminate|].
    intros H. destruct (IH H) as (z & Hz & Hf). exists z. auto.
  - intros H; injection H as <-. exists x. auto.
Qed.

Lemma apply_In_raise {A B : Type} (f : A -> result B) (l : list A) (x : A) (e : exn) :
  In x l -> f x = Raise e -> exists e', apply f l = Raise e'.
Proof.
  intros Hin Hx. destruct (apply f l) as [ys|e'] eqn:E; [|now exists e'].
  apply apply_succeeds in E. rewrite Forall_forall in E.
  destruct (E x Hin) as (y & Hy). congruence.
Qed.

Lemma try_except_ok {A : Type} (m : result A) (d : A) : exists v, try_except m d = Ok v.
Proof. destruct m; simpl; eauto. Qed.

Lemma clean_weight_raise (x : raw) (e : exn) : clean_weight x = Raise e -> e = ValueError.
Proof.
  destruct x as [|s]; simpl; [discriminate|].
  destruct (re_search _ _); [apply py_float_raise | discriminate].
Qed.

Lemma clean_aperture_f_raise (x : raw) (e : exn) :
  clean_aperture_f x = Raise e -> e = ValueError.
Proof.
  destruct x as [|s]; simpl; [discriminate|].
  destruct (apply py_float _) as [numbers|e'] eqn:E; simpl.
  - destruct numbers; discriminate.
  - intros H; injection H as <-.
    apply apply_raise in E as (t & _ & Ht). now apply py_float_raise in Ht.
Qed.

Lemma clean_shutter_speed_raise (x : raw) (e : exn) :
  clean_shutter_speed x = Raise e -> e = ValueError.
Proof.
  destruct x as [|s]; [discriminate|]. unfold clean_shutter_speed.
  destruct (_ && _).
  - intros H. destruct (try_except_ok
      (match re_findall re_int (last_part (split "/" (strip (lower s)))) with
       | [] => Raise IndexError
       | d :: _ => x <- py_float d ;; py_div1 x
       end) NaN) as [v Hv].
    rewrite Hv in H. discriminate H.
  - destruct (re_search _ _); [apply py_float_raise | discriminate].
Qed.

Lemma clean_exposure_range_raise (x : raw) (e : exn) :
  clean_exposure_range x = Raise e -> e = ValueError.
Proof.
  destruct x as [|s]; simpl; [discriminate|].
  destruct (re_search _ _); [apply py_float_raise | discriminate].
Qed.

Lemma clean_focus_range_raise (x : raw) (e : exn) :
  clean_focus_range x = Raise e -> e = ValueError.
Proof.
  destruct x as [|s]; [discriminate|]. unfold clean_focus_range.
  destruct (re_search re_metres _) as [g|].
  - destruct (py_float g) as [v|e'] eqn:E; simpl; [discriminate|].
    intros H; injection H as <-. now apply py_float_raise in E.
  - destruct (re_search _ _); [apply py_float_raise | discriminate].
Qed.

(** X6: Four normalizers never raise, on any cell: [clean_max_iso],
    [clean_screen_res], [clean_dimensions] and [clean_screen_size].  The
    other five raise nothing but [ValueError]: the [IndexError] and the
    [ZeroDivisionError] of the fraction branch of [clean_shutter_speed]
    never leave it. *)
Theorem normalizers_raise_nothing_but_ValueError
    (to_numeric : pystr -> pyfloat) (x : raw) :
  (exists v, clean_max_iso x = Ok v)
  /\ (exists v, clean_screen_res x = Ok v)
  /\ (exists v, clean_dimensions x = Ok v)
  /\ (exists v, clean_screen_size to_numeric x = Ok v)
  /\ (forall e, clean_weight x = Raise e -> e = ValueError)
  /\ (forall e, clean_aperture_f x = Raise e -> e = ValueError)
  /\ (forall e, clean_shutter_speed x = Raise e -> e = ValueError)
  /\ (forall e, clean_exposure_range x = Raise e -> e = ValueError)
  /\ (forall e, clean_focus_range x = Raise e -> e = ValueError).
Proof.
  split; [apply clean_max_iso_total|].
  split; [apply clean_screen_res_total|].
  split; [apply clean_dimensions_total|].
  split; [apply clean_screen_size_total|].
  split; [apply clean_weight_raise|].
  split; [apply clean_aperture_f_raise|].
  split; [apply clean_shutter_speed_raise|].
  split; [apply clean_exposure_range_raise | apply clean_focus_range_raise].
Qed.

Lemma normalizers_raise_nothing_but_ValueError_witness :
  exists e, clean_weight (Str (py "approx. 123 g")) = Raise e /\ e = ValueError.
Proof.
  exists ValueError. split; [reflexivity|].
  destruct (normalizers_raise_nothing_but_ValueError
              to_numeric_decimal (Str (py "approx. 123 g")))
    as (_ & _ & _ & _ & H & _).
  exact (H ValueError eq_refl).
Defined.

(** * Further properties of the ranks *)

(** ** Order facts *)

Lemma feqb_Fin (a b : Q) : feqb (Fin a) (Fin b) = true <-> a == b.
Proof. simpl. apply Qeq_bool_iff. Qed.

Lemma fltb_trans (a b c : pyfloat) :
  fltb a b = true -> fltb b c = true -> fltb a c = true.
Proof.
  destruct a as [x| | |], b as [y| | |], c as [z| | |];
    try discriminate; try reflexivity.
  rewrite !fltb_Fin. apply Qlt_trans.
Qed.

Lemma feqb_fltb_l (x y z : pyfloat) :
  feqb x z = true -> fltb x y = true -> fltb z y = true.
Proof.
  destruct x as [a| | |], y as [b| | |], z as [c| | |];
    try discriminate; try reflexivity.
  rewrite feqb_Fin, !fltb_Fin. intros E H. now rewrite <- E.
Qed.

Lemma feqb_fltb_r (x y z : pyfloat) :
  feqb y z = true -> fltb x y = true -> fltb x z = true.
Proof.
  destruct x as [a| | |], y as [b| | |], z as [c| | |];
    try discriminate; try reflexivity.
  rewrite feqb_Fin, !fltb_Fin. intros E H. now rewrite <- E.
Qed.

Lemma feqb_sym (x y : pyfloat) : feqb x y = true -> feqb y x = true.
Proof.
  destruct x as [a| | |], y as [b| | |]; try discriminate; try reflexivity.
  rewrite !feqb_Fin. intros E. now symmetry.
Qed.

Lemma feqb_trans (x y z : pyfloat) :
  feqb x y = true -> feqb y z = true -> feqb x z = true.
Proof.
  destruct x as [a| | |], y as [b| | |], z as [c| | |];
    try discriminate; try reflexivity.
  rewrite !feqb_Fin. intros E1 E2. now rewrite E1.
Qed.

Lemma fltb_irrefl (x : pyfloat) : fltb x x = false.
Proof.
  destruct x as [a| | |]; try reflexivity.
  apply not_true_is_false. rewrite fltb_Fin. apply Qlt_irrefl.
Qed.

Lemma bool_ext (a b : bool) : (a = true <-> b = true) -> a = b.
Proof. destruct a, b; intros [H1 H2]; auto; symmetry; auto. Qed.

Lemma count_ext (p q : pyfloat -> bool) (col : list pyfloat) :
  (forall z, p z = q z) -> count p col = count q col.
Proof. intros H. unfold count. now rewrite (filter_ext p q H). Qed.

Lemma count2_le (p q r : pyfloat -> bool) (col : list pyfloat) :
  (forall z, p z = true -> q z = false) ->
  (forall z, p z = true -> r z = true) ->
  (forall z, q z = true -> r z = true) ->
  (count p col + count q col <= count r col)%nat.
Proof.
  intros Hpq Hpr Hqr. unfold count.
  induction col as [|z col IH]; simpl; [lia|].
  destruct (p z) eqn:Ep.
  - rewrite (Hpq z Ep), (Hpr z Ep). simpl. lia.
  - destruct (q z) eqn:Eq.
    + rewrite (Hqr z Eq). simpl. lia.
    + destruct (r z); simpl; lia.
Qed.

(** ** Direction and ties *)

Lemma avg_rank_lt (asc : bool) (na : na_option) (col : list pyfloat) (lo hi : pyfloat) :
  In lo col -> isnan lo = false -> isnan hi = false ->
  (forall z, precedes asc lo z = true -> precedes asc hi z = true) ->
  (forall z, feqb lo z = true -> precedes asc hi z = true) ->
  avg_rank asc na col lo < avg_rank asc na col hi.
Proof.
  intros Hin Hlo Hhi H1 H2. unfold avg_rank. rewrite Hlo, Hhi. cbv zeta.
  assert (HT : 1 <= Qnat (count (feqb lo) col)).
  { apply (@Qnat_le 1). apply count_In with (x := lo); [exact Hin | now apply feqb_refl]. }
  assert (HT' : 0 <= Qnat (count (feqb hi) col)) by (apply (@Qnat_le 0); lia).
  assert (HB : Qnat (count (precedes asc lo) col) + Qnat (count (feqb lo) col)
               <= Qnat (count (precedes asc hi) col)).
  { rewrite <- Qnat_plus. apply Qnat_le. apply count2_le; auto.
    intros z. apply precedes_not_eq. }
  unfold Qdiv. change (/ 2) with (1 # 2). lra.
Qed.

Lemma avg_rank_tie (asc : bool) (na : na_option) (col : list pyfloat) (x y : pyfloat) :
  feqb x y = true -> avg_rank asc na col x = avg_rank asc na col y.
Proof.
  intros E. unfold avg_rank.
  assert (Hx : isnan x = false) by (destruct x, y; try discriminate; reflexivity).
  assert (Hy : isnan y = false) by (destruct x, y; try discriminate; reflexivity).
  rewrite Hx, Hy. cbv zeta.
  rewrite (count_ext (precedes asc x) (precedes asc y) col),
    (count_ext (feqb x) (feqb y) col); [reflexivity | |].
  - intros z. apply bool_ext. split; intros H.
    + apply feqb_trans with x; [now apply feqb_sym | exact H].
    + now apply feqb_trans with y.
  - intros z. apply bool_ext. unfold precedes. destruct asc; split; intros H.
    + now apply feqb_fltb_r with x.
    + apply feqb_fltb_r with y; [now apply feqb_sym | exact H].
    + now apply feqb_fltb_l with x.
    + apply feqb_fltb_l with y; [now apply feqb_sym | exact H].
Qed.

(** X7: Every rank follows its direction, whatever the handling of missing
    cells.  Of two present cells the smaller one gets the strictly smaller
    percentile rank when ascending and the strictly larger one when
    descending, and equal cells get the same rank.  So the lighter of two
    cameras has the higher weight rank of the Portability score, the one
    with the higher Max ISO the higher ISO rank of the LowLight score, and
    the one with the smaller crop factor the higher crop rank. *)
Theorem rank_follows_its_direction (ascending : bool) (na : na_option)
    (col : list pyfloat) (i j : nat) (x y : pyfloat) :
  nth_error col i = Some x -> nth_error col j = Some y ->
  (fltb x y = true ->
   exists ri rj,
     nth_error (rank ascending na col) i = Some (Fin ri)
     /\ nth_error (rank ascending na col) j = Some (Fin rj)
     /\ if ascending then ri < rj else rj < ri)
  /\ (feqb x y = true ->
      nth_error (rank ascending na col) i = nth_error (rank ascending na col) j).
Proof.
  intros Hi Hj.
  pose proof (nth_error_In _ _ Hi) as Ini.
  pose proof (nth_error_In _ _ Hj) as Inj.
  pose proof (length_pos_In _ _ Ini) as HN.
  rewrite (nth_error_rank ascending na col i Hi), (nth_error_rank ascending na col j Hj).
  split.
  - intros Hlt. destruct (fltb_not_nan _ _ Hlt) as [Hx Hy].
    eexists. eexists. split; [reflexivity|]. split; [reflexivity|].
    destruct ascending.
    + apply Qdiv_lt; [exact HN|]. apply avg_rank_lt; auto; unfold precedes.
      * intros z Hz. now apply fltb_trans with x.
      * intros z Hz. now apply feqb_fltb_l with x.
    + apply Qdiv_lt; [exact HN|]. apply avg_rank_lt; auto; unfold precedes.
      * intros z Hz. now apply fltb_trans with y.
      * intros z Hz. now apply feqb_fltb_r with y.
  - intros E. now rewrite (@avg_rank_tie ascending na col x y E).
Qed.

Lemma rank_follows_its_direction_witness :
  (exists ri rj,
      nth_error (rank false na_bottom [Fin 300; Fin 1250]) 0 = Some (Fin ri)
      /\ nth_error (rank false na_bottom [Fin 300; Fin 1250]) 1 = Some (Fin rj)
      /\ rj < ri)
  /\ nth_error (rank true na_top [Fin 2.5; Fin 1; Fin (5 # 2)]) 0
     = nth_error (rank true na_top [Fin 2.5; Fin 1; Fin (5 # 2)]) 2.
Proof.
  split.
  - exact (proj1 (@rank_follows_its_direction false na_bottom [Fin 300; Fin 1250]
                    0%nat 1%nat (Fin 300) (Fin 1250) eq_refl eq_refl) eq_refl).
  - exact (proj2 (@rank_follows_its_direction true na_top [Fin 2.5; Fin 1; Fin (5 # 2)]
                    0%nat 2%nat (Fin 2.5) (Fin (5 # 2)) eq_refl eq_refl) eq_refl).
Defined.

(** ** Ranks are fractions of the batch *)

Lemma avg_rank_bounds (asc : bool) (na : na_option) (col : list pyfloat) (x : pyfloat) :
  In x col ->
  0 < avg_rank asc na col x /\ avg_rank asc na col x <= Qnat (length col).
Proof.
  intros Hin. unfold avg_rank. cbv zeta.
  pose proof (length_minus_missing col) as HM.
  assert (HK0 : 0 <= Qnat (count isnan col)) by (apply (@Qnat_le 0); lia).
  assert (HKN : Qnat (count isnan col) <= Qnat (length col))
    by (apply Qnat_le, count_le).
  destruct (isnan x) eqn:Ex.
  - assert (HK : 1 <= Qnat (count isnan col)).
    { apply (@Qnat_le 1). now apply count_In with (x := x). }
    destruct na; [|rewrite HM]; unfold Qdiv; change (/ 2) with (1 # 2); split; lra.
  - assert (HT : 1 <= Qnat (count (feqb x) col)).
    { apply (@Qnat_le 1). apply count_In with (x := x); [exact Hin | now apply feqb_refl]. }
    assert (HB : 0 <= Qnat (count (precedes asc x) col)) by (apply (@Qnat_le 0); lia).
    assert (HS : Qnat (count (precedes asc x) col) + Qnat (count (feqb x) col)
                 + Qnat (count isnan col) <= Qnat (length col)).
    { rewrite <- !Qnat_plus. apply Qnat_le. apply count3.
      - intros z. apply precedes_not_eq.
      - intros z. apply precedes_not_nan.
      - intros z. apply feqb_not_nan. }
    destruct na; unfold Qdiv; change (/ 2) with (1 # 2); split; lra.
Qed.

(** X8: Every percentile rank is a number above 0 and at most 1, for present
    and for missing cells alike. *)
Theorem rank_is_a_fraction (ascending : bool) (na : na_option) (col : list pyfloat) :
  Forall (fun r => exists q, r = Fin q /\ 0 < q /\ q <= 1) (rank ascending na col).
Proof.
  unfold rank. apply Forall_forall. intros r Hr.
  apply in_map_iff in Hr as (x & <- & Hin).
  destruct (avg_rank_bounds ascending na col x Hin) as [H0 HN].
  pose proof (length_pos_In _ _ Hin) as HL.
  eexists. split; [reflexivity|]. split.
  - apply Qlt_shift_div_l; [exact HL|]. lra.
  - apply Qle_shift_div_r; [exact HL|]. lra.
Qed.

(** ** A batch of one record *)

Lemma rank_single (asc : bool) (na : na_option) (x : pyfloat) :
  exists q, rank asc na [x] = [Fin q] /\ q == 1.
Proof.
  unfold rank. cbn [map length]. eexists. split; [reflexivity|].
  unfold avg_rank, count. cbn [filter length].
  destruct (isnan x) eqn:Ex.
  - destruct na; reflexivity.
  - unfold precedes.
    assert (Hp : (if asc then fltb x x else fltb x x) = false)
      by (destruct asc; apply fltb_irrefl).
    rewrite Hp, (feqb_refl x Ex). destruct na; reflexivity.
Qed.

Lemma clip_at_100 (a : Q) : a == 100 -> clip 20 100 (Fin a) = Fin 100.
Proof.
  intros E. unfold clip.
  assert (H1 : Qle_bool a 20 = false).
  { apply not_true_is_false. intros H. apply Qle_bool_iff in H.
    rewrite E in H. now apply H. }
  assert (H2 : Qle_bool 100 a = true).
  { apply Qle_bool_iff. rewrite E. apply Qle_refl. }
  now rewrite H1, H2.
Qed.

Lemma clip_inside (a : Q) : a == 60 -> clip 20 100 (Fin a) = Fin a.
Proof.
  intros E. unfold clip.
  assert (H1 : Qle_bool a 20 = false).
  { apply not_true_is_false. intros H. apply Qle_bool_iff in H.
    rewrite E in H. now apply H. }
  assert (H2 : Qle_bool 100 a = false).
  { apply not_true_is_false. intros H. apply Qle_bool_iff in H.
    rewrite E in H. now apply H. }
  now rewrite H1, H2.
Qed.

Lemma portability_single (w l wd h : pyfloat) :
  portability [w] [l] [wd] [h] = [Fin 100].
Proof.
  unfold portability.
  destruct (rank_single false na_bottom w) as (q1 & -> & E1).
  destruct (rank_single true na_bottom (finv (fmul (fmul l wd) h))) as (q2 & H2 & E2).
  cbn [smul2 sinv map]. rewrite H2. cbn [smul sadd sclip map fmul fadd].
  rewrite clip_at_100; [reflexivity|]. rewrite E1, E2. reflexivity.
Qed.

Lemma lowlight_single (iso av crop : pyfloat) :
  lowlight [iso] [av] [crop] = [Fin 100].
Proof.
  unfold lowlight.
  destruct (rank_single true na_top iso) as (q1 & -> & E1).
  destruct (rank_single true na_top av) as (q2 & -> & E2).
  destruct (rank_single false na_top crop) as (q3 & -> & E3).
  cbn [smul sadd sclip map fmul fadd].
  rewrite clip_at_100; [reflexivity|]. rewrite E1, E2, E3. reflexivity.
Qed.

Lemma video_single (k : bool) (size shutter : pyfloat) :
  exists v, video [k] [size] [shutter] = [Fin v]
            /\ v == if k then 100 else 60.
Proof.
  unfold video.
  destruct (rank_single true na_top size) as (q1 & -> & E1).
  destruct (rank_single true na_top shutter) as (q2 & -> & E2).
  destruct k; cbn [astype_int smul sadd sclip map fmul fadd].
  - exists 100. split; [|reflexivity].
    rewrite clip_at_100; [reflexivity|]. rewrite E1, E2. reflexivity.
  - eexists. split.
    + rewrite clip_inside; [reflexivity|]. rewrite E1, E2. reflexivity.
    + rewrite E1, E2. reflexivity.
Qed.

Lemma apply_single {A B : Type} (f : A -> result B) (x : A) (l : list B) :
  apply f [x] = Ok l -> exists y, l = [y].
Proof.
  simpl. destruct (f x) as [y|]; [|discriminate]. simpl.
  intros H; injection H as <-. now exists y.
Qed.

(** X9: Scores are relative to the batch, and a batch of one record has no
    one to compare with: its Portability and LowLight scores are 100 and
    its Video score is 100 with the 4K flag and 60 without, whatever the
    record holds, missing values included. *)
Theorem single_record_scores (to_numeric : pystr -> pyfloat)
    (cols : list label) (r : camera) (out : CleanFrame) :
  clean_and_derive_features to_numeric {| columns := cols; rows := [r] |} = Ok out ->
  Portability_Score out = [Fin 100]
  /\ LowLight_Score out = [Fin 100]
  /\ exists v,
       Video_Score out = [Fin v]
       /\ v == if str_contains re_4k (astype_str (Max_video_resolution r))
               then 100 else 60.
Proof.
  intros H. invert_transform H. cbn [columns rows map] in *.
  cbn [Portability_Score LowLight_Score Video_Score].
  repeat match goal with
         | E : apply _ [_] = Ok _ |- _ => apply apply_single in E; destruct E as [? ->]
         end.
  subst. cbn [map sinv].
  split; [apply portability_single|].
  split; [apply lowlight_single|].
  apply video_single.
Qed.

Lemma single_record_scores_witness :
  match clean_and_derive_features to_numeric_decimal
          {| columns := schema; rows := [camera_b] |} with
  | Ok out =>
      Portability_Score out = [Fin 100]
      /\ LowLight_Score out = [Fin 100]
      /\ exists v, Video_Score out = [Fin v] /\ v == 60
  | Raise _ => False
  end.
Proof.
  destruct (clean_and_derive_features to_numeric_decimal
              {| columns := schema; rows := [camera_b] |}) as [out|e] eqn:E.
  - exact (single_record_scores to_numeric_decimal schema camera_b E).
  - vm_compute in E. discriminate E.
Defined.

(** * Further properties of the transform *)

(** ** The last step *)

Lemma index_In (name : label) (cols : list label) :
  In name cols -> exists i, index name cols = Ok i.
Proof.
  induction cols as [|c cols IH]; [contradiction|]. simpl.
  destruct (String.eqb c name) eqn:E; [now exists O|].
  intros [->|Hin]; [now rewrite String.eqb_refl in E|].
  destruct (IH Hin) as [i ->]. now exists (S i).
Qed.

Lemma index_not_In (name : label) (cols : list label) :
  ~ In name cols -> index name cols = Raise ValueError.
Proof.
  induction cols as [|c cols IH]; [reflexivity|]. intros H. simpl.
  destruct (String.eqb c name) eqn:E.
  - apply String.eqb_eq in E. exfalso. apply H. now left.
  - rewrite IH; [reflexivity|]. intros Hin. apply H. now right.
Qed.

Lemma list_remove_perm (x : label) (l : list label) :
  In x l -> Permutation l (x :: list_remove x l).
Proof.
  induction l as [|c l IH]; [contradiction|]. simpl.
  destruct (String.eqb c x) eqn:E.
  - apply String.eqb_eq in E. now subst.
  - intros [->|Hin]; [now rewrite String.eqb_refl in E|].
    rewrite perm_swap. now apply perm_skip, IH.
Qed.

Lemma list_insert_perm (i : nat) (x : label) (l : list label) :
  Permutation (x :: l) (list_insert i x l).
Proof.
  revert l. induction i as [|i IH]; intros l; [reflexivity|].
  destruct l as [|c l]; [reflexivity|]. simpl.
  rewrite perm_swap. apply perm_skip, IH.
Qed.

Lemma filter_list_remove (x : label) (l : list label) :
  filter (fun c => negb (String.eqb c x)) (list_remove x l)
  = filter (fun c => negb (String.eqb c x)) l.
Proof.
  induction l as [|c l IH]; [reflexivity|]. simpl.
  destruct (String.eqb c x) eqn:E; simpl; [reflexivity|].
  now rewrite E, IH.
Qed.

Lemma filter_list_insert (i : nat) (x : label) (l : list label) :
  filter (fun c => negb (String.eqb c x)) (list_insert i x l)
  = filter (fun c => negb (String.eqb c x)) l.
Proof.
  revert l. induction i as [|i IH]; intros l.
  - simpl. now rewrite String.eqb_refl.
  - destruct l as [|c l]; simpl.
    + now rewrite String.eqb_refl.
    + now rewrite IH.
Qed.

Lemma filter_eqb_notin (c : label) (h : list label) :
  ~ In c h -> filter (String.eqb c) h = [].
Proof.
  induction h as [|d h IH]; [reflexivity|]. intros H. simpl.
  destruct (String.eqb c d) eqn:E.
  - apply String.eqb_eq in E. subst d. exfalso. apply H. now left.
  - apply IH. intros Hin. apply H. now right.
Qed.

Lemma filter_eqb_nodup (c : label) (h : list label) :
  NoDup h -> In c h -> filter (String.eqb c) h = [c].
Proof.
  induction 1 as [|d h Hd Hnd IH]; [contradiction|]. simpl.
  destruct (String.eqb c d) eqn:E.
  - apply String.eqb_eq in E. subst d. intros _. now rewrite filter_eqb_notin.
  - intros [->|Hin]; [now rewrite String.eqb_refl in E | now apply IH].
Qed.

(** On a frame with distinct labels the selection is the list of labels
    asked for. *)
Lemma getitem_columns_nodup (h l : list label) :
  NoDup h -> (forall x, In x l -> In x h) -> getitem_columns h l = l.
Proof.
  intros Hnd. unfold getitem_columns.
  induction l as [|c l IH]; intros H; [reflexivity|]. cbn [flat_map].
  rewrite filter_eqb_nodup; [|exact Hnd | apply H; now left].
  rewrite IH; [reflexivity|]. intros x Hx. apply H. now right.
Qed.

Lemma filter_repeat (c d : label) (k : nat) :
  filter (String.eqb c) (repeat d k) = if String.eqb c d then repeat d k else [].
Proof.
  induction k as [|k IH]; simpl.
  - now destruct (String.eqb c d).
  - rewrite IH. now destruct (String.eqb c d).
Qed.

(** Selecting by label multiplies: a label named [n] times and carried by
    [m] columns is carried by [n * m] columns of the selection. *)
Lemma length_filter_getitem_columns (c : label) (h l : list label) :
  length (filter (String.eqb c) (getitem_columns h l))
  = (length (filter (String.eqb c) l) * length (filter (String.eqb c) h))%nat.
Proof.
  unfold getitem_columns. induction l as [|d l IH]; [reflexivity|].
  cbn [flat_map filter]. rewrite filter_app, length_app, IH.
  rewrite (filter_eqb_repeat d h), filter_repeat.
  destruct (String.eqb c d) eqn:E.
  - apply String.eqb_eq in E. subst d.
    rewrite <- (filter_eqb_repeat c h). simpl. reflexivity.
  - simpl. reflexivity.
Qed.

Lemma filter_length_perm {A : Type} (p : A -> bool) (l l' : list A) :
  Permutation l l' -> length (filter p l) = length (filter p l').
Proof.
  induction 1 as [|x l l' _ IH|x y l|l l' l'' _ IH1 _ IH2]; simpl.
  - reflexivity.
  - destruct (p x); simpl; now rewrite IH.
  - destruct (p x), (p y); reflexivity.
  - congruence.
Qed.

(** X10: The last step moves [Min_Aperture_F] and selects the columns of the
    frame in the new order.  On a frame with distinct labels that has
    [Max aperture] it returns the same columns, all others in their order;
    without [Max aperture] it raises [ValueError].  When columns share a
    label, the selection by label brings each of them every time the label
    is named: a label carried by [k] columns is carried by [k * k] columns
    of the result. *)
Theorem reorder_moves_one_column (cols : list label) :
  (In "Max aperture" cols -> NoDup cols ->
   exists l,
     reordered cols = Ok l
     /\ Permutation cols l
     /\ filter (fun c => negb (String.eqb c "Min_Aperture_F")) l
        = filter (fun c => negb (String.eqb c "Min_Aperture_F")) cols)
  /\ (~ In "Max aperture" cols -> reordered cols = Raise ValueError)
  /\ (In "Max aperture" cols -> In "Min_Aperture_F" cols ->
      exists l,
        reordered cols = Ok l
        /\ forall c,
             length (filter (String.eqb c) l)
             = (length (filter (String.eqb c) cols)
                * length (filter (String.eqb c) cols))%nat).
Proof.
  split; [|split].
  - intros Hin Hnd. unfold reordered, reorder.
    destruct (index_In _ _ Hin) as [i ->]. cbn [bind].
    destruct (has "Min_Aperture_F" cols) eqn:Eh; cbn [bind]; rewrite ?Eh.
    + apply has_In in Eh.
      assert (HP : Permutation cols
                     (list_insert (i + 1) "Min_Aperture_F"
                        (list_remove "Min_Aperture_F" cols))).
      { rewrite <- list_insert_perm. now apply list_remove_perm. }
      eexists. split; [reflexivity|].
      rewrite getitem_columns_nodup;
        [|exact Hnd | intros x Hx; now apply (Permutation_in x (Permutation_sym HP))].
      split; [exact HP|].
      now rewrite filter_list_insert, filter_list_remove.
    + exists cols. auto.
  - intros Hn. unfold reordered, reorder. now rewrite index_not_In.
  - intros Hin Hmin. unfold reordered, reorder.
    destruct (index_In _ _ Hin) as [i ->]. cbn [bind].
    apply has_In in Hmin. rewrite Hmin. cbn [bind].
    apply has_In in Hmin.
    eexists. split; [reflexivity|]. intros c.
    rewrite length_filter_getitem_columns. f_equal.
    apply filter_length_perm. symmetry.
    rewrite <- list_insert_perm. now apply list_remove_perm.
Qed.

Lemma reorder_moves_one_column_witness :
  (exists l,
      reordered (schema ++ ["Min_Aperture_F"]) = Ok l
      /\ Permutation (schema ++ ["Min_Aperture_F"]) l
      /\ filter (fun c => negb (String.eqb c "Min_Aperture_F")) l
         = filter (fun c => negb (String.eqb c "Min_Aperture_F"))
                  (schema ++ ["Min_Aperture_F"]))
  /\ reordered ["Name"; "Weight"] = Raise ValueError
  /\ (exists l,
         reordered ["Max aperture"; "Screen_Res_Dots"; "Screen_Res_Dots"; "Min_Aperture_F"]
         = Ok l
         /\ length (filter (String.eqb "Screen_Res_Dots") l) = 4%nat).
Proof.
  split; [|split].
  - apply (proj1 (reorder_moves_one_column (schema ++ ["Min_Aperture_F"]))).
    + simpl. tauto.
    + repeat (constructor;
              [simpl; intros H; repeat (destruct H as [H|H]; [discriminate H|]); exact H|]).
      constructor.
  - apply (proj1 (proj2 (reorder_moves_one_column ["Name"; "Weight"]))).
    simpl. intros [H|[H|H]]; [discriminate H | discriminate H | exact H].
  - destruct (proj2 (proj2 (reorder_moves_one_column
                              ["Max aperture"; "Screen_Res_Dots"; "Screen_Res_Dots";
                               "Min_Aperture_F"])))
      as (l & Hl & Hc).
    + simpl. tauto.
    + simpl. tauto.
    + exists l. split; [exact Hl|]. exact (Hc "Screen_Res_Dots").
Defined.

(** ** Columns the transform needs and leaves *)

Lemma In_setitem (x name : label) (l : list label) :
  In x (setitem l name) <-> In x l \/ x = name.
Proof.
  unfold setitem. destruct (has name l) eqn:E.
  - split; [auto|]. intros [H| ->]; [exact H | now apply has_In].
  - rewrite in_app_iff. simpl. intuition auto.
Qed.

Lemma In_setitem_inv (x name : label) (l : list label) :
  In x (setitem l name) -> x <> name -> In x l.
Proof.
  intros H Hn. apply In_setitem in H as [H|H]; [exact H | contradiction].
Qed.

Lemma In_rename_inv (x : label) (l : list label) :
  In x (rename renamed l) -> ~ In x (map snd renamed) -> In x l.
Proof.
  intros H Hn. unfold rename in H. apply in_map_iff in H as (c & Hc & Hin).
  apply (@rename_keeps x c Hn) in Hc. now subst.
Qed.

Lemma not_In_closed (x : label) (l : list label) : has x l = false -> ~ In x l.
Proof. intros H Hin. apply has_In in Hin. congruence. Qed.

Lemma transform_header (to_numeric : pystr -> pyfloat) (df : DataFrame) (out : CleanFrame) :
  clean_and_derive_features to_numeric df = Ok out ->
  reordered (header_before_reorder (columns df)) = Ok (out_columns out).
Proof.
  intros H. invert_transform H. cbn [out_columns]. assumption.
Qed.

Ltac source_column :=
  match goal with
  | Hh : has ?n _ = true |- In ?n _ =>
      apply has_In in Hh;
      repeat (apply In_setitem_inv in Hh; [|discriminate]);
      try (apply In_rename_inv in Hh; [|apply not_In_closed; reflexivity]);
      repeat (apply In_setitem_inv in Hh; [|discriminate]);
      exact Hh
  end.

Lemma transform_needs_columns (to_numeric : pystr -> pyfloat)
    (df : DataFrame) (out : CleanFrame) :
  clean_and_derive_features to_numeric df = Ok out ->
  forall name, In name source_columns -> In name (columns df).
Proof.
  intros H name Hn. invert_transform H.
  unfold source_columns in Hn. simpl in Hn.
  repeat (destruct Hn as [<-|Hn]; [source_column|]). contradiction.
Qed.

(** X13: The transform returns only on a table that has all sixteen source
    columns: when one of them is missing it raises, whatever the records
    hold, and with [Weight] missing the exception is [KeyError]. *)
Theorem missing_source_column_raises (to_numeric : pystr -> pyfloat)
    (df : DataFrame) (name : label) :
  In name source_columns -> ~ In name (columns df) ->
  (exists e, clean_and_derive_features to_numeric df = Raise e)
  /\ (name = "Weight" -> clean_and_derive_features to_numeric df = Raise KeyError).
Proof.
  intros Hn Hmissing. split.
  - destruct (clean_and_derive_features to_numeric df) as [out|e] eqn:E; [|now exists e].
    exfalso. apply Hmissing. now apply (transform_needs_columns to_numeric df E).
  - intros ->. unfold clean_and_derive_features, getitem.
    assert (Hh : has "Weight" (columns df) = false).
    { apply not_true_is_false. intros Hh. apply has_In in Hh. contradiction. }
    now rewrite Hh.
Qed.

Lemma missing_source_column_raises_witness :
  (exists e,
      clean_and_derive_features to_numeric_decimal
        {| columns := ["Name"; "Weight"; "ISO"]; rows := [camera_a] |} = Raise e)
  /\ clean_and_derive_features to_numeric_decimal
       {| columns := ["Name"; "ISO"]; rows := [camera_a] |} = Raise KeyError.
Proof.
  split.
  - refine (proj1 (@missing_source_column_raises to_numeric_decimal
                     {| columns := ["Name"; "Weight"; "ISO"]; rows := [camera_a] |}
                     "Crop factor" _ _)).
    + unfold source_columns. simpl. tauto.
    + apply not_In_closed. reflexivity.
  - refine (proj2 (@missing_source_column_raises to_numeric_decimal
                     {| columns := ["Name"; "ISO"]; rows := [camera_a] |}
                     "Weight" _ _) eq_refl).
    + unfold source_columns. simpl. tauto.
    + apply not_In_closed. reflexivity.
Defined.

Lemma reorder_perm (cols l : list label) : reorder cols = Ok l -> Permutation cols l.
Proof.
  unfold reorder. destruct (index "Max aperture" cols) as [i|]; [|discriminate].
  cbn [bind]. destruct (has "Min_Aperture_F" cols) eqn:Eh.
  - intros H; injection H as <-. apply has_In in Eh.
    rewrite <- list_insert_perm. now apply list_remove_perm.
  - now intros H; injection H as <-.
Qed.

Lemma In_getitem_columns (x : label) (h l : list label) :
  In x (getitem_columns h l) <-> In x l /\ In x h.
Proof.
  unfold getitem_columns. rewrite in_flat_map. split.
  - intros (c & Hc & Hin). apply filter_In in Hin as [Hin E].
    apply String.eqb_eq in E. subst c. auto.
  - intros [Hl Hh]. exists x. split; [exact Hl|].
    apply filter_In. split; [exact Hh | apply String.eqb_refl].
Qed.

Lemma reordered_In (cols l : list label) :
  reordered cols = Ok l -> forall x, In x l <-> In x cols.
Proof.
  unfold reordered. destruct (reorder cols) as [l0|] eqn:E; [|discriminate].
  apply reorder_perm in E. cbn [bind].
  destruct (has "Min_Aperture_F" cols); intros H; injection H as <-; intros x.
  - rewrite In_getitem_columns. split; [tauto|].
    intros Hx. split; [|exact Hx]. now apply (Permutation_in x E).
  - tauto.
Qed.

Lemma header_before_reorder_In (x : label) (cols : list label) :
  In x (header_before_reorder cols) <->
  In x (rename renamed (setitem cols "Min_Aperture_F"))
  \/ In x [ "Dim_L"; "Dim_W"; "Dim_H"; "Supports_4K"; "Portability_Score";
            "Aperture_Value"; "LowLight_Score"; "Video_Score" ].
Proof.
  unfold header_before_reorder. rewrite !In_setitem. simpl. intuition auto.
Qed.

Lemma lookup_key (m : list (label * label)) (k : label) :
  In k (map fst m) -> exists v, lookup m k = Some v.
Proof.
  induction m as [|[k' v'] m IH]; [contradiction|]. simpl.
  destruct (String.eqb k' k) eqn:E; [now exists v'|].
  intros [->|Hin]; [now rewrite String.eqb_refl in E | now apply IH].
Qed.

Lemma lookup_not_key (m : list (label * label)) (k : label) :
  ~ In k (map fst m) -> lookup m k = None.
Proof.
  induction m as [|[k' v'] m IH]; [reflexivity|]. simpl. intros H.
  destruct (String.eqb k' k) eqn:E.
  - apply String.eqb_eq in E. exfalso. apply H. now left.
  - apply IH. intros Hin. apply H. now right.
Qed.

Lemma In_rename (c : label) (l : list label) :
  In c l ->
  In (match lookup renamed c with Some v => v | None => c end) (rename renamed l).
Proof.
  intros H. unfold rename.
  apply (in_map (fun c => match lookup renamed c with Some v => v | None => c end)).
  exact H.
Qed.

Lemma closed_forall (p : label -> bool) (l : list label) (P : label -> Prop) :
  forallb p l = true -> (forall x, p x = true -> P x) -> forall x, In x l -> P x.
Proof.
  intros H HP x Hin. rewrite forallb_forall in H. auto.
Qed.

Lemma key_not_target (k : label) :
  In k (map fst renamed) -> ~ In k (map snd renamed).
Proof.
  revert k.
  apply (@closed_forall (fun k => negb (has k (map snd renamed))) (map fst renamed)
           (fun k => ~ In k (map snd renamed))); [reflexivity|].
  intros x Hx. apply not_In_closed. now apply negb_true_iff.
Qed.

Lemma key_not_added (k : label) :
  In k (map fst renamed) ->
  ~ In k [ "Min_Aperture_F"; "Dim_L"; "Dim_W"; "Dim_H"; "Supports_4K";
           "Portability_Score"; "Aperture_Value"; "LowLight_Score"; "Video_Score" ].
Proof.
  revert k.
  apply (@closed_forall (fun k => negb (has k derived_columns)) (map fst renamed)
           (fun k => ~ In k derived_columns)); [reflexivity|].
  intros x Hx. apply not_In_closed. now apply negb_true_iff.
Qed.

Lemma key_is_source (k : label) : In k (map fst renamed) -> In k source_columns.
Proof.
  revert k.
  apply (@closed_forall (fun k => has k source_columns) (map fst renamed)
           (fun k => In k source_columns)); [reflexivity|].
  intros x. apply has_In.
Qed.

Lemma renamed_keys_nodup : NoDup (map fst renamed).
Proof.
  simpl.
  repeat (constructor;
          [simpl; intros H; repeat (destruct H as [H|H]; [discriminate H|]); exact H|]).
  constructor.
Qed.

Lemma lookup_pair (m : list (label * label)) (k v : label) :
  NoDup (map fst m) -> In (k, v) m -> lookup m k = Some v.
Proof.
  induction m as [|[k' v'] m IH]; [contradiction|]. simpl.
  intros Hnd Hin. apply NoDup_cons_iff in Hnd as [Hk' Hnd].
  destruct Hin as [Hin|Hin].
  - injection Hin as -> ->. now rewrite String.eqb_refl.
  - destruct (String.eqb k' k) eqn:E; [|now apply IH].
    apply String.eqb_eq in E. subst k'. exfalso. apply Hk'.
    now apply (in_map fst) in Hin.
Qed.

Lemma target_of_key (v : label) :
  In v (map snd renamed) ->
  exists k, In k (map fst renamed) /\ lookup renamed k = Some v.
Proof.
  intros H. apply in_map_iff in H as ([k v'] & Hv & Hin). simpl in Hv. subst v'.
  exists k. split.
  - now apply (in_map fst) in Hin.
  - now apply lookup_pair; [apply renamed_keys_nodup|].
Qed.

(** X12: The header of the output: the nine cleaned columns carry their new
    names and no column keeps one of the nine old names; the nine derived
    columns are there; and every other input column is still there. *)
Theorem output_column_names (to_numeric : pystr -> pyfloat)
    (df : DataFrame) (out : CleanFrame) :
  clean_and_derive_features to_numeric df = Ok out ->
  (forall k, In k (map fst renamed) -> ~ In k (out_columns out))
  /\ (forall v, In v (map snd renamed) -> In v (out_columns out))
  /\ (forall d, In d derived_columns -> In d (out_columns out))
  /\ (forall c, In c (columns df) -> ~ In c (map fst renamed) -> In c (out_columns out)).
Proof.
  intros H.
  pose proof (@reordered_In _ _ (transform_header to_numeric df H)) as Hout.
  pose proof (transform_needs_columns to_numeric df H) as Hsrc.
  split; [|split; [|split]].
  - intros k Hk Hin. apply Hout, header_before_reorder_In in Hin as [Hin|Hin].
    + unfold rename in Hin. apply in_map_iff in Hin as (c & Hc & _).
      pose proof (@rename_keeps k c (@key_not_target k Hk) Hc) as ->.
      destruct (@lookup_key renamed k Hk) as [v Hv]. rewrite Hv in Hc. subst v.
      apply lookup_In in Hv. now apply (@key_not_target k Hk).
    + apply (@key_not_added k Hk). now right.
  - intros v Hv. apply Hout, header_before_reorder_In. left.
    destruct (@target_of_key v Hv) as (k & Hk & Hl).
    assert (Hin : In k (setitem (columns df) "Min_Aperture_F")).
    { apply In_setitem. left. apply Hsrc. now apply key_is_source. }
    apply In_rename in Hin. now rewrite Hl in Hin.
  - intros d Hd. apply Hout, header_before_reorder_In.
    destruct Hd as [<-|Hd]; [|now right].
    left. apply (@In_rename "Min_Aperture_F"). apply In_setitem. now right.
  - intros c Hc Hn. apply Hout, header_before_reorder_In. left.
    assert (Hin : In c (setitem (columns df) "Min_Aperture_F"))
      by (apply In_setitem; now left).
    apply In_rename in Hin. now rewrite (@lookup_not_key renamed c Hn) in Hin.
Qed.

Lemma output_column_names_witness :
  match clean_and_derive_features to_numeric_decimal sample with
  | Ok out =>
      ~ In "Weight" (out_columns out)
      /\ In "Weight_g" (out_columns out)
      /\ In "Video_Score" (out_columns out)
      /\ In "Name" (out_columns out)
  | Raise _ => False
  end.
Proof.
  destruct (clean_and_derive_features to_numeric_decimal sample) as [out|e] eqn:E.
  - destruct (output_column_names to_numeric_decimal sample E) as (H1 & H2 & H3 & H4).
    split; [apply H1; simpl; tauto|].
    split; [apply H2; simpl; tauto|].
    split; [apply H3; simpl; tauto|].
    apply H4; [simpl; tauto|].
    apply not_In_closed. reflexivity.
  - vm_compute in E. discriminate E.
Defined.

Lemma derived_column_follows_source_witness :
  match clean_and_derive_features to_numeric_decimal sample with
  | Ok out =>
      exists pre post,
        out_columns out = pre ++ "Max aperture" :: "Min_Aperture_F" :: post
  | Raise _ => False
  end.
Proof.
  destruct (clean_and_derive_features to_numeric_decimal sample) as [out|e] eqn:E.
  - apply (derived_column_follows_source to_numeric_decimal sample E).
    apply not_In_closed. reflexivity.
  - vm_compute in E. discriminate E.
Defined.

(** ** Cells and rows *)

Lemma apply_Forall2 {A B : Type} (f : A -> result B) (l : list A) (ys : list B) :
  apply f l = Ok ys -> Forall2 (fun x y => f x = Ok y) l ys.
Proof.
  revert ys. induction l as [|x l IH]; intros ys; simpl.
  - intros H; injection H as <-. constructor.
  - destruct (f x) as [y|] eqn:E; [|discriminate]. simpl.
    destruct (apply f l) as [zs|]; [|discriminate]. simpl.
    intros H; injection H as <-. constructor; [exact E | now apply IH].
Qed.

Lemma Forall2_map_l {A B C : Type} (g : A -> B) (R : B -> C -> Prop)
    (l : list A) (ys : list C) :
  Forall2 R (map g l) ys -> Forall2 (fun x y => R (g x) y) l ys.
Proof.
  revert ys. induction l as [|x l IH]; intros ys H; inversion H; subst; constructor; auto.
Qed.

Lemma apply_rows {A B C : Type} (g : A -> B) (f : B -> result C)
    (l : list A) (ys : list C) :
  apply f (map g l) = Ok ys -> Forall2 (fun r y => f (g r) = Ok y) l ys.
Proof.
  intros H. apply (@Forall2_map_l A B C g (fun x y => f x = Ok y)).
  now apply apply_Forall2.
Qed.

(** X14: Cleaning is cell by cell: in the output, the cleaned cell of a record
    is what the column's normalizer returns on that record's raw cell, and
    no cell of another record enters it; so the output has the rows of the
    input, in their order. *)
Theorem cleaned_cells_are_row_by_row (to_numeric : pystr -> pyfloat)
    (df : DataFrame) (out : CleanFrame) :
  clean_and_derive_features to_numeric df = Ok out ->
  Forall2 (fun r v => clean_weight (Weight r) = Ok v) (rows df) (Weight_g out)
  /\ Forall2 (fun r v => clean_max_iso (ISO r) = Ok v) (rows df) (Max_ISO out)
  /\ Forall2 (fun r v => clean_shutter_speed (Min_shutter_speed r) = Ok v)
       (rows df) (Min_Shutter_Speed_Sec out)
  /\ Forall2 (fun r v => clean_shutter_speed (Max_shutter_speed r) = Ok v)
       (rows df) (Max_Shutter_Speed_Sec out)
  /\ Forall2 (fun r v => clean_exposure_range (Exposure_Compensation r) = Ok v)
       (rows df) (Max_Exposure_Comp out)
  /\ Forall2 (fun r v => clean_screen_res (Screen_resolution r) = Ok v)
       (rows df) (Screen_Res_Dots out)
  /\ Forall2 (fun r v => clean_screen_size to_numeric (Screen_size r) = Ok v)
       (rows df) (Screen_Size_in out)
  /\ Forall2 (fun r v => clean_focus_range (Normal_focus_range r) = Ok v)
       (rows df) (Normal_Focus_cm out)
  /\ Forall2 (fun r v => clean_focus_range (Macro_focus_range r) = Ok v)
       (rows df) (Macro_Focus_cm out)
  /\ Forall2 (fun r v => clean_aperture_f (Max_aperture r) = Ok v)
       (rows df) (Min_Aperture_F out)
  /\ (exists dims,
         Forall2 (fun r t => clean_dimensions (Dimensions r) = Ok t) (rows df) dims
         /\ Dim_L out = map (fun t : triple => fst (fst t)) dims
         /\ Dim_W out = map (fun t : triple => snd (fst t)) dims
         /\ Dim_H out = map (fun t : triple => snd t) dims)
  /\ Supports_4K out
     = map (fun r => str_contains re_4k (astype_str (Max_video_resolution r))) (rows df)
  /\ Crop_factor_n out = map (fun r => to_numeric_cell to_numeric (Crop_factor r)) (rows df).
Proof.
  intros H. invert_transform H.
  cbn [Weight_g Max_ISO Min_Shutter_Speed_Sec Max_Shutter_Speed_Sec Max_Exposure_Comp
       Screen_Res_Dots Screen_Size_in Normal_Focus_cm Macro_Focus_cm Min_Aperture_F
       Dim_L Dim_W Dim_H Supports_4K Crop_factor_n].
  repeat match goal with
         | E : apply _ (map _ _) = Ok _ |- _ => apply apply_rows in E
         end.
  subst. rewrite !map_map.
  repeat (split; [assumption|]).
  split; [|split; reflexivity].
  eexists. split; [eassumption|]. repeat split.
Qed.

Lemma cleaned_cells_are_row_by_row_witness :
  match clean_and_derive_features to_numeric_decimal sample with
  | Ok out =>
      Forall2 (fun r v => clean_weight (Weight r) = Ok v) (rows sample) (Weight_g out)
  | Raise _ => False
  end.
Proof.
  destruct (clean_and_derive_features to_numeric_decimal sample) as [out|e] eqn:E.
  - exact (proj1 (cleaned_cells_are_row_by_row to_numeric_decimal sample E)).
  - vm_compute in E. discriminate E.
Defined.

Lemma apply_row_ok {A B C : Type} (g : A -> B) (f : B -> result C)
    (l : list A) (ys : list C) (r : A) :
  apply f (map g l) = Ok ys -> In r l -> exists v, f (g r) = Ok v.
Proof.
  intros H Hin. apply apply_succeeds in H. rewrite Forall_forall in H.
  apply H. now apply in_map.
Qed.

Lemma cleaned_cells_rows (to_numeric : pystr -> pyfloat)
    (df : DataFrame) (out : CleanFrame) :
  clean_and_derive_features to_numeric df = Ok out ->
  forall r, In r (rows df) ->
    (exists v, clean_weight (Weight r) = Ok v)
    /\ (exists v, clean_shutter_speed (Min_shutter_speed r) = Ok v)
    /\ (exists v, clean_shutter_speed (Max_shutter_speed r) = Ok v)
    /\ (exists v, clean_exposure_range (Exposure_Compensation r) = Ok v)
    /\ (exists v, clean_focus_range (Normal_focus_range r) = Ok v)
    /\ (exists v, clean_focus_range (Macro_focus_range r) = Ok v)
    /\ (exists v, clean_aperture_f (Max_aperture r) = Ok v).
Proof.
  intros H r Hin. invert_transform H.
  repeat split;
    match goal with
    | E : apply ?f (map ?g _) = Ok _ |- exists v, ?f (?g r) = Ok v =>
        exact (apply_row_ok g f _ r E Hin)
    end.
Qed.

(** X15: One cell that a normalizer raises on aborts the whole batch: the
    transform raises and returns no table, not even for the other
    records. *)
Theorem one_bad_cell_aborts_the_batch (to_numeric : pystr -> pyfloat)
    (df : DataFrame) (r : camera) (e : exn) :
  In r (rows df) ->
  clean_weight (Weight r) = Raise e
  \/ clean_shutter_speed (Min_shutter_speed r) = Raise e
  \/ clean_shutter_speed (Max_shutter_speed r) = Raise e
  \/ clean_exposure_range (Exposure_Compensation r) = Raise e
  \/ clean_focus_range (Normal_focus_range r) = Raise e
  \/ clean_focus_range (Macro_focus_range r) = Raise e
  \/ clean_aperture_f (Max_aperture r) = Raise e ->
  exists e', clean_and_derive_features to_numeric df = Raise e'.
Proof.
  intros Hin Hbad.
  destruct (clean_and_derive_features to_numeric df) as [out|e'] eqn:E; [|now exists e'].
  exfalso.
  destruct (cleaned_cells_rows to_numeric df E r Hin) as (H1 & H2 & H3 & H4 & H5 & H6 & H7).
  destruct Hbad as [Hb|[Hb|[Hb|[Hb|[Hb|[Hb|Hb]]]]]];
    [destruct H1 as [v Hv] | destruct H2 as [v Hv] | destruct H3 as [v Hv]
     | destruct H4 as [v Hv] | destruct H5 as [v Hv] | destruct H6 as [v Hv]
     | destruct H7 as [v Hv]]; congruence.
Qed.

Lemma one_bad_cell_aborts_the_batch_witness :
  exists e',
    clean_and_derive_features to_numeric_decimal
      {| columns := schema; rows := [camera_a; camera_c; camera_b] |} = Raise e'.
Proof.
  apply (@one_bad_cell_aborts_the_batch to_numeric_decimal
           {| columns := schema; rows := [camera_a; camera_c; camera_b] |}
           camera_c ValueError).
  - simpl. tauto.
  - left. reflexivity.
Defined.

(** ** What the transform raises *)

Lemma index_raise (name : label) (cols : list label) (e : exn) :
  index name cols = Raise e -> e = ValueError.
Proof.
  induction cols as [|c cols IH]; simpl.
  - now intros H; injection H as <-.
  - destruct (String.eqb c name); [discriminate|].
    destruct (index name cols); simpl; [discriminate|].
    intros H; injection H as <-. now apply IH.
Qed.

Lemma reorder_raise (cols : list label) (e : exn) :
  reorder cols = Raise e -> e = KeyError \/ e = ValueError.
Proof.
  unfold reorder. destruct (index "Max aperture" cols) as [i|e'] eqn:E; simpl.
  - destruct (has _ _); discriminate.
  - intros H; injection H as <-. right. now apply index_raise in E.
Qed.

Lemma reordered_raise (cols : list label) (e : exn) :
  reordered cols = Raise e -> e = KeyError \/ e = ValueError.
Proof.
  unfold reordered. destruct (reorder cols) as [l|e'] eqn:E; cbn [bind].
  - destruct (has _ _); discriminate.
  - intros H; injection H as <-. now apply reorder_raise in E.
Qed.

Lemma setitem_frame_raise {A : Type} (value : list A) (e : exn) :
  setitem_frame value = Raise e -> e = KeyError \/ e = ValueError.
Proof.
  destruct value; simpl; [|discriminate]. intros H; injection H as <-. now right.
Qed.

Lemma score_term_raise (cols : list label) (name : label) (e : exn) :
  score_term cols name = Raise e -> e = KeyError \/ e = ValueError.
Proof.
  unfold score_term. destruct (filter (String.eqb name) cols) as [|c [|d l]];
    [|discriminate|]; intros H; injection H as <-; auto.
Qed.

Lemma getitem_apply_raise {A B : Type} (cols : list label) (name : label)
    (f : A -> result B) (col : list A) (e : exn) :
  (forall x e', f x = Raise e' -> e' = ValueError) ->
  (c <- getitem cols name col ;; apply f c) = Raise e ->
  e = KeyError \/ e = ValueError.
Proof.
  intros Hf. unfold getitem. destruct (has name cols); simpl.
  - intros H. apply apply_raise in H as (x & _ & Hx). right. now apply Hf in Hx.
  - intros H; injection H as <-. now left.
Qed.

Lemma getitem_map_raise {A B : Type} (cols : list label) (name : label)
    (g : list A -> list B) (col : list A) (e : exn) :
  (c <- getitem cols name col ;; Ok (g c)) = Raise e ->
  e = KeyError \/ e = ValueError.
Proof.
  unfold getitem. destruct (has name cols); simpl; [discriminate|].
  intros H; injection H as <-. now left.
Qed.

Lemma total_raise {A B : Type} (f : A -> result B) :
  (forall x, exists v, f x = Ok v) ->
  forall x e, f x = Raise e -> e = ValueError.
Proof. intros H x e Hx. destruct (H x) as [v Hv]. congruence. Qed.

Ltac raise_kind E :=
  first
    [ apply getitem_map_raise in E; exact E
    | apply reordered_raise in E; exact E
    | apply setitem_frame_raise in E; exact E
    | apply score_term_raise in E; exact E
    | apply getitem_apply_raise in E;
      [ exact E
      | first [ exact clean_weight_raise
              | exact clean_aperture_f_raise
              | exact clean_shutter_speed_raise
              | exact clean_exposure_range_raise
              | exact clean_focus_range_raise
              | apply total_raise; exact clean_max_iso_total
              | apply total_raise; exact clean_screen_res_total
              | apply total_raise; exact clean_dimensions_total
              | apply total_raise; apply clean_screen_size_total ] ] ].

Ltac step_raise H :=
  repeat match type of H with
         | bind ?m _ = Raise _ =>
             let E := fresh "E" in
             destruct m eqn:E; cbn [bind] in H;
             [ | injection H as <-; raise_kind E ]
         end.

Lemma transform_raise (to_numeric : pystr -> pyfloat) (df : DataFrame) (e : exn) :
  clean_and_derive_features to_numeric df = Raise e ->
  e = KeyError \/ e = ValueError.
Proof.
  intros H. unfold clean_and_derive_features in H.
  step_raise H. cbv zeta in H. step_raise H.
  discriminate H.
Qed.



(** ** Batches the transform rejects *)

(** X18: A batch without a record is rejected: the transform raises
    [KeyError] or [ValueError] and returns no table.  When the table has
    all sixteen source columns the exception is the [ValueError] of the
    assignment of the three dimension columns. *)
Theorem empty_batch_is_rejected (to_numeric : pystr -> pyfloat) (cols : list label) :
  (exists e,
      clean_and_derive_features to_numeric {| columns := cols; rows := [] |} = Raise e
      /\ (e = KeyError \/ e = ValueError))
  /\ ((forall name, In name source_columns -> In name cols) ->
      clean_and_derive_features to_numeric {| columns := cols; rows := [] |}
      = Raise ValueError).
Proof.
  split.
  - destruct (clean_and_derive_features to_numeric {| columns := cols; rows := [] |})
      as [out|e] eqn:E.
    + exfalso. invert_transform E. cbn [columns rows map] in *.
      repeat match goal with
             | E : apply _ [] = Ok _ |- _ => cbn in E; injection E as <-
             end.
      match goal with
      | E : setitem_frame [] = Ok _ |- _ => discriminate E
      end.
    + exists e. split; [reflexivity|]. now apply transform_raise in E.
  - intros H. unfold clean_and_derive_features, getitem. cbn [columns rows map]. cbv zeta.
    repeat match goal with
           | |- context [has ?n cols] =>
               let Hh := fresh "Hh" in
               assert (Hh : has n cols = true)
                 by (apply has_In, H; unfold source_columns; simpl; tauto);
               rewrite Hh; clear Hh
           end.
    cbn [bind apply].
    assert (Hd : has "Dimensions" (rename renamed (setitem cols "Min_Aperture_F")) = true).
    { apply has_In. apply (@In_rename "Dimensions"). apply In_setitem. left.
      apply H. unfold source_columns. simpl. tauto. }
    rewrite Hd. reflexivity.
Qed.

Lemma empty_batch_is_rejected_witness :
  clean_and_derive_features to_numeric_decimal {| columns := schema; rows := [] |}
  = Raise ValueError.
Proof.
  apply (proj2 (empty_batch_is_rejected to_numeric_decimal schema)).
  apply (@closed_forall (fun name => has name schema) source_columns
           (fun name => In name schema)); [reflexivity|].
  intros x. apply has_In.
Defined.

Lemma two_in_filter (p : label -> bool) (a b : label) (l : list label) :
  In a l -> In b l -> a <> b -> p a = true -> p b = true ->
  (2 <= length (filter p l))%nat.
Proof.
  intros Ha Hb Hab Pa Pb.
  assert (one : forall x l', In x l' -> p x = true -> (1 <= length (filter p l'))%nat).
  { intros x l' Hx Px.
    assert (H : In x (filter p l')) by (apply filter_In; auto).
    destruct (filter p l'); [contradiction | simpl; lia]. }
  induction l as [|c l IH]; [contradiction|]. simpl.
  destruct Ha as [->|Ha], Hb as [->|Hb].
  - contradiction.
  - rewrite Pa. simpl. pose proof (one b l Hb Pb). lia.
  - rewrite Pb. simpl. pose proof (one a l Ha Pa). lia.
  - specialize (IH Ha Hb). destruct (p c); simpl; lia.
Qed.

Lemma length_filter_setitem (p : label -> bool) (l : list label) (name : label) :
  (length (filter p l) <= length (filter p (setitem l name)))%nat.
Proof.
  destruct (setitem_app l name) as [e ->]. rewrite filter_app, length_app. lia.
Qed.

Lemma length_filter_map {A B : Type} (p : B -> bool) (f : A -> B) (l : list A) :
  length (filter p (map f l)) = length (filter (fun x => p (f x)) l).
Proof.
  induction l as [|x l IH]; [reflexivity|]. simpl.
  destruct (p (f x)); simpl; now rewrite IH.
Qed.

Lemma score_term_two (cols : list label) (name : label) (u : unit) :
  score_term cols name = Ok u -> (length (filter (String.eqb name) cols) <= 1)%nat.
Proof.
  unfold score_term. destruct (filter (String.eqb name) cols) as [|c [|d l]];
    [discriminate | simpl; lia | discriminate].
Qed.

(** X19: An input that already has a column under the new name of a ranked
    column ([Weight_g], [Max_ISO], [Screen_Size_in] or
    [Max_Shutter_Speed_Sec]) is rejected.  After the renaming two columns
    carry that name, the score formula gets a frame where it expects a
    column, and the transform raises instead of returning a table. *)
Theorem rename_collision_is_rejected (to_numeric : pystr -> pyfloat)
    (df : DataFrame) (v : label) :
  In v ["Weight_g"; "Max_ISO"; "Screen_Size_in"; "Max_Shutter_Speed_Sec"] ->
  In v (columns df) ->
  exists e, clean_and_derive_features to_numeric df = Raise e.
Proof.
  intros Hv Hin.
  destruct (clean_and_derive_features to_numeric df) as [out|e] eqn:E; [|now exists e].
  exfalso.
  pose proof (transform_needs_columns to_numeric df E) as Hsrc.
  invert_transform E.
  assert (two : forall k,
             In (k, v) renamed ->
             (2 <= length (filter (String.eqb v)
                             (rename renamed (setitem (columns df) "Min_Aperture_F"))))%nat).
  { intros k Hk. unfold rename. rewrite length_filter_map.
    assert (Hkey : In k (map fst renamed)) by (apply (in_map fst) in Hk; exact Hk).
    apply two_in_filter with (a := k) (b := v).
    - apply In_setitem. left. apply Hsrc. now apply key_is_source.
    - apply In_setitem. now left.
    - intros ->. apply (@key_not_target v Hkey). apply (in_map snd) in Hk. exact Hk.
    - cbv beta. rewrite (@lookup_pair renamed k v renamed_keys_nodup Hk). apply String.eqb_refl.
    - cbv beta. rewrite lookup_not_key; [apply String.eqb_refl|].
      intros Hv'. apply (@key_not_target v Hv'). apply (in_map snd) in Hk. exact Hk. }
  simpl in Hv.
  destruct Hv as [<-|[<-|[<-|[<-|[]]]]].
  all: match goal with
       | two : forall k, In (k, ?v) renamed -> _ |- _ =>
           match goal with
           | T : score_term ?h v = Ok _ |- _ =>
               apply score_term_two in T;
               assert (Htwo : (2 <= length (filter (String.eqb v) h))%nat);
               [ repeat (eapply Nat.le_trans; [|apply length_filter_setitem]);
                 eapply two; simpl; repeat (first [left; reflexivity | right])
               | lia ]
           end
       end.
Qed.

Lemma rename_collision_is_rejected_witness :
  exists e,
    clean_and_derive_features to_numeric_decimal
      {| columns := schema ++ ["Weight_g"]; rows := [camera_a; camera_b] |} = Raise e.
Proof.
  apply (@rename_collision_is_rejected to_numeric_decimal
           {| columns := schema ++ ["Weight_g"]; rows := [camera_a; camera_b] |}
           "Weight_g").
  - simpl. tauto.
  - apply in_or_app. right. now left.
Defined.

(** ** The entry point *)

(** X17: [main] handles the two load failures only: without an input file, or
    with one that does not load, it writes nothing and returns.  An error
    of the transform is not handled: when the loaded table has one cell
    the weight normalizer raises on, [main] itself raises ([KeyError] or
    [ValueError]) and no output is written.  When it does write a table,
    the input had all sixteen source columns and every weight cell was
    cleaned. *)
Theorem main_handles_load_failures_only (to_numeric : pystr -> pyfloat) :
  main to_numeric None = Ok None
  /\ (forall e, main to_numeric (Some (Raise e)) = Ok None)
  /\ (forall df r e,
         In r (rows df) -> clean_weight (Weight r) = Raise e ->
         exists e',
           main to_numeric (Some (Ok df)) = Raise e'
           /\ (e' = KeyError \/ e' = ValueError))
  /\ (forall input_file out,
         main to_numeric input_file = Ok (Some out) ->
         exists df,
           input_file = Some (Ok df)
           /\ clean_and_derive_features to_numeric df = Ok out
           /\ (forall name, In name source_columns -> In name (columns df))
           /\ (forall r, In r (rows df) -> exists v, clean_weight (Weight r) = Ok v)).
Proof.
  split; [reflexivity|]. split; [reflexivity|]. split.
  - intros df r e Hin Hbad. unfold main.
    destruct (clean_and_derive_features to_numeric df) as [out|e'] eqn:E.
    + destruct (cleaned_cells_rows to_numeric df E r Hin) as [[v Hv] _]. congruence.
    + exists e'. split; [reflexivity|]. now apply transform_raise in E.
  - intros input_file out H. unfold main in H.
    destruct input_file as [[df|e]|]; [|discriminate|discriminate].
    destruct (clean_and_derive_features to_numeric df) as [out'|e'] eqn:E;
      [|discriminate].
    injection H as <-. exists df. split; [reflexivity|]. split; [exact E|].
    split.
    + exact (transform_needs_columns to_numeric df E).
    + intros r Hin. now destruct (cleaned_cells_rows to_numeric df E r Hin) as [Hv _].
Qed.

Lemma main_handles_load_failures_only_witness :
  (exists e',
      main to_numeric_decimal
        (Some (Ok {| columns := schema; rows := [camera_a; camera_c] |})) = Raise e'
      /\ (e' = KeyError \/ e' = ValueError))
  /\ match main to_numeric_decimal (Some (Ok sample)) with
     | Ok (Some out) => forall name, In name source_columns -> In name (columns sample)
     | _ => False
     end.
Proof.
  destruct (main_handles_load_failures_only to_numeric_decimal) as (_ & _ & H1 & H2).
  split.
  - apply (H1 {| columns := schema; rows := [camera_a; camera_c] |} camera_c ValueError).
    + simpl. tauto.
    + reflexivity.
  - destruct (main to_numeric_decimal (Some (Ok sample))) as [[out|]|e] eqn:E.
    + destruct (H2 (Some (Ok sample)) out E) as (df & Hdf & _ & Hcols & _).
      injection Hdf as <-. exact Hcols.
    + vm_compute in E. discriminate E.
    + vm_compute in E. discriminate E.
Defined.

(** ** Screen resolution *)

Lemma digit_lower (c : ascii) : is_digit (lower_char c) = is_digit c.
Proof. by_chars c. Qed.

Lemma remove_char_same (c : ascii) (s : pystr) :
  remove_char c (c :: s) = remove_char c s.
Proof. unfold remove_char. simpl. now rewrite Ascii.eqb_refl. Qed.

(** X5: [clean_screen_res] reads the first whole number of the text and
    nothing after it, with the thousands separators taken out: digits, a
    comma and more digits count as one number, and the text behind them is
    ignored. *)
Theorem clean_screen_res_first_number (a b u : pystr) :
  forallb is_digit a = true -> forallb is_digit b = true -> a <> [] ->
  match u with
  | c :: _ => is_digit c = false /\ c <> ","%char
  | [] => True
  end ->
  clean_screen_res (Str (a ++ ","%char :: b ++ u)) = Ok (Fin (inject_Z (dec (a ++ b))))
  /\ clean_screen_res (Str (a ++ u)) = Ok (Fin (inject_Z (dec a))).
Proof.
  intros Ha Hb Hn Hu.
  assert (Hrest : match lower (remove_char "," u) with
                  | c :: _ => is_digit c = false
                  | [] => True
                  end).
  { destruct u as [|c u]; [exact I|]. destruct Hu as [Hc Hcomma].
    cbn [remove_char filter].
    destruct (Ascii.eqb c ",") eqn:E; [apply Ascii.eqb_eq in E; contradiction|].
    cbn [negb lower map]. now rewrite digit_lower. }
  assert (Hlow : forall d, forallb is_digit d = true -> lower d = d).
  { intros d Hd. apply lower_number.
    eapply forallb_impl; [exact digit_is_number | exact Hd]. }
  assert (Hrem : forall d, forallb is_digit d = true -> remove_char "," d = d).
  { intros d Hd. apply remove_char_none.
    eapply forallb_impl; [exact digit_not_comma | exact Hd]. }
  assert (Hfirst : forall d, forallb is_digit d = true -> d <> [] ->
            match re_findall re_int (d ++ lower (remove_char "," u)) with
            | t :: _ => py_float t
            | [] => Ok NaN
            end = Ok (Fin (inject_Z (dec d)))).
  { intros d Hd Hdn. unfold re_int.
    rewrite (findall_tokens (scans_group_plus is_digit) (run_token_whole is_digit)).
    pose proof (@tokens_hd (run_token is_digit) (d ++ lower (remove_char "," u))
                  (run_token_whole is_digit)) as Hh.
    assert (Hrun : run_token is_digit (d ++ lower (remove_char "," u))
                   = Some (d, lower (remove_char "," u))).
    { unfold run_token. rewrite span_all by assumption.
      destruct d; [contradiction | reflexivity]. }
    rewrite (first_token_head _ _ Hrun) in Hh.
    destruct (tokens _ _) as [|t l]; [discriminate|].
    injection Hh as ->. now apply py_float_digits. }
  split.
  - unfold clean_screen_res.
    rewrite remove_char_app, remove_char_same, remove_char_app.
    rewrite (Hrem a Ha), (Hrem b Hb).
    rewrite !lower_app, (Hlow a Ha), (Hlow b Hb), app_assoc.
    apply Hfirst.
    + rewrite forallb_app. now rewrite Ha, Hb.
    + destruct a; [contradiction | discriminate].
  - unfold clean_screen_res.
    rewrite remove_char_app, (Hrem a Ha), lower_app, (Hlow a Ha).
    now apply Hfirst.
Qed.

Lemma clean_screen_res_first_number_witness :
  clean_screen_res (Str (py "1,040 x 720 dots")) = Ok (Fin 1040)
  /\ clean_screen_res (Str (py "1 x 720 dots")) = Ok (Fin 1).
Proof.
  refine (@clean_screen_res_first_number (py "1") (py "040") (py " x 720 dots")
            eq_refl eq_refl _ _).
  - discriminate.
  - split; [reflexivity | discriminate].
Defined.

(** * Missing inputs in the scores *)






























